(** * Connection-state reconciliation and session persistence

    A shallow embedding of the session core of evolution-api-custom:
    the Redis cache engine ([RedisCache]), the restoration coordinator
    ([SessionRestorationService]), the health monitor
    ([ConnectionHealthService]), the shutdown drain
    ([GracefulShutdownService]), the instance registry writes of
    [WAMonitoringService] and the readiness gate of
    [SendMessageController].

    Asynchronous functions are embedded as computations in a state and
    exception monad over one [World]: the registry, the heap of instance
    objects it refers to, the physical Redis store, the instance table of
    the relational store and the trace of calls made to collaborators.
    An [await] is a sequencing point; a rejected promise is a thrown
    error.  Logger calls are pure output and are left out, but for the
    line that is all the provider-file stage does.

    Conventions.  Whether the Redis server, the relational store and
    the collaborators answer is fixed for a run by the environment
    ([Env]); promises started together ([Promise.all], a call that is
    not awaited) run one after the other in the order they are started;
    timers are recorded in the trace when they are armed and do not
    fire.  An event handed to the event emitter is recorded in the
    trace; its listeners are entry points of their own and do not run
    within the call that emits it.  [undefined] and [null] of an
    optional field are [None].  A text is held as the bytes of its
    UTF-8 encoding, and [length] counts its UTF-16 units.  The registry
    is a plain object: a name that [Object.prototype] defines and no
    instance is stored under is answered with the inherited member. *)

From Stdlib Require Import ZArith String Ascii List Bool Lia.
From stdpp Require Import base option list gmap strings fin_maps.

Local Open Scope string_scope.
Local Open Scope Z_scope.

(** ** JavaScript strings *)

Module Js.

(** [hay.includes(needle)] *)
Fixpoint includes (needle hay : string) : bool :=
  if String.prefix needle hay then true
  else match hay with
       | EmptyString => false
       | String _ rest => includes needle rest
       end.

(** [s.split(sep)] for a one-character separator; never the empty list. *)
Fixpoint split (sep : ascii) (s : string) : list string :=
  match s with
  | EmptyString => [EmptyString]
  | String c rest =>
      if Ascii.eqb c sep then EmptyString :: split sep rest
      else match split sep rest with
           | h :: t => String c h :: t
           | [] => [String c EmptyString]
           end
  end.

(** [parts.join(sep)] *)
Fixpoint join (sep : string) (parts : list string) : string :=
  match parts with
  | [] => EmptyString
  | [p] => p
  | p :: rest => (p +:+ sep +:+ join sep rest)
  end.

Fixpoint drop_chars (n : nat) (s : string) : string :=
  match n, s with
  | O, _ => s
  | S n', String _ rest => drop_chars n' rest
  | S _, EmptyString => EmptyString
  end.

(** [s.replace(pat, '')] with a string pattern: the first occurrence only. *)
Fixpoint remove_first (pat s : string) : string :=
  if String.prefix pat s then drop_chars (String.length pat) s
  else match s with
       | EmptyString => EmptyString
       | String c rest => String c (remove_first pat rest)
       end.

(** Truthiness of a string: every string but the empty one. *)
Definition nonempty (s : string) : bool :=
  match s with EmptyString => false | _ => true end.

(** Truthiness of an optional string property ([undefined] is [None]). *)
Definition truthy_str (o : option string) : bool :=
  match o with Some s => nonempty s | None => false end.

(** [a || b] on optional strings. *)
Definition or_str (a b : option string) : option string :=
  if truthy_str a then a else b.

Definition digit_of (c : ascii) : option Z :=
  let n := Z.of_nat (nat_of_ascii c) in
  if (48 <=? n) && (n <=? 57) then Some (n - 48) else None.

Fixpoint digits (acc : option Z) (s : string) : option Z :=
  match s with
  | EmptyString => acc
  | String c rest =>
      match digit_of c with
      | Some d => digits (Some (10 * default 0 acc + d)) rest
      | None => acc
      end
  end.

Definition hex_digit_of (c : ascii) : option Z :=
  let n := Z.of_nat (nat_of_ascii c) in
  if (48 <=? n) && (n <=? 57) then Some (n - 48)
  else if (65 <=? n) && (n <=? 70) then Some (n - 55)
  else if (97 <=? n) && (n <=? 102) then Some (n - 87)
  else None.

Fixpoint hex_digits (acc : option Z) (s : string) : option Z :=
  match s with
  | EmptyString => acc
  | String c rest =>
      match hex_digit_of c with
      | Some d => hex_digits (Some (16 * default 0 acc + d)) rest
      | None => acc
      end
  end.

(** The white space and line terminators of one byte: tab, line feed,
    vertical tab, form feed, carriage return and space. *)
Definition is_blank (c : ascii) : bool :=
  let n := Z.of_nat (nat_of_ascii c) in
  ((9 <=? n) && (n <=? 13)) || (n =? 32).

(** Those of two and three bytes in UTF-8: U+00A0; U+1680, U+2000 to
    U+200A, U+2028, U+2029, U+202F, U+205F, U+3000 and U+FEFF. *)
Definition is_blank2 (a b : Z) : bool := (a =? 194) && (b =? 160).

Definition is_blank3 (a b c : Z) : bool :=
  ((a =? 225) && (b =? 154) && (c =? 128))
  || ((a =? 226) && (b =? 128)
      && (((128 <=? c) && (c <=? 138)) || (c =? 168) || (c =? 169) || (c =? 175)))
  || ((a =? 226) && (b =? 129) && (c =? 159))
  || ((a =? 227) && (b =? 128) && (c =? 128))
  || ((a =? 239) && (b =? 187) && (c =? 191)).

(** [s.trimStart()], as [parseInt] applies it to its argument. *)
Fixpoint trimStart (s : string) : string :=
  match s with
  | EmptyString => s
  | String a rest =>
      let x := Z.of_nat (nat_of_ascii a) in
      if is_blank a then trimStart rest
      else if x <? 194 then s
      else
        match rest with
        | EmptyString => s
        | String b rest2 =>
            let y := Z.of_nat (nat_of_ascii b) in
            if is_blank2 x y then trimStart rest2
            else
              match rest2 with
              | EmptyString => s
              | String c rest3 =>
                  if is_blank3 x y (Z.of_nat (nat_of_ascii c)) then trimStart rest3 else s
              end
        end
  end.

(** The digits after the sign: in base 16 after [0x] or [0X], in base
    10 otherwise. *)
Definition unsigned (s : string) : option Z :=
  match s with
  | String "0" (String "x" rest) => hex_digits None rest
  | String "0" (String "X" rest) => hex_digits None rest
  | _ => digits None s
  end.

(** [parseInt(s)]: leading white space is skipped, then an optional
    sign and the longest prefix of digits are read; [None] is NaN. *)
Definition parseInt (s : string) : option Z :=
  match trimStart s with
  | String "-" rest => Z.opp <$> unsigned rest
  | String "+" rest => unsigned rest
  | t => unsigned t
  end.

Fixpoint digits_of_pos (fuel : nat) (n : Z) (acc : string) : string :=
  match fuel with
  | O => acc
  | S fuel' =>
      let acc' := String (ascii_of_nat (Z.to_nat (48 + n mod 10))) acc in
      if n / 10 =? 0 then acc' else digits_of_pos fuel' (n / 10) acc'
  end.

(** [n.toString()] for an integer. *)
Definition toString (n : Z) : string :=
  if n <? 0 then String "-" (digits_of_pos (S (Z.to_nat (Z.log2 (- n)))) (- n) EmptyString)
  else digits_of_pos (S (Z.to_nat (Z.log2 n))) n EmptyString.

(** The UTF-16 units of one byte of a text held in UTF-8: a
    continuation byte adds none, the first byte of a character of four
    bytes stands for a surrogate pair. *)
Definition units_of (c : ascii) : nat :=
  let n := nat_of_ascii c in
  if (n <? 128)%nat then 1%nat
  else if (n <? 192)%nat then 0%nat
  else if (n <? 240)%nat then 1%nat
  else 2%nat.

(** [s.length] *)
Fixpoint length (s : string) : nat :=
  match s with
  | EmptyString => 0%nat
  | String c rest => (units_of c + length rest)%nat
  end.

(** The property names every plain object inherits from
    [Object.prototype]. *)
Definition prototype_names : list string :=
  ["constructor"; "toString"; "toLocaleString"; "valueOf"; "hasOwnProperty";
   "isPrototypeOf"; "propertyIsEnumerable"; "__proto__"; "__defineGetter__";
   "__defineSetter__"; "__lookupGetter__"; "__lookupSetter__"].

Definition inherited (name : string) : bool := existsb (String.eqb name) prototype_names.

End Js.

(** ** JSON documents

    Every value the cache engine stores went through [JSON.stringify]
    and every value it returns went through [JSON.parse]; the model keeps
    the document a stored text denotes.  [JNull] is also the [null] the
    engine answers for an absent key. *)

#[warnings="-register-all"]
Inductive json : Type :=
| JNull
| JBool (b : bool)
| JNum (n : Z)
| JStr (s : string)
| JObj (fields : list (string * json)).

Module Json.

(** JavaScript truthiness of a parsed document. *)
Definition truthy (v : json) : bool :=
  match v with
  | JNull => false
  | JBool b => b
  | JNum n => negb (n =? 0)
  | JStr s => Js.nonempty s
  | JObj _ => true
  end.

Fixpoint assoc (k : string) (fields : list (string * json)) : option json :=
  match fields with
  | [] => None
  | (k', v) :: rest => if String.eqb k k' then Some v else assoc k rest
  end.

(** [v.k]; [None] is [undefined]. *)
Definition prop (v : json) (k : string) : option json :=
  match v with
  | JObj fields => assoc k fields
  | _ => None
  end.

Definition truthy_prop (v : json) (k : string) : bool :=
  match prop v k with Some x => truthy x | None => false end.

(** A string-typed property, as the DTO types declare the fields read here. *)
Definition str_prop (v : json) (k : string) : option string :=
  match prop v k with Some (JStr s) => Some s | _ => None end.

End Json.

(** ** Data model *)

(** Modelled from the spec: the enum [Integration] of [wa.types] is not
    among the sources.  [Integration.WHATSAPP_BAILEYS] is the one
    integration kind with a transport-level socket; integration kinds
    are compared as strings and this is the tag that stands for it. *)
Definition WHATSAPP_BAILEYS : string := "WHATSAPP-BAILEYS".

Record WebSocket := { readyState : Z }.

Record WAUser := { user_id : string }.

(** The transport object of an instance ([instance.client]). *)
Record Client := {
  ws : option WebSocket;
  user : option WAUser;
  has_end : bool
}.

(** A live instance object.  [state] is [stateConnection.state], which
    the [connectionStatus] accessor returns; [wuid], [profileName] and
    [profilePictureUrl] are the fields of [instance.instance];
    [lastMessageSentTime] is the time of the most recent send that
    completed. *)
Record Instance := {
  name : string;
  instanceId : option string;
  integration : option string;
  token : option string;
  number : option string;
  businessId : option string;
  phoneNumber : option string;
  wuid : option string;
  profileName : option string;
  profilePictureUrl : option string;
  state : string;
  client : option Client;
  lastMessageSentTime : option Z
}.

(** [InstanceDto], the record a restoration hands to the registry.
    [dto_config] carries the webhook, chatwoot, proxy and settings
    columns, which the coordinator copies and never inspects. *)
Record InstanceDto := {
  dto_instanceId : option string;
  dto_instanceName : option string;
  dto_integration : option string;
  dto_token : option string;
  dto_number : option string;
  dto_businessId : option string;
  dto_config : json
}.

(** A row of the instance table, with its included relations folded
    into [row_config]. *)
Record DbInstance := {
  row_id : string;
  row_name : string;
  row_clientName : string;
  row_integration : option string;
  row_token : option string;
  row_number : option string;
  row_businessId : option string;
  row_connectionStatus : string;
  row_ownerJid : option string;
  row_profileName : option string;
  row_profilePicUrl : option string;
  row_config : json
}.

(** The instance state handed to [persistInstanceState] (typed [any] in
    the source; these are the properties its callers set). *)
Record InstanceData := {
  data_instanceId : option string;
  data_instanceName : string;
  data_integration : option string;
  data_connectionStatus : option string;
  data_ownerJid : option string;
  data_profileName : option string;
  data_profilePicUrl : option string;
  data_number : option string;
  data_token : option string;
  data_businessId : option string
}.

(** ** The physical Redis store *)

(** The other value types of the server. *)
Inductive rkind := RList | RSet | RZSet | RStream.

Inductive rvalue :=
| RString (doc : json)
| RHash (fields : gmap string json)
| ROther (kind : rkind).

(** A key's value and its time to live in seconds ([None]: persistent). *)
Record rentry := { rval : rvalue; rttl : option Z }.

Inductive RedisCmd :=
| GET (k : string)
| SET (k : string) (v : json)
| SETEX (k : string) (seconds : Z) (v : json)
| HGET (k f : string)
| HSET (k f : string) (v : json)
| DEL (k : string)
| HDEL (k f : string)
| EXISTS (k : string)
| TYPE (k : string)
| SCAN (pattern : string).

(** ** Calls to collaborators, in the order they are made *)

Inductive Event :=
| Redis (c : RedisCmd)
| DbFindMany (clientName : string)
| DbFindFirst (key clientName : string)
| DbUpdate (id : string) (connectionStatus : string)
| ChannelInit (instanceName : string)
| ConnectToWhatsapp (instance : nat)
| SendDataWebhook (instance : nat) (event : string) (payload : json)
| WsClose (instance : nat)
| WsTerminate (instance : nat)
| ClientEnd (instance : nat)
| SendMessage (instance : nat) (operation : string)
| SetTimeout (task : string) (arg : string) (ms : Z)
| StopHealthJob
| ProcessExit (code : Z)
| EmitEvent (event : string) (instanceName : string)
| LogInfo (message : string).

(** ** Environment and world *)

(** Configuration values and the behaviour of the collaborators that
    are outside the sources: whether the Redis server and the relational
    store answer, whether the channel factory yields an instance for a
    DTO, whether an instance's connect and webhook calls resolve, the
    clock and [JSON.parse] on free text. *)
Record Env := {
  REDIS_ENABLED : bool;
  REDIS_SAVE_INSTANCES : bool;
  REDIS_TTL : Z;
  REDIS_PREFIX_KEY : string;
  SAVE_DATA_INSTANCE : bool;
  CLIENT_NAME : string;
  redis_up : bool;
  db_up : bool;
  init_ok : InstanceDto -> bool;
  connect_ok : string -> bool;
  webhook_ok : string -> bool;
  health_job_ok : bool;
  date_now : Z;
  JSON_parse : string -> option json
}.

Record World := {
  env : Env;
  waInstances : gmap string nat;
  heap : gmap nat Instance;
  next_ref : nat;
  redis : gmap string rentry;
  db : list DbInstance;
  isShuttingDown : bool;
  trace : list Event
}.

Definition with_waInstances (r : gmap string nat) (w : World) : World :=
  {| env := env w; waInstances := r; heap := heap w; next_ref := next_ref w;
     redis := redis w; db := db w;
     isShuttingDown := isShuttingDown w; trace := trace w |}.

Definition with_heap (h : gmap nat Instance) (w : World) : World :=
  {| env := env w; waInstances := waInstances w; heap := h; next_ref := next_ref w;
     redis := redis w; db := db w;
     isShuttingDown := isShuttingDown w; trace := trace w |}.

Definition with_next_ref (n : nat) (w : World) : World :=
  {| env := env w; waInstances := waInstances w; heap := heap w; next_ref := n;
     redis := redis w; db := db w;
     isShuttingDown := isShuttingDown w; trace := trace w |}.

Definition with_redis (s : gmap string rentry) (w : World) : World :=
  {| env := env w; waInstances := waInstances w; heap := heap w; next_ref := next_ref w;
     redis := s; db := db w;
     isShuttingDown := isShuttingDown w; trace := trace w |}.

Definition with_db (d : list DbInstance) (w : World) : World :=
  {| env := env w; waInstances := waInstances w; heap := heap w; next_ref := next_ref w;
     redis := redis w; db := d;
     isShuttingDown := isShuttingDown w; trace := trace w |}.

Definition with_isShuttingDown (b : bool) (w : World) : World :=
  {| env := env w; waInstances := waInstances w; heap := heap w; next_ref := next_ref w;
     redis := redis w; db := db w; isShuttingDown := b; trace := trace w |}.

Definition with_trace (t : list Event) (w : World) : World :=
  {| env := env w; waInstances := waInstances w; heap := heap w; next_ref := next_ref w;
     redis := redis w; db := db w;
     isShuttingDown := isShuttingDown w; trace := t |}.

(** ** The monad of asynchronous code *)

(** A thrown error, by its message. *)
Definition jserror := string.

Inductive Res (A : Type) :=
| Ok (a : A)
| Throw (e : jserror).
Arguments Ok {A} a.
Arguments Throw {A} e.

Definition M (A : Type) : Type := World -> Res A * World.

Definition ret {A} (a : A) : M A := fun w => (Ok a, w).

Definition bind {A B} (m : M A) (k : A -> M B) : M B :=
  fun w => match m w with
           | (Ok a, w') => k a w'
           | (Throw e, w') => (Throw e, w')
           end.

Definition throw {A} (e : jserror) : M A := fun w => (Throw e, w).

(** [try { m } catch (error) { h error }]: effects made before the
    throw stay. *)
Definition try_catch {A} (m : M A) (h : jserror -> M A) : M A :=
  fun w => match m w with
           | (Ok a, w') => (Ok a, w')
           | (Throw e, w') => h e w'
           end.

Definition get_world : M World := fun w => (Ok w, w).
Definition get_env : M Env := fun w => (Ok (env w), w).
Definition modify (f : World -> World) : M unit := fun w => (Ok tt, f w).
Definition emit (ev : Event) : M unit := modify (fun w => with_trace (trace w ++ [ev]) w).

Notation "'let!' x ':=' m 'in' k" := (bind m (fun x => k))
  (at level 10, x name, m at level 100, k at level 200).
Notation "m '>>' k" := (bind m (fun _ => k))
  (at level 90, right associativity).

(** [for (const x of xs) body(x)] *)
Fixpoint for_each {A} (xs : list A) (body : A -> M unit) : M unit :=
  match xs with
  | [] => ret tt
  | x :: rest => body x >> for_each rest body
  end.

(** A [for ... of] loop that updates one local ([let restored = 0]). *)
Fixpoint for_fold {A S} (xs : list A) (s : S) (body : S -> A -> M S) : M S :=
  match xs with
  | [] => ret s
  | x :: rest => let! s' := body s x in for_fold rest s' body
  end.

Definition when (b : bool) (m : M unit) : M unit := if b then m else ret tt.

(** ** The Redis client

    The commands the engine issues, with the server's typing rules: GET
    on a key that holds no string, and HGET, HSET and HDEL on a key that
    holds no hash, are refused with a WRONGTYPE error; SET and SETEX
    overwrite a key of any type; an unreachable server fails every
    command. *)

Module RedisClient.

Definition WRONGTYPE : jserror :=
  "WRONGTYPE Operation against a key holding the wrong kind of value".
Definition CLOSED : jserror := "The client is closed".
Definition INVALID_EXPIRE : jserror := "ERR invalid expire time in 'setex' command".

Definition command {A} (c : RedisCmd)
    (f : gmap string rentry -> Res A * gmap string rentry) : M A :=
  emit (Redis c) >>
  fun w => if redis_up (env w)
           then match f (redis w) with (r, s) => (r, with_redis s w) end
           else (Throw CLOSED, w).

Definition get (k : string) : M (option json) :=
  command (GET k) (fun s =>
    match s !! k with
    | None => (Ok None, s)
    | Some e => match rval e with
                | RString d => (Ok (Some d), s)
                | _ => (Throw WRONGTYPE, s)
                end
    end).

Definition set (k : string) (v : json) : M unit :=
  command (SET k v) (fun s => (Ok tt, <[k := {| rval := RString v; rttl := None |}]> s)).

Definition setEx (k : string) (seconds : Z) (v : json) : M unit :=
  command (SETEX k seconds v) (fun s =>
    if seconds <=? 0 then (Throw INVALID_EXPIRE, s)
    else (Ok tt, <[k := {| rval := RString v; rttl := Some seconds |}]> s)).

Definition hGet (k f : string) : M (option json) :=
  command (HGET k f) (fun s =>
    match s !! k with
    | None => (Ok None, s)
    | Some e => match rval e with
                | RHash m => (Ok (m !! f), s)
                | _ => (Throw WRONGTYPE, s)
                end
    end).

Definition hSet (k f : string) (v : json) : M unit :=
  command (HSET k f v) (fun s =>
    match s !! k with
    | None => (Ok tt, <[k := {| rval := RHash {[ f := v ]}; rttl := None |}]> s)
    | Some e => match rval e with
                | RHash m => (Ok tt, <[k := {| rval := RHash (<[f := v]> m); rttl := rttl e |}]> s)
                | _ => (Throw WRONGTYPE, s)
                end
    end).

Definition del (k : string) : M Z :=
  command (DEL k) (fun s =>
    match s !! k with
    | None => (Ok 0, s)
    | Some _ => (Ok 1, delete k s)
    end).

Definition hDel (k f : string) : M Z :=
  command (HDEL k f) (fun s =>
    match s !! k with
    | None => (Ok 0, s)
    | Some e => match rval e with
                | RHash m =>
                    match m !! f with
                    | None => (Ok 0, s)
                    | Some _ =>
                        let m' := delete f m in
                        if decide (m' = ∅) then (Ok 1, delete k s)
                        else (Ok 1, <[k := {| rval := RHash m'; rttl := rttl e |}]> s)
                    end
                | _ => (Throw WRONGTYPE, s)
                end
    end).

Definition exists_ (k : string) : M Z :=
  command (EXISTS k) (fun s => (Ok (match s !! k with Some _ => 1 | None => 0 end), s)).

Definition type_name (v : rvalue) : string :=
  match v with
  | RString _ => "string"
  | RHash _ => "hash"
  | ROther RList => "list"
  | ROther RSet => "set"
  | ROther RZSet => "zset"
  | ROther RStream => "stream"
  end.

Definition type (k : string) : M string :=
  command (TYPE k) (fun s =>
    (Ok (match s !! k with Some e => type_name (rval e) | None => "none" end), s)).

(** MATCH patterns here are a literal text followed by one [*]. *)
Fixpoint glob (pat s : string) : bool :=
  match pat with
  | EmptyString => negb (Js.nonempty s)
  | String "*" EmptyString => true
  | String c pat' =>
      match s with
      | String c' s' => Ascii.eqb c c' && glob pat' s'
      | EmptyString => false
      end
  end.

(** [scanIterator({ MATCH, COUNT })], drained. *)
Definition scan (pattern : string) : M (list string) :=
  command (SCAN pattern) (fun s =>
    (Ok (filter (fun k => Is_true (glob pattern k)) (map fst (map_to_list s))), s)).

End RedisClient.

(** ** RedisCache, the cache engine *)

Module RedisCache.

(** The physical key of a logical key: [prefix:module:key]. *)
Definition physical_key (e : Env) (module key : string) : string :=
  REDIS_PREFIX_KEY e +:+ ":" +:+ module +:+ ":" +:+ key.

Section Engine.

(** [this.module], the namespace of one engine. *)
Variable module : string.

Definition buildKey (key : string) : M string :=
  let! e := get_env in
  ret (physical_key e module key).

(** [ttl === 0 ? set : setEx(ttl || conf.TTL)], shared by [set] and its
    retry. *)
Definition write_string (fullKey : string) (value : json) (ttl : option Z) : M unit :=
  match ttl with
  | Some 0 => RedisClient.set fullKey value
  | Some t => RedisClient.setEx fullKey t value
  | None => let! e := get_env in RedisClient.setEx fullKey (REDIS_TTL e) value
  end.

Definition handleWrongTypeError (key operation : string) (field : option string)
    (value : option json) (ttl : option Z) : M json :=
  try_catch
    (let! fullKey := buildKey key in
     let! keyType := RedisClient.type fullKey in
     if negb (String.eqb keyType "none") then
       RedisClient.del fullKey >>
       if String.eqb operation "get" then ret JNull
       else if String.eqb operation "hGet" then ret JNull
       else if String.eqb operation "set" then
         match value with
         | Some v => write_string fullKey v ttl >> ret JNull
         | None => ret JNull
         end
       else if String.eqb operation "hSet" then
         match value, field with
         | Some v, Some f => RedisClient.hSet fullKey f v >> ret JNull
         | _, _ => ret JNull
         end
       else ret JNull
     else ret JNull)
    (fun _ => ret JNull).

Definition is_wrongtype (error : jserror) : bool :=
  Js.nonempty error && Js.includes "WRONGTYPE" error.

Definition get (key : string) : M json :=
  try_catch
    (let! fullKey := buildKey key in
     let! result := RedisClient.get fullKey in
     ret (default JNull result))
    (fun error =>
       if is_wrongtype error then handleWrongTypeError key "get" None None None
       else ret JNull).

Definition hGet (key field : string) : M json :=
  try_catch
    (let! fullKey := buildKey key in
     let! data := RedisClient.hGet fullKey field in
     ret (default JNull data))
    (fun error =>
       if is_wrongtype error then handleWrongTypeError key "hGet" (Some field) None None
       else ret JNull).

Definition set (key : string) (value : json) (ttl : option Z) : M unit :=
  try_catch
    (let! fullKey := buildKey key in
     write_string fullKey value ttl)
    (fun error =>
       if is_wrongtype error then
         handleWrongTypeError key "set" None (Some value) ttl >> ret tt
       else throw error).

Definition hSet (key field : string) (value : json) : M unit :=
  try_catch
    (let! fullKey := buildKey key in
     RedisClient.hSet fullKey field value)
    (fun error =>
       if is_wrongtype error then
         handleWrongTypeError key "hSet" (Some field) (Some value) None >> ret tt
       else throw error).

(** [undefined] after a logged error is [None]. *)
Definition has (key : string) : M (option bool) :=
  try_catch
    (let! fullKey := buildKey key in
     let! n := RedisClient.exists_ fullKey in
     ret (Some (0 <? n)))
    (fun _ => ret None).

Definition delete (key : string) : M (option Z) :=
  try_catch
    (let! fullKey := buildKey key in
     let! n := RedisClient.del fullKey in
     ret (Some n))
    (fun _ => ret None).

Definition hDelete (key field : string) : M (option Z) :=
  try_catch
    (let! fullKey := buildKey key in
     let! n := RedisClient.hDel fullKey field in
     ret (Some n))
    (fun _ => ret None).

Definition keys (appendCriteria : option string) : M (option (list string)) :=
  try_catch
    (let! base := buildKey EmptyString in
     let suffix := match appendCriteria with
                   | Some c => if Js.nonempty c then c +:+ ":" else EmptyString
                   | None => EmptyString
                   end in
     let! found := RedisClient.scan (base +:+ suffix +:+ "*") in
     ret (Some found))
    (fun _ => ret None).

Definition getKeyType (key : string) : M string :=
  try_catch
    (let! fullKey := buildKey key in
     RedisClient.type fullKey)
    (fun _ => ret "none").

(** The expected shape of a logical key, as the sweep decides it. *)
Definition shouldBeHash (logicalKey : string) : bool :=
  Js.includes ":" logicalKey || Js.includes "-" logicalKey.

Definition isCorrupted (logicalKey keyType : string) : bool :=
  let shouldBeString := negb (shouldBeHash logicalKey) in
  (shouldBeHash logicalKey && negb (String.eqb keyType "hash"))
  || (shouldBeString && negb (String.eqb keyType "string")
                     && negb (String.eqb keyType "none")).

Definition cleanupCorruptedKeys (pattern : option string) : M Z :=
  try_catch
    (let! base := buildKey EmptyString in
     let searchPattern := match pattern with
                          | Some p => if Js.nonempty p then p else base +:+ "*"
                          | None => base +:+ "*"
                          end in
     let! found := RedisClient.scan searchPattern in
     for_fold found 0 (fun cleanedCount key =>
       try_catch
         (let! keyType := RedisClient.type key in
          let logicalKey := Js.remove_first base key in
          if isCorrupted logicalKey keyType
          then RedisClient.del key >> ret (cleanedCount + 1)
          else ret cleanedCount)
         (fun _ => ret cleanedCount)))
    (fun _ => ret 0).

End Engine.
End RedisCache.

(** ** The relational store (Prisma client, instance table) *)

Module Prisma.

Definition UNREACHABLE : jserror := "Can't reach database server".
Definition NOT_FOUND : jserror := "Record to update not found.".

(** [connectionStatus: { in: ['open', 'connecting'] }] *)
Definition eligible (row : DbInstance) : bool :=
  String.eqb (row_connectionStatus row) "open"
  || String.eqb (row_connectionStatus row) "connecting".

Definition query {A} (ev : Event) (f : list DbInstance -> Res A * list DbInstance) : M A :=
  emit ev >>
  fun w => if db_up (env w)
           then match f (db w) with (r, d) => (r, with_db d w) end
           else (Throw UNREACHABLE, w).

(** [findMany({ where: { clientName, connectionStatus: { in: [...] } } })] *)
Definition findManyEligible (clientName : string) : M (list DbInstance) :=
  query (DbFindMany clientName) (fun rows =>
    (Ok (List.filter (fun r => String.eqb (row_clientName r) clientName && eligible r) rows), rows)).

(** [findMany({ where: { clientName } })] *)
Definition findManyOfClient (clientName : string) : M (list DbInstance) :=
  query (DbFindMany clientName) (fun rows =>
    (Ok (List.filter (fun r => String.eqb (row_clientName r) clientName) rows), rows)).

(** [findFirst] by id or by name within the client namespace, among
    the eligible rows. *)
Definition findFirstEligible (key clientName : string) : M (option DbInstance) :=
  query (DbFindFirst key clientName) (fun rows =>
    (Ok (List.find (fun r =>
           (String.eqb (row_id r) key || String.eqb (row_name r) key)
           && String.eqb (row_clientName r) clientName && eligible r) rows), rows)).

(** The columns an update may write; [None] leaves a column as it is. *)
Record StatusUpdate := {
  upd_connectionStatus : string;
  upd_ownerJid : option string;
  upd_profileName : option string;
  upd_profilePicUrl : option string;
  upd_number : option string
}.

Definition keep (new old : option string) : option string :=
  match new with Some _ => new | None => old end.

Definition apply_update (u : StatusUpdate) (r : DbInstance) : DbInstance :=
  {| row_id := row_id r; row_name := row_name r; row_clientName := row_clientName r;
     row_integration := row_integration r; row_token := row_token r;
     row_number := keep (upd_number u) (row_number r);
     row_businessId := row_businessId r;
     row_connectionStatus := upd_connectionStatus u;
     row_ownerJid := keep (upd_ownerJid u) (row_ownerJid r);
     row_profileName := keep (upd_profileName u) (row_profileName r);
     row_profilePicUrl := keep (upd_profilePicUrl u) (row_profilePicUrl r);
     row_config := row_config r |}.

(** [instance.update({ where: { id }, data })] *)
Definition update (id : string) (u : StatusUpdate) : M unit :=
  query (DbUpdate id (upd_connectionStatus u)) (fun rows =>
    if existsb (fun r => String.eqb (row_id r) id) rows
    then (Ok tt, map (fun r => if String.eqb (row_id r) id then apply_update u r else r) rows)
    else (Throw NOT_FOUND, rows)).

Definition status_only (status : string) : StatusUpdate :=
  {| upd_connectionStatus := status; upd_ownerJid := None; upd_profileName := None;
     upd_profilePicUrl := None; upd_number := None |}.

End Prisma.

(** ** Instance objects and their methods

    Modelled from the spec: the channel service behind an instance
    object is not among the sources.  Each of its methods is the call
    made to it, recorded in the trace, with the outcome the environment
    gives it.  [connectionStatus] is a getter: by the Connection State
    Tracker of the specification (4.3) the verification rule runs on
    every state read, and the read answers [stateConnection] as the rule
    leaves it. *)

Module Obj.

Definition DANGLING : jserror := "TypeError: Cannot read properties of undefined".

Definition read (r : nat) : M Instance :=
  fun w => match heap w !! r with
           | Some i => (Ok i, w)
           | None => (Throw DANGLING, w)
           end.

Definition update (r : nat) (f : Instance -> Instance) : M unit :=
  modify (fun w => with_heap (alter f r (heap w)) w).

Definition set_state (s : string) (i : Instance) : Instance :=
  {| name := name i; instanceId := instanceId i; integration := integration i;
     token := token i; number := number i; businessId := businessId i;
     phoneNumber := phoneNumber i; wuid := wuid i; profileName := profileName i;
     profilePictureUrl := profilePictureUrl i; state := s; client := client i;
     lastMessageSentTime := lastMessageSentTime i |}.

Definition set_client (c : option Client) (i : Instance) : Instance :=
  {| name := name i; instanceId := instanceId i; integration := integration i;
     token := token i; number := number i; businessId := businessId i;
     phoneNumber := phoneNumber i; wuid := wuid i; profileName := profileName i;
     profilePictureUrl := profilePictureUrl i; state := state i; client := c;
     lastMessageSentTime := lastMessageSentTime i |}.

Definition CLOSED_STATE : Z := 3.

Definition close_socket (i : Instance) : Instance :=
  match client i with
  | Some c =>
      match ws c with
      | Some _ => set_client (Some {| ws := Some {| readyState := CLOSED_STATE |};
                                      user := user c; has_end := has_end c |}) i
      | None => i
      end
  | None => i
  end.

(** [instance.stateConnection.state = s] *)
Definition assign_state (r : nat) (s : string) : M unit := update r (set_state s).

(** [instance.connectToWhatsapp(number)] *)
Definition connectToWhatsapp (r : nat) : M unit :=
  let! i := read r in
  let! e := get_env in
  emit (ConnectToWhatsapp r) >>
  if connect_ok e (name i) then ret tt else throw "Connection Failure".

(** [instance.sendDataWebhook(event, payload)] *)
Definition sendDataWebhook (r : nat) (event : string) (payload : json) : M unit :=
  let! i := read r in
  let! e := get_env in
  emit (SendDataWebhook r event payload) >>
  if webhook_ok e (name i) then ret tt else throw "Webhook delivery failed".

(** [instance.client.ws.close()] *)
Definition ws_close (r : nat) : M unit :=
  emit (WsClose r) >> update r close_socket.

(** [instance.client.ws.terminate()] *)
Definition ws_terminate (r : nat) : M unit :=
  emit (WsTerminate r) >> update r close_socket.

(** [instance.client.end(error)] *)
Definition client_end (r : nat) : M unit := emit (ClientEnd r).

Definition has_ws (i : Instance) : bool :=
  match client i with
  | Some c => match ws c with Some _ => true | None => false end
  | None => false
  end.

Definition set_lastMessageSentTime (t : option Z) (i : Instance) : Instance :=
  {| name := name i; instanceId := instanceId i; integration := integration i;
     token := token i; number := number i; businessId := businessId i;
     phoneNumber := phoneNumber i; wuid := wuid i; profileName := profileName i;
     profilePictureUrl := profilePictureUrl i; state := state i; client := client i;
     lastMessageSentTime := t |}.

(** Modelled from the spec: [instance.textMessage(data)] and the other
    send methods; the call is recorded, and the send that completes
    stamps the time the debounce window is measured from (4.3). *)
Definition sendMessage (r : nat) (operation : string) : M unit :=
  emit (SendMessage r operation) >>
  let! e := get_env in
  update r (set_lastMessageSentTime (Some (date_now e))).

(** Modelled from the spec: the two transport signals of the tracker
    (4.3), socket readiness and the presence of an authenticated
    identity. *)
Definition socket_ready (i : Instance) : bool :=
  match client i with
  | Some c => match ws c with
              | Some s => readyState s =? 1
              | None => false
              end
  | None => false
  end.

Definition authenticated (i : Instance) : bool :=
  match client i with
  | Some c => match user c with
              | Some u => Js.nonempty (user_id u)
              | None => false
              end
  | None => false
  end.

Definition DEBOUNCE_WINDOW : Z := 5000.

(** Modelled from the spec: the confirmatory check of a false negative
    (4.3, 4.4), the liveness probe, an identity lookup bounded by a
    ten-second timer. *)
Definition livenessProbe (r : nat) : M bool :=
  let! i := read r in
  if negb (socket_ready i) then ret false
  else
    emit (SetTimeout "livenessProbe" (name i) 10000) >>
    ret (match client i with
         | Some c => match user c with Some _ => true | None => false end
         | None => false
         end).

(** Modelled from the spec: the correction to [open] of a state that
    is neither [close] nor [connecting] (4.3, first rule): the state is
    set, the persist is asked of the gateway and the connected
    notification is emitted, as the events [instance.state.persist]
    and [instance.connected] that [server.module.ts] wires to
    [persistInstanceState] and [onInstanceConnected]. *)
Definition correctToOpen (r : nat) : M unit :=
  let! i := read r in
  assign_state r "open" >>
  emit (EmitEvent "instance.state.persist" (name i)) >>
  emit (EmitEvent "instance.connected" (name i)).

(** The notice of a repaired false disconnect. *)
Definition correction_notice (instanceName : string) : json :=
  JObj [("instance", JStr instanceName); ("state", JStr "open");
        ("corrected", JBool true)].

(** Modelled from the spec: the repair of a false negative whose
    confirmatory check passed (4.3, third rule; 4.4, step 3; and the
    tracker's property in 8): the state is set to [open], the
    connection status of the durable record is updated and one
    correction notification is emitted; a failure of either write is
    caught on its own. *)
Definition repairFalseNegative (r : nat) : M unit :=
  let! i := read r in
  assign_state r "open" >>
  try_catch
    (match instanceId i with
     | Some id => Prisma.update id (Prisma.status_only "open")
     | None => throw "Argument id is missing"
     end)
    (fun _ => ret tt) >>
  try_catch
    (sendDataWebhook r "CONNECTION_UPDATE" (correction_notice (name i)))
    (fun _ => ret tt).

(** Modelled from the spec: the downgrade to [close] (4.3, second
    rule); the reconnection it triggers is started and not awaited. *)
Definition downgrade (r : nat) : M unit :=
  assign_state r "close" >>
  try_catch (connectToWhatsapp r) (fun _ => ret tt).

(** Modelled from the spec: the verification rule of the Connection
    State Tracker (4.3).  A [connecting] state is left alone.  An
    [open] state over a socket that is not ready is downgraded, unless
    a send completed within the debounce window: then the rule is set
    to run again when the window ends.  Another state over a transport
    that is authenticated and ready is corrected to [open]; a [close]
    state is first put to the confirmatory check and then repaired. *)
Definition verifyConnectionStatusConsistency (r : nat) : M unit :=
  let! i := read r in
  if String.eqb (state i) "connecting" then ret tt
  else if String.eqb (state i) "open" then
    if socket_ready i then ret tt
    else
      let! e := get_env in
      match lastMessageSentTime i with
      | Some sent =>
          if date_now e - sent <? DEBOUNCE_WINDOW
          then emit (SetTimeout "verifyConnectionStatusConsistency" (name i)
                       (DEBOUNCE_WINDOW - (date_now e - sent)))
          else downgrade r
      | None => downgrade r
      end
  else if socket_ready i && authenticated i then
    if String.eqb (state i) "close" then
      let! alive := livenessProbe r in
      if alive then repairFalseNegative r else ret tt
    else correctToOpen r
  else ret tt.

(** [instance.connectionStatus?.state] *)
Definition connectionStatus (r : nat) : M string :=
  verifyConnectionStatusConsistency r >>
  let! i := read r in
  ret (state i).

End Obj.

(** ** The instance cache ([this.cache])

    Modelled from the spec: [CacheService] ([cache.service.ts]) is not
    among the sources.  The one handed to the monitor, the coordinator
    and the health service is built over the engine of module
    ["instance"]; by the storage contract every key is namespaced as
    prefix:module:logicalKey by the engine and callers never build
    physical keys, so each method hands its call on to the engine. *)

Module cache.
Definition module : string := "instance".
Definition get := RedisCache.get module.
Definition set := RedisCache.set module.
Definition hGet := RedisCache.hGet module.
Definition hSet := RedisCache.hSet module.
Definition delete := RedisCache.delete module.
Definition hDelete := RedisCache.hDelete module.
Definition keys := RedisCache.keys module.
Definition cleanupCorruptedKeys := RedisCache.cleanupCorruptedKeys module.
End cache.

(** ** The auth-state provider ([useMultiFileAuthStateRedisDb])

    The accessors of the credential store of one instance: every field
    lives in the hash [auth:<instanceName>] of the cache engine behind
    the cache service handed in; a storage error is logged and answered
    with [null]. *)

Module AuthState.

Section Provider.
Variable module : string.
Variable instanceName : string.

Definition authKey : string := "auth:" +:+ instanceName.

Definition writeData (data : json) (key : string) : M unit :=
  try_catch (RedisCache.hSet module authKey key data) (fun _ => ret tt).

Definition readData (key : string) : M json :=
  try_catch (RedisCache.hGet module authKey key) (fun _ => ret JNull).

Definition removeData (key : string) : M (option Z) :=
  try_catch (RedisCache.hDelete module authKey key) (fun _ => ret None).

(** [saveCreds] *)
Definition saveCreds (creds : json) : M unit :=
  try_catch (writeData creds "creds") (fun _ => ret tt).

End Provider.
End AuthState.

(** ** WAMonitoringService: writes to the registry *)

Module WAMonitoringService.

(** [Object.keys(this.waInstances)] *)
Definition instance_names : M (list string) :=
  fun w => (Ok (map fst (map_to_list (waInstances w))), w).

(** What [this.waInstances[name]] answers on the plain object the
    registry is: the instance stored under the name; for a name with no
    entry that [Object.prototype] defines, the inherited member, which
    is truthy and has none of the properties and methods of an
    instance; [undefined] otherwise. *)
Inductive Entry :=
| Registered (instance : nat)
| Prototype
| Undefined.

Definition entry (registry : gmap string nat) (instanceName : string) : Entry :=
  match registry !! instanceName with
  | Some r => Registered r
  | None => if Js.inherited instanceName then Prototype else Undefined
  end.

(** [this.waInstances[name]] *)
Definition lookup (instanceName : string) : M Entry :=
  fun w => (Ok (entry (waInstances w) instanceName), w).

(** A property key: [undefined] names the property ["undefined"]. *)
Definition key_of (o : option string) : string := default "undefined" o.

(** The object the channel factory builds, after [instance.setInstance]. *)
Definition fresh_instance (d : InstanceDto) : Instance :=
  {| name := key_of (dto_instanceName d); instanceId := dto_instanceId d;
     integration := dto_integration d; token := dto_token d;
     number := dto_number d; businessId := dto_businessId d;
     phoneNumber := None; wuid := None; profileName := None;
     profilePictureUrl := None; state := "close"; client := None;
     lastMessageSentTime := None |}.

(** Modelled from the spec: the channel factory
    ([channelController.init]) is not among the sources; whether it
    yields an instance for a DTO is the environment's [init_ok].
    [channelController.init(instanceData, ...)] followed by
    [instance.setInstance({...})]; [None] is the factory's [null]. *)
Definition init (d : InstanceDto) : M (option nat) :=
  emit (ChannelInit (key_of (dto_instanceName d))) >>
  let! e := get_env in
  if init_ok e d then
    let! w := get_world in
    let r := next_ref w in
    modify (fun w => with_next_ref (S r) (with_heap (<[r := fresh_instance d]> (heap w)) w)) >>
    ret (Some r)
  else ret None.

(** [this.waInstances[name] = instance] defines an own property; the
    name [__proto__], for which JavaScript changes the prototype of the
    registry instead, is stored like any other. *)
Definition setInstance (instanceData : InstanceDto) : M unit :=
  let! instance := init instanceData in
  match instance with
  | None => ret tt
  | Some r =>
      Obj.connectToWhatsapp r >>
      modify (fun w => with_waInstances
                         (<[key_of (dto_instanceName instanceData) := r]> (waInstances w)) w)
  end.

Definition dto_of_base_row (row : DbInstance) : InstanceDto :=
  {| dto_instanceId := Some (row_id row); dto_instanceName := Some (row_name row);
     dto_integration := row_integration row; dto_token := row_token row;
     dto_number := row_number row; dto_businessId := row_businessId row;
     dto_config := JNull |}.

(** Each [setInstance] is started and not awaited: a rejection stays
    with its own promise and the other rows go on. *)
Definition loadInstancesFromDatabasePostgres : M unit :=
  let! e := get_env in
  let! instances := Prisma.findManyOfClient (CLIENT_NAME e) in
  for_each instances (fun instance =>
    try_catch (setInstance (dto_of_base_row instance)) (fun _ => ret tt)).

(** [`test:${instanceName}:${Date.now()}`] *)
Definition test_key (instanceName : string) (now : Z) : string :=
  "test:" +:+ instanceName +:+ ":" +:+ Js.toString now.

(** The probe of the cache behind the instance cache: a write with a
    TTL of five seconds, a read and a delete of a throw-away key. *)
Definition checkCacheAvailability (instanceName : string) : M bool :=
  try_catch
    (let! e := get_env in
     let testKey := test_key instanceName (date_now e) in
     cache.set testKey (JStr "test") (Some 5) >>
     let! result := cache.get testKey in
     cache.delete testKey >>
     ret (match result with JStr s => String.eqb s "test" | _ => false end))
    (fun _ => ret false).

End WAMonitoringService.

(** ** ConnectionHealthService *)

Module ConnectionHealthService.

Definition CONNECTION_TIMEOUT : Z := 120000.

Definition isWebSocketHealthy (client : option Client) : bool :=
  match client with
  | Some c => match ws c with
              | Some s => readyState s =? 1
              | None => false
              end
  | None => false
  end.

Definition hasValidClient (client : option Client) : bool :=
  match client with
  | Some c => match user c with
              | Some u => Js.nonempty (user_id u)
              | None => false
              end
  | None => false
  end.

(** The probe races the identity lookup, settled at once, against a
    ten-second timer. *)
Definition performPingTest (instanceName : string) (client : option Client) : M bool :=
  try_catch
    (if negb (isWebSocketHealthy client) then ret false
     else
       emit (SetTimeout "pingTimeout" instanceName 10000) >>
       match client with
       | Some c => match user c with
                   | Some _ => ret true
                   | None => throw "No user"
                   end
       | None => throw "No user"
       end)
    (fun _ => ret false).

Definition handleConnectionMismatch (instanceName : string) (instance : nat) : M unit :=
  try_catch
    (Obj.assign_state instance "close" >>
     Obj.connectToWhatsapp instance)
    (fun _ => ret tt).

Definition handleConnectionFailure (instanceName : string) (instance : nat) : M unit :=
  try_catch
    (let! i := Obj.read instance in
     when (Obj.has_ws i) (Obj.ws_close instance) >>
     Obj.assign_state instance "close" >>
     Obj.connectToWhatsapp instance)
    (fun _ => ret tt).

Definition connecting_key (instanceName : string) : string :=
  "connecting_time:" +:+ instanceName.

Definition timestamp_of (v : json) : option Z :=
  if Json.truthy v then
    match v with
    | JStr s => Js.parseInt s
    | JNum n => Some n
    | _ => None
    end
  else None.

Definition getConnectingTime (instanceName : string) : M (option Z) :=
  try_catch
    (let! timestamp := cache.get (connecting_key instanceName) in
     ret (timestamp_of timestamp))
    (fun _ => ret None).

Definition setConnectingTime (instanceName : string) : M unit :=
  try_catch
    (let! e := get_env in
     cache.set (connecting_key instanceName) (JStr (Js.toString (date_now e))) (Some 300))
    (fun _ => ret tt).

Definition clearConnectingTime (instanceName : string) : M unit :=
  try_catch
    (cache.delete (connecting_key instanceName) >> ret tt)
    (fun _ => ret tt).

Definition handleConnectionTimeout (instanceName : string) (instance : nat) : M unit :=
  try_catch
    (let! i := Obj.read instance in
     when (Obj.has_ws i) (Obj.ws_close instance) >>
     clearConnectingTime instanceName >>
     Obj.assign_state instance "close" >>
     Obj.connectToWhatsapp instance)
    (fun _ => ret tt).

Definition correction_notice (instanceName : string) : json :=
  JObj [("instance", JStr instanceName); ("state", JStr "open");
        ("corrected", JBool true);
        ("message", JStr "False disconnection corrected by health monitor")].

Definition correctFalseDisconnection (instanceName : string) (instance : nat) : M unit :=
  try_catch
    (let! i := Obj.read instance in
     let! isReallyConnected := performPingTest instanceName (client i) in
     if isReallyConnected then
       Obj.assign_state instance "open" >>
       try_catch
         (match instanceId i with
          | Some id => Prisma.update id (Prisma.status_only "open")
          | None => throw "Argument id is missing"
          end)
         (fun _ => ret tt) >>
       try_catch
         (Obj.sendDataWebhook instance "CONNECTION_UPDATE" (correction_notice instanceName))
         (fun _ => ret tt)
     else handleConnectionFailure instanceName instance)
    (fun _ => ret tt).

(** [instance.connectionStatus] is read once, after the test of the
    integration, and the read runs the verification rule.  The three
    state checks read [connectionStatus.state] and [client] through the
    references taken then, so each sees what the handlers before it
    wrote. *)
Definition checkInstanceHealth (instanceName : string) (instance : nat) : M unit :=
  try_catch
    (let! i := Obj.read instance in
     if negb (bool_decide (integration i = Some WHATSAPP_BAILEYS)) then ret tt
     else
       Obj.verifyConnectionStatusConsistency instance >>
       let! i := Obj.read instance in
       let! finished :=
         (if String.eqb (state i) "open" then
            if negb (isWebSocketHealthy (client i)) then
              handleConnectionMismatch instanceName instance >> ret true
            else
              let! isPingSuccessful := performPingTest instanceName (client i) in
              (if negb isPingSuccessful
               then handleConnectionFailure instanceName instance
               else ret tt) >> ret false
          else ret false) in
       if finished then ret tt
       else
         let! i := Obj.read instance in
         let! finished :=
           (if String.eqb (state i) "close"
               && isWebSocketHealthy (client i) && hasValidClient (client i)
            then correctFalseDisconnection instanceName instance >> ret true
            else ret false) in
         if finished then ret tt
         else
           let! i := Obj.read instance in
           if String.eqb (state i) "connecting" then
             let! connectingTime := getConnectingTime instanceName in
             let! e := get_env in
             match connectingTime with
             | Some t =>
                 if negb (t =? 0) && (CONNECTION_TIMEOUT <? date_now e - t)
                 then handleConnectionTimeout instanceName instance
                 else ret tt
             | None => ret tt
             end
           else ret tt)
    (fun _ => ret tt).

Definition performHealthChecks : M unit :=
  try_catch
    (let! instances := WAMonitoringService.instance_names in
     for_each instances (fun instanceName =>
       let! instance := WAMonitoringService.lookup instanceName in
       match instance with
       | WAMonitoringService.Registered r => checkInstanceHealth instanceName r
       | _ => ret tt
       end))
    (fun _ => ret tt).

Definition onInstanceConnecting (instanceName : string) : M unit :=
  setConnectingTime instanceName.

Definition onInstanceConnected (instanceName : string) : M unit :=
  clearConnectingTime instanceName.

(** [this.healthCheckJob.destroy()] *)
Definition stopHealthMonitoring : M unit :=
  emit StopHealthJob >>
  let! e := get_env in
  if health_job_ok e then ret tt else throw "healthCheckJob.destroy is not a function".

End ConnectionHealthService.

(** ** SessionRestorationService *)

Module SessionRestorationService.

Definition restored_key (instanceName : string) : string :=
  "restored:" +:+ instanceName.

(** A parsed cache record read as an [InstanceDto]. *)
Definition dto_of_json (v : json) : InstanceDto :=
  {| dto_instanceId := Json.str_prop v "instanceId";
     dto_instanceName := Json.str_prop v "instanceName";
     dto_integration := Json.str_prop v "integration";
     dto_token := Json.str_prop v "token";
     dto_number := Json.str_prop v "number";
     dto_businessId := Json.str_prop v "businessId";
     dto_config := v |}.

(** The DTO rebuilt from a row and its included relations. *)
Definition dto_of_row (row : DbInstance) : InstanceDto :=
  {| dto_instanceId := Some (row_id row); dto_instanceName := Some (row_name row);
     dto_integration := row_integration row; dto_token := row_token row;
     dto_number := row_number row; dto_businessId := row_businessId row;
     dto_config := row_config row |}.

Definition restoreInstance (instanceData : InstanceDto) : M unit :=
  try_catch
    (if negb (Js.truthy_str (dto_instanceName instanceData)) then ret tt
     else
       let instanceName := WAMonitoringService.key_of (dto_instanceName instanceData) in
       let! loaded := WAMonitoringService.lookup instanceName in
       match loaded with
       | WAMonitoringService.Undefined =>
           WAMonitoringService.setInstance instanceData >>
           cache.set (restored_key instanceName) (JStr "true") (Some 300)
       | _ => ret tt
       end)
    (fun error => throw error).

Definition findInstanceInDatabase (instanceKey : string) : M (option InstanceDto) :=
  try_catch
    (let! e := get_env in
     let! instance := Prisma.findFirstEligible instanceKey (CLIENT_NAME e) in
     ret (dto_of_row <$> instance))
    (fun _ => ret None).

Definition restoreFromDatabase (clientName : string) : M Z :=
  try_catch
    (let! instances := Prisma.findManyEligible clientName in
     match instances with
     | [] => ret 0
     | _ =>
         for_fold instances 0 (fun restored instance =>
           try_catch
             (restoreInstance (dto_of_row instance) >> ret (restored + 1))
             (fun _ => ret restored))
     end)
    (fun _ => ret 0).

(** The auxiliary keys the cache stage passes over. *)
Definition is_auxiliary (instanceKey : string) : bool :=
  Js.includes "connecting_time" instanceKey
  || Js.includes "restored" instanceKey
  || Js.includes "creds" instanceKey
  || Js.includes "-" instanceKey.

(** [JSON.parse(text)] *)
Definition parse (text : string) : M json :=
  let! e := get_env in
  match JSON_parse e text with
  | Some v => ret v
  | None => throw "SyntaxError: Unexpected token in JSON"
  end.

Definition looks_like_instance (parsedData : json) : bool :=
  Json.truthy parsedData
  && (Json.truthy_prop parsedData "instanceName" || Json.truthy_prop parsedData "instanceId").

(** The [try] block of one turn of the loop over the scanned keys: read
    the record, validate it, restore it.  The result is the running
    [restored] count. *)
Definition restoreKeyFromCache (restored : Z) (instanceKey : string) : M Z :=
  let! instanceData := cache.get instanceKey in
  if Json.truthy instanceData then
    let! parsedData := match instanceData with
                       | JStr text => parse text
                       | _ => ret instanceData
                       end in
    if looks_like_instance parsedData then
      restoreInstance (dto_of_json parsedData) >> ret (restored + 1)
    else ret restored
  else ret restored.

(** Its [catch] block: the single-key lookup in the relational store. *)
Definition restoreKeyFromDatabase (restored : Z) (instanceKey : string) : M Z :=
  let! e := get_env in
  if SAVE_DATA_INSTANCE e then
    let! dbInstance := findInstanceInDatabase instanceKey in
    match dbInstance with
    | Some d => restoreInstance d >> ret (restored + 1)
    | None => ret restored
    end
  else ret restored.

(** One turn of the loop over the scanned keys. *)
Definition restoreFromRedisKey (restored : Z) (fullKey : string) : M Z :=
  try_catch
    (let keyParts := Js.split ":" fullKey in
     if (3 <=? length keyParts)%nat && bool_decide (keyParts !! 1%nat = Some "instance") then
       let instanceKey := Js.join ":" (drop 2 keyParts) in
       if is_auxiliary instanceKey then ret restored
       else
         try_catch
           (restoreKeyFromCache restored instanceKey)
           (fun redisError => restoreKeyFromDatabase restored instanceKey)
     else ret restored)
    (fun _ => ret restored).

Definition restoreFromRedisCache : M Z :=
  try_catch
    (cache.cleanupCorruptedKeys None >>
     let! keys := cache.keys (Some EmptyString) in
     match keys with
     | None => ret 0
     | Some [] => ret 0
     | Some ks => for_fold ks 0 restoreFromRedisKey
     end)
    (fun _ =>
       let! e := get_env in
       if SAVE_DATA_INSTANCE e then restoreFromDatabase (CLIENT_NAME e) else ret 0).

(** The stage is a stub: its one action is the line it logs, which is
    recorded. *)
Definition restoreFromProviderFiles : M Z :=
  try_catch
    (emit (LogInfo "Attempting to restore sessions from provider files") >> ret 0)
    (fun _ => ret 0).

Definition verifyRestoredConnections : M unit :=
  try_catch
    (let! instanceNames := WAMonitoringService.instance_names in
     for_each instanceNames (fun instanceName =>
       let! wasRestored := cache.get (restored_key instanceName) in
       when (Json.truthy wasRestored)
            (emit (SetTimeout "verifyInstanceConnection" instanceName 10000))))
    (fun _ => ret tt).

Definition restoreAllSessions : M unit :=
  try_catch
    (let! e := get_env in
     let clientName := CLIENT_NAME e in
     let! fromCache :=
       (if REDIS_ENABLED e && REDIS_SAVE_INSTANCES e then restoreFromRedisCache else ret 0) in
     let! fromDatabase :=
       (if SAVE_DATA_INSTANCE e then restoreFromDatabase clientName else ret 0) in
     let restoredCount := fromCache + fromDatabase in
     let! fromFiles :=
       (if restoredCount =? 0 then restoreFromProviderFiles else ret 0) in
     verifyRestoredConnections)
    (fun error => throw error).

Definition attemptReconnection (instanceName : string) (instance : nat) : M unit :=
  try_catch
    (let! i := Obj.read instance in
     when (bool_decide (integration i = Some WHATSAPP_BAILEYS))
          (Obj.connectToWhatsapp instance))
    (fun _ => ret tt).

(** The deferred check a restoration schedules for an instance. *)
Definition verifyInstanceConnection (instanceName : string) : M unit :=
  try_catch
    (let! instance := WAMonitoringService.lookup instanceName in
     match instance with
     | WAMonitoringService.Undefined => ret tt
     | WAMonitoringService.Prototype =>
         cache.delete (restored_key instanceName) >> ret tt
     | WAMonitoringService.Registered r =>
         Obj.verifyConnectionStatusConsistency r >>
         let! i := Obj.read r in
         (if String.eqb (state i) "open" then
            if (match client i with Some _ => true | None => false end)
               && Js.truthy_str (instanceId i)
            then ret tt
            else attemptReconnection instanceName r
          else if String.eqb (state i) "connecting" then
            emit (SetTimeout "verifyInstanceConnection" instanceName 30000)
          else attemptReconnection instanceName r) >>
         cache.delete (restored_key instanceName) >> ret tt
     end)
    (fun _ => ret tt).

Definition field (k : string) (o : option string) : list (string * json) :=
  match o with Some s => [(k, JStr s)] | None => [] end.

(** [JSON.stringify(instanceData)], as the document it denotes:
    undefined properties are left out. *)
Definition json_of_data (d : InstanceData) : json :=
  JObj (field "instanceId" (data_instanceId d)
        ++ [("instanceName", JStr (data_instanceName d))]
        ++ field "integration" (data_integration d)
        ++ field "connectionStatus" (data_connectionStatus d)
        ++ field "ownerJid" (data_ownerJid d)
        ++ field "profileName" (data_profileName d)
        ++ field "profilePicUrl" (data_profilePicUrl d)
        ++ field "number" (data_number d)
        ++ field "token" (data_token d)
        ++ field "businessId" (data_businessId d)).

Definition status_update_of (d : InstanceData) : Prisma.StatusUpdate :=
  {| Prisma.upd_connectionStatus :=
       default "open" (Js.or_str (data_connectionStatus d) (Some "open"));
     Prisma.upd_ownerJid := data_ownerJid d;
     Prisma.upd_profileName := data_profileName d;
     Prisma.upd_profilePicUrl := data_profilePicUrl d;
     Prisma.upd_number := data_number d |}.

(** [instanceData.instanceId || instanceName], the logical key of a
    persisted record. *)
Definition cacheKey (instanceName : string) (instanceData : InstanceData) : string :=
  default instanceName (Js.or_str (data_instanceId instanceData) (Some instanceName)).

Definition persistInstanceState (instanceName : string) (instanceData : InstanceData) : M unit :=
  try_catch
    (let! e := get_env in
     when (REDIS_ENABLED e && REDIS_SAVE_INSTANCES e)
          (cache.set (cacheKey instanceName instanceData) (json_of_data instanceData) (Some 0)) >>
     match data_instanceId instanceData with
     | Some id =>
         when (SAVE_DATA_INSTANCE e && Js.nonempty id)
              (Prisma.update id (status_update_of instanceData))
     | None => ret tt
     end)
    (fun _ => ret tt).

Definition removeInstanceState (instanceName : string) (instanceId : option string) : M unit :=
  try_catch
    (let! e := get_env in
     match instanceId with
     | Some id =>
         when (REDIS_ENABLED e && REDIS_SAVE_INSTANCES e && Js.nonempty id)
              (cache.delete id >> ret tt)
     | None => ret tt
     end >>
     cache.delete (restored_key instanceName) >>
     cache.delete (ConnectionHealthService.connecting_key instanceName) >>
     ret tt)
    (fun _ => ret tt).

(** The state [validateSessionHealth] persists for a healthy
    instance. *)
Definition health_data (instanceName : string) (i : Instance) : InstanceData :=
  {| data_instanceId := instanceId i;
     data_instanceName := instanceName;
     data_integration := integration i;
     data_connectionStatus := Some "open";
     data_ownerJid := wuid i;
     data_profileName := profileName i;
     data_profilePicUrl := profilePictureUrl i;
     data_number := number i;
     data_token := token i;
     data_businessId := businessId i |}.

(** The periodic validation: an open instance with its client, its id
    and its [wuid] in place is healthy and has its state persisted; the
    two counters only feed the log. *)
Definition validateSessionHealth : M unit :=
  try_catch
    (let! instances := WAMonitoringService.instance_names in
     for_each instances (fun instanceName =>
       let! instance := WAMonitoringService.lookup instanceName in
       match instance with
       | WAMonitoringService.Registered r =>
           Obj.verifyConnectionStatusConsistency r >>
           let! i := Obj.read r in
           if String.eqb (state i) "open" then
             if (match client i with Some _ => true | None => false end)
                && Js.truthy_str (instanceId i) && Js.truthy_str (wuid i)
             then persistInstanceState instanceName (health_data instanceName i)
             else ret tt
           else ret tt
       | _ => ret tt
       end))
    (fun _ => ret tt).

End SessionRestorationService.

(** ** GracefulShutdownService *)

Module GracefulShutdownService.

(** The state one instance's save step hands to the gateway. *)
Definition snapshot (instanceName : string) (i : Instance) : InstanceData :=
  {| data_instanceId := instanceId i;
     data_instanceName := instanceName;
     data_integration := integration i;
     data_connectionStatus := Some (if Js.nonempty (state i) then state i else "close");
     data_ownerJid := wuid i;
     data_profileName := profileName i;
     data_profilePicUrl := profilePictureUrl i;
     data_number := phoneNumber i;
     data_token := token i;
     data_businessId := businessId i |}.

(** The state handed over for an entry that is no instance: every
    property read of it is [undefined]. *)
Definition blank_snapshot (instanceName : string) : InstanceData :=
  {| data_instanceId := None;
     data_instanceName := instanceName;
     data_integration := None;
     data_connectionStatus := Some "close";
     data_ownerJid := None;
     data_profileName := None;
     data_profilePicUrl := None;
     data_number := None;
     data_token := None;
     data_businessId := None |}.

(** [instances.map(async name => ...)] under [Promise.allSettled]: one
    task per name, each with its own handler. *)
Definition saveAllInstanceStates : M unit :=
  try_catch
    (let! instances := WAMonitoringService.instance_names in
     for_each instances (fun instanceName =>
       try_catch
         (let! instance := WAMonitoringService.lookup instanceName in
          match instance with
          | WAMonitoringService.Undefined => ret tt
          | WAMonitoringService.Prototype =>
              SessionRestorationService.persistInstanceState instanceName
                (blank_snapshot instanceName)
          | WAMonitoringService.Registered r =>
              Obj.verifyConnectionStatusConsistency r >>
              let! i := Obj.read r in
              SessionRestorationService.persistInstanceState instanceName (snapshot instanceName i)
          end)
         (fun _ => ret tt)))
    (fun error => throw error).

(** The close sequence is synchronous, so it settles the race with the
    five-second timer unless it throws. *)
Definition closeBaileysConnection (instanceName : string) (instance : nat) : M unit :=
  try_catch
    (emit (SetTimeout "closeTimeout" instanceName 5000) >>
     let! i := Obj.read instance in
     match client i with
     | Some c =>
         match ws c with
         | Some s =>
             Obj.assign_state instance "close" >>
             when (readyState s =? 1) (Obj.ws_close instance) >>
             when (has_end c) (Obj.client_end instance)
         | None => ret tt
         end
     | None => ret tt
     end)
    (fun _ =>
       let! w := get_world in
       match heap w !! instance with
       | Some i => when (Obj.has_ws i) (Obj.ws_terminate instance)
       | None => ret tt
       end).

Definition closeAllConnections : M unit :=
  try_catch
    (let! instances := WAMonitoringService.instance_names in
     for_each instances (fun instanceName =>
       try_catch
         (let! instance := WAMonitoringService.lookup instanceName in
          match instance with
          | WAMonitoringService.Registered r =>
              let! i := Obj.read r in
              when (bool_decide (integration i = Some WHATSAPP_BAILEYS))
                   (closeBaileysConnection instanceName r)
          | _ => ret tt
          end)
         (fun _ => ret tt)))
    (fun error => throw error).

Definition cleanupResources : M unit :=
  try_catch
    (emit (SetTimeout "settle" EmptyString 1000))
    (fun error => throw error).

Definition performGracefulShutdown : M unit :=
  try_catch
    (ConnectionHealthService.stopHealthMonitoring >>
     saveAllInstanceStates >>
     closeAllConnections >>
     cleanupResources)
    (fun error => throw error).

(** [process.exit(code)] ends the run: the exit code is the result. *)
Definition exit (code : Z) : M Z := emit (ProcessExit code) >> ret code.

(** [None]: a signal that arrives while a drain is in progress.  The
    thirty-second timer is armed and recorded; no modelled step blocks,
    so the drain reaches its own exit before the timer can fire. *)
Definition initiateShutdown : M (option Z) :=
  let! w := get_world in
  if isShuttingDown w then ret None
  else
    modify (with_isShuttingDown true) >>
    emit (SetTimeout "forceExit" EmptyString 30000) >>
    let! code := try_catch (performGracefulShutdown >> exit 0) (fun _ => exit 1) in
    ret (Some code).

Definition shutdown : M (option Z) := initiateShutdown.

End GracefulShutdownService.

(** ** SendMessageController *)

Module SendMessageController.

Inductive Operation :=
| sendTemplate | sendText | sendMedia | sendPtv | sendSticker | sendWhatsAppAudio
| sendButtons | sendLocation | sendList | sendContact | sendReaction | sendPoll
| sendStatus.

(** The instance method an operation ends in. *)
Definition method (op : Operation) : string :=
  match op with
  | sendTemplate => "templateMessage"
  | sendText => "textMessage"
  | sendMedia => "mediaMessage"
  | sendPtv => "ptvMessage"
  | sendSticker => "mediaSticker"
  | sendWhatsAppAudio => "audioWhatsapp"
  | sendButtons => "buttonMessage"
  | sendLocation => "locationMessage"
  | sendList => "listMessage"
  | sendContact => "contactMessage"
  | sendReaction => "reactionMessage"
  | sendPoll => "pollMessage"
  | sendStatus => "statusMessage"
  end.

(** The double-quote character of the messages. *)
Definition quote : string := String (ascii_of_nat 34) EmptyString.

Definition not_found (instanceName : string) : jserror :=
  "Instance " +:+ quote +:+ instanceName +:+ quote
  +:+ " not found. Please ensure the instance is created and connected.".

Definition not_ready (instanceName connectionState : string) : jserror :=
  "Instance " +:+ quote +:+ instanceName +:+ quote
  +:+ " is not ready for message sending. "
  +:+ "Current state: "
  +:+ (if Js.nonempty connectionState then connectionState else "unknown")
  +:+ ". Please wait for the instance to connect.".

Definition missing_components (instanceName : string) : jserror :=
  "Instance " +:+ quote +:+ instanceName +:+ quote
  +:+ " is missing critical components. Please reconnect the instance.".

(** Throws a [BadRequestException] with the given message. *)
Definition validateInstanceReady (instanceName : string) : M unit :=
  let! instance := WAMonitoringService.lookup instanceName in
  match instance with
  | WAMonitoringService.Undefined => throw (not_found instanceName)
  | WAMonitoringService.Prototype => throw (not_ready instanceName EmptyString)
  | WAMonitoringService.Registered r =>
      Obj.verifyConnectionStatusConsistency r >>
      let! i := Obj.read r in
      if negb (String.eqb (state i) "open") then throw (not_ready instanceName (state i))
      else if negb (match client i with Some _ => true | None => false end)
              || negb (Js.truthy_str (instanceId i))
      then throw (missing_components instanceName)
      else ret tt
  end.

(** One send request.  [payload_error] is the outcome of the checks an
    operation makes on its own payload (base64, URL and emoji tests of
    the media, sticker, audio and reaction operations), which come
    after the readiness gate. *)
Definition send (op : Operation) (instanceName : string)
    (payload_error : option jserror) : M unit :=
  validateInstanceReady instanceName >>
  match payload_error with
  | Some e => throw e
  | None =>
      let! instance := WAMonitoringService.lookup instanceName in
      match instance with
      | WAMonitoringService.Registered r => Obj.sendMessage r (method op)
      | _ => throw Obj.DANGLING
      end
  end.

(** The character class of [isEmoji]'s pattern, as code-point ranges. *)
Definition emoji_ranges : list (Z * Z) :=
  [(0x1F300, 0x1F9FF); (0x2600, 0x26FF); (0x2700, 0x27BF); (0x1F000, 0x1F02F);
   (0x1F0A0, 0x1F0FF); (0x1F100, 0x1F64F); (0x1F680, 0x1F6FF)].

Definition in_range (c : Z) (range : Z * Z) : bool :=
  (fst range <=? c) && (c <=? snd range).

(** [isEmoji(str)], on the code points of [str]: the pattern has the [u]
    flag and is anchored at both ends, so it matches a text of exactly
    one code point of the class. *)
Definition isEmoji (str : list Z) : bool :=
  match str with
  | [] => true
  | [c] => existsb (in_range c) emoji_ranges
  | _ => false
  end.

Definition not_an_emoji : jserror := "Reaction must be a single emoji or empty string".

(** The payload check of [sendReaction]. *)
Definition reaction_error (reaction : list Z) : option jserror :=
  if isEmoji reaction then None else Some not_an_emoji.

End SendMessageController.

(** ** The cleanup utility ([scripts/redis-cleanup.js])

    The script is a process of its own with its own connection to the
    same server.  What it prints is returned as a report. *)

Module RedisCleanup.

Definition DEFAULT_PATTERN : string := "evolution_cache:*".

(** [args.includes(flag)] *)
Definition has_flag (flag : string) (args : list string) : bool :=
  existsb (String.eqb flag) args.

(** [args[args.indexOf(flag) + 1]], [None] when the flag is absent or
    last. *)
Fixpoint after_flag (flag : string) (args : list string) : option string :=
  match args with
  | [] => None
  | a :: rest => if String.eqb a flag then head rest else after_flag flag rest
  end.

Definition pattern_of (args : list string) : string :=
  match after_flag "--pattern" args with
  | Some p => if Js.nonempty p then p else DEFAULT_PATTERN
  | None => DEFAULT_PATTERN
  end.

(** The text after the first colon of [s], if it has one. *)
Fixpoint after_colon (s : string) : option string :=
  match s with
  | EmptyString => None
  | String c rest => if Ascii.eqb c ":" then Some rest else after_colon rest
  end.

(** [key.replace(/^evolution_cache:[^:]+:/, '')]: the leading
    [evolution_cache:], a non-empty segment without a colon and the
    colon that ends it are dropped; a key of another form stays whole. *)
Definition logical_key (key : string) : string :=
  if String.prefix "evolution_cache:" key then
    match Js.drop_chars 16 key with
    | String c rest =>
        if Ascii.eqb c ":" then key
        else match after_colon rest with
             | Some logicalKey => logicalKey
             | None => key
             end
    | EmptyString => key
    end
  else key.

Definition shouldBeHash (logicalKey : string) : bool :=
  Js.includes "auth:" logicalKey
  || Js.includes ":" logicalKey
  || Js.includes "-" logicalKey
  || Js.includes "creds" logicalKey
  || Js.includes "session" logicalKey
  || Js.includes "keys" logicalKey.

Definition isCorrupted (logicalKey keyType : string) : bool :=
  let shouldBeString := negb (shouldBeHash logicalKey) in
  (shouldBeHash logicalKey && negb (String.eqb keyType "hash"))
  || (shouldBeString && negb (String.eqb keyType "string")
                     && negb (String.eqb keyType "none")).

(** An entry of [stats.corrupted]. *)
Inductive Finding :=
| Mismatch (key currentType expectedType logicalKey : string)
| Unreadable (key error : string).

Definition finding_key (item : Finding) : string :=
  match item with
  | Mismatch key _ _ _ => key
  | Unreadable key _ => key
  end.

Record Stats := {
  total : Z;
  byType : gmap string Z;
  corrupted : list Finding;
  healthy : list (string * string)
}.

(** What a run reports: the statistics, and the number of keys deleted
    when the run deleted. *)
Record Report := { stats : Stats; cleaned : option Z }.

(** [client.connect()] and [client.quit()] need the server. *)
Definition connect : M unit :=
  fun w => if redis_up (env w) then (Ok tt, w) else (Throw RedisClient.CLOSED, w).

Definition quit : M unit :=
  fun w => if redis_up (env w) then (Ok tt, w) else (Throw RedisClient.CLOSED, w).

Definition analyze_key (stats : Stats) (key : string) : M Stats :=
  try_catch
    (let! keyType := RedisClient.type key in
     let counted := <[keyType := default 0 (byType stats !! keyType) + 1]> (byType stats) in
     let logicalKey := logical_key key in
     let expectedType := if shouldBeHash logicalKey then "hash" else "string" in
     if isCorrupted logicalKey keyType
     then ret {| total := total stats; byType := counted;
                 corrupted := corrupted stats
                              ++ [Mismatch key keyType expectedType logicalKey];
                 healthy := healthy stats |}
     else ret {| total := total stats; byType := counted;
                 corrupted := corrupted stats;
                 healthy := healthy stats ++ [(key, keyType)] |})
    (fun error =>
       ret {| total := total stats; byType := byType stats;
              corrupted := corrupted stats ++ [Unreadable key error];
              healthy := healthy stats |}).

Definition analyze (keys : list string) : M Stats :=
  for_fold keys
    {| total := Z.of_nat (length keys); byType := ∅; corrupted := []; healthy := [] |}
    analyze_key.

Definition delete_finding (cleaned : Z) (item : Finding) : M Z :=
  try_catch
    (RedisClient.del (finding_key item) >> ret (cleaned + 1))
    (fun _ => ret cleaned).

Definition delete_findings (items : list Finding) : M Z :=
  for_fold items 0 delete_finding.

(** [main()] with [process.argv.slice(2)] as [args]; [None] is a run
    that ended before the analysis. *)
Definition main (args : list string) : M (option Report) :=
  let isDryRun := has_flag "--dry-run" args in
  let shouldFix := has_flag "--fix" args in
  let pattern := pattern_of args in
  try_catch
    (let! e := get_env in
     if negb (REDIS_ENABLED e) then emit (ProcessExit 1) >> ret None
     else
       connect >>
       let! keys := RedisClient.scan pattern in
       match keys with
       | [] => quit >> ret None
       | _ =>
           let! stats := analyze keys in
           let! cleaned :=
             match corrupted stats with
             | [] => ret None
             | items =>
                 if shouldFix
                 then if isDryRun then ret None
                      else let! n := delete_findings items in ret (Some n)
                 else ret None
             end in
           quit >> ret (Some {| stats := stats; cleaned := cleaned |})
       end)
    (fun _ => emit (ProcessExit 1) >> ret None).

End RedisCleanup.

(** ** ProxyController: testing a proxy before it is stored *)

Module ProxyController.

Record ProxyDto := {
  enabled : bool;
  host : string;
  port : string;
  protocol : string;
  username : string;
  password : string
}.

(** What the controller reads of an axios error: [error.code],
    [error.message], [error.response?.status] and the [x-brd-error]
    header of the response. *)
Record AxiosError := {
  error_code : option string;
  error_message : string;
  response_status : option Z;
  x_brd_error : option string
}.

(** A rejected request: an axios error, or another error with the text
    [String(error)] gives. *)
Inductive Failure :=
| Axios (e : AxiosError)
| Other (text : string).

Inductive Reply :=
| Data (body : string)
| Rejected (f : Failure).

(** The three requests to the address service: without a proxy, and
    through the proxy with the [http] and the [https] agent. *)
Record Network := {
  direct : Reply;
  through_http : ProxyDto -> Reply;
  through_https : ProxyDto -> Reply
}.

Record TestResult := {
  success : bool;
  code : string;
  reason : string;
  serverIp : string;
  proxyIp : string
}.

Definition initial : TestResult :=
  {| success := false; code := EmptyString; reason := EmptyString;
     serverIp := EmptyString; proxyIp := EmptyString |}.

(** The tail of every reason text. *)
Definition ips (server proxy : string) : string :=
  "(Server IP: " +:+ server +:+ ", Proxy IP: " +:+ proxy +:+ ")".

Section Controller.

(** [String.prototype.trim] and [String.prototype.toLowerCase]. *)
Variable trim : string -> string.
Variable toLowerCase : string -> string.

Variable net : Network.

(** The verdict of the outer [catch]. *)
Definition failure_result (result : TestResult) (error : Failure) : TestResult :=
  let tail := ips (serverIp result) (proxyIp result) in
  match error with
  | Axios e =>
      if bool_decide (error_code e = Some "ECONNREFUSED") then
        {| success := success result; code := "error2";
           reason := "Connection refused (proxy offline or wrong host/port). " +:+ tail;
           serverIp := serverIp result; proxyIp := proxyIp result |}
      else if bool_decide (error_code e = Some "ETIMEDOUT") then
        {| success := success result; code := "error3";
           reason := "Connection timed out (proxy too slow or blocked). " +:+ tail;
           serverIp := serverIp result; proxyIp := proxyIp result |}
      else if bool_decide (response_status e = Some 403) then
        {| success := success result; code := "error7";
           reason := "Access forbidden (proxy blocked or wrong credentials). " +:+ tail;
           serverIp := serverIp result; proxyIp := proxyIp result |}
      else
        {| success := success result; code := "error5";
           reason := "Axios error: " +:+ error_message e +:+ " " +:+ tail;
           serverIp := serverIp result; proxyIp := proxyIp result |}
  | Other text =>
      {| success := success result; code := "error6";
         reason := "Unknown error: " +:+ text +:+ " " +:+ tail;
         serverIp := serverIp result; proxyIp := proxyIp result |}
  end.

(** Steps 4 and 5: the verdict once an address came back through the
    proxy. *)
Definition compare (server proxy : string) : TestResult :=
  if negb (Js.nonempty proxy) then
    {| success := false; code := "error5";
       reason := "Proxy did not return any valid IP. " +:+ ips server "unknown";
       serverIp := server; proxyIp := "unknown" |}
  else if negb (String.eqb server proxy) then
    {| success := true; code := "ok1";
       reason := "Proxy is working. IP changed successfully. " +:+ ips server proxy;
       serverIp := server; proxyIp := proxy |}
  else
    {| success := false; code := "error1";
       reason := "Proxy connected, but IP did not change (transparent proxy?). "
                 +:+ ips server proxy;
       serverIp := server; proxyIp := proxy |}.

Definition with_serverIp (server : string) : TestResult :=
  {| success := false; code := EmptyString; reason := EmptyString;
     serverIp := server; proxyIp := EmptyString |}.

Definition testProxy (proxy : ProxyDto) : TestResult :=
  match direct net with
  | Rejected error => failure_result initial error
  | Data body =>
      let server := trim body in
      match through_http net proxy with
      | Data viaHttp => compare server (trim viaHttp)
      | Rejected _ =>
          match through_https net proxy with
          | Data viaHttps => compare server (trim viaHttps)
          | Rejected (Axios e) =>
              if Js.includes "self signed" (toLowerCase (error_message e)) then
                {| success := true; code := "error8";
                   reason := "SSL certificate issue (self-signed or untrusted). "
                             +:+ "Proxy accepted. " +:+ ips server "unknown";
                   serverIp := server; proxyIp := EmptyString |}
              else if bool_decide (response_status e = Some 502)
                      && match x_brd_error e with
                         | Some header => Js.includes "no_peer" header
                         | None => false
                         end then
                {| success := true; code := "ok2";
                   reason := "Proxy connected but no peers available for this city. "
                             +:+ ips server "unknown";
                   serverIp := server; proxyIp := EmptyString |}
              else failure_result (with_serverIp server) (Axios e)
          | Rejected error => failure_result (with_serverIp server) error
          end
      end
  end.

(** The proxy as [createProxy] stores it: with [enabled] off the
    address and the credentials are blanked. *)
Definition stored (data : ProxyDto) : ProxyDto :=
  if enabled data then data
  else {| enabled := enabled data; host := EmptyString; port := EmptyString;
          protocol := EmptyString; username := EmptyString; password := EmptyString |}.

Definition not_exist (instanceName : string) : jserror :=
  "The " +:+ SendMessageController.quote +:+ instanceName +:+ SendMessageController.quote
  +:+ " instance does not exist".

Definition rejected (testResult : TestResult) : jserror :=
  "[" +:+ code testResult +:+ "] " +:+ reason testResult +:+ " "
  +:+ ips (serverIp testResult) (proxyIp testResult).

(** [proxyService.create(instance, data)], which is outside the
    sources. *)
Variable create : string -> ProxyDto -> M json.

Definition createProxy (instanceName : string) (data : ProxyDto) : M (json * TestResult) :=
  let! instance := WAMonitoringService.lookup instanceName in
  match instance with
  | WAMonitoringService.Undefined => throw (not_exist instanceName)
  | _ =>
      let data := stored data in
      let! testResult :=
        if Js.nonempty (host data) then
          let testResult := testProxy data in
          if negb (success testResult)
             && negb (String.eqb (code testResult) "error8")
             && negb (String.eqb (code testResult) "ok2")
          then throw (rejected testResult)
          else ret testResult
        else ret initial in
      let! saved := create instanceName data in
      ret (saved, testResult)
  end.

End Controller.

End ProxyController.

(** ** ConfigValidationService *)

Module ConfigValidationService.

(** [DEL_INSTANCE]: a boolean or a number of minutes. *)
Inductive DelInstance :=
| DelBoolean (b : bool)
| DelNumber (minutes : Z).

(** The settings the validation reads: those of [Env], the two
    connection addresses and [DEL_INSTANCE]. *)
Record Config := {
  settings : Env;
  DATABASE_CONNECTION_URI : string;
  CACHE_REDIS_URI : string;
  DEL_INSTANCE : DelInstance
}.

Section Validation.

Variable config : Config.

Definition save_instance_disabled : string :=
  "DATABASE_SAVE_DATA_INSTANCE is disabled - instances will not persist after restart".
Definition database_uri_unset : string :=
  "DATABASE_CONNECTION_URI is not set - database operations will fail".
Definition client_name_default : string :=
  "DATABASE_CONNECTION_CLIENT_NAME is using default value - may cause conflicts in multi-tenant environments".
Definition redis_uri_unset : string :=
  "CACHE_REDIS_ENABLED is true but CACHE_REDIS_URI is not set".
Definition save_instances_disabled : string :=
  "CACHE_REDIS_SAVE_INSTANCES is disabled - Redis will not be used for instance persistence".
Definition prefix_key_default : string :=
  "CACHE_REDIS_PREFIX_KEY is using default value - may cause conflicts in shared Redis environments".
Definition redis_disabled : string :=
  "Redis cache is disabled - connection state persistence will rely solely on database".
Definition too_aggressive (minutes : Z) : string :=
  "DEL_INSTANCE is set to " +:+ Js.toString minutes
  +:+ " minutes - this may be too aggressive for connection recovery".
Definition client_name_unset : string :=
  "DATABASE_CONNECTION_CLIENT_NAME is not set - instance filtering may not work correctly".
Definition client_name_short : string :=
  "DATABASE_CONNECTION_CLIENT_NAME is too short - may cause identification issues".

(** [if (cond) issues.push(issue)] *)
Definition push_if (cond : bool) (issue : string) (issues : list string) : list string :=
  if cond then issues ++ [issue] else issues.

Definition validateDatabaseConfig (issues : list string) : list string :=
  let db := settings config in
  let issues := push_if (negb (SAVE_DATA_INSTANCE db)) save_instance_disabled issues in
  let issues :=
    push_if (negb (Js.nonempty (DATABASE_CONNECTION_URI config))) database_uri_unset issues in
  push_if (negb (Js.nonempty (CLIENT_NAME db)) || String.eqb (CLIENT_NAME db) "evolution")
    client_name_default issues.

Definition validateCacheConfig (issues : list string) : list string :=
  let cache := settings config in
  if REDIS_ENABLED cache then
    let issues := push_if (negb (Js.nonempty (CACHE_REDIS_URI config))) redis_uri_unset issues in
    let issues := push_if (negb (REDIS_SAVE_INSTANCES cache)) save_instances_disabled issues in
    push_if (negb (Js.nonempty (REDIS_PREFIX_KEY cache))
             || String.eqb (REDIS_PREFIX_KEY cache) "evolution-cache")
      prefix_key_default issues
  else issues ++ [redis_disabled].

Definition validateDelInstanceConfig (issues : list string) : list string :=
  match DEL_INSTANCE config with
  | DelBoolean _ => issues
  | DelNumber delInstance => push_if (delInstance <? 5) (too_aggressive delInstance) issues
  end.

Definition validateClientNameConfig (issues : list string) : list string :=
  let clientName := CLIENT_NAME (settings config) in
  if negb (Js.nonempty clientName) then issues ++ [client_name_unset]
  else push_if (Js.length clientName <? 3)%nat client_name_short issues.

(** [validateConnectionConfig()]; the issues it logs are returned. *)
Definition validateConnectionConfig : list string :=
  validateClientNameConfig
    (validateDelInstanceConfig (validateCacheConfig (validateDatabaseConfig []))).

(** [isOptimalConfig()]: the value of the chain of [&&], which is the
    first falsy operand or the last one. *)
Definition isOptimalConfig : json :=
  let db := settings config in
  if negb (SAVE_DATA_INSTANCE db) then JBool false
  else if negb (REDIS_ENABLED db) then JBool false
  else if negb (REDIS_SAVE_INSTANCES db) then JBool false
  else if negb (Js.nonempty (CLIENT_NAME db)) then JStr (CLIENT_NAME db)
  else JBool (negb (String.eqb (CLIENT_NAME db) "evolution")).

End Validation.

End ConfigValidationService.

(** ** Sample worlds *)

Module Sample.

Definition env0 : Env :=
  {| REDIS_ENABLED := true; REDIS_SAVE_INSTANCES := true; REDIS_TTL := 604800;
     REDIS_PREFIX_KEY := "evolution_cache";
     SAVE_DATA_INSTANCE := true; CLIENT_NAME := "evolution_production";
     redis_up := true; db_up := true;
     init_ok := fun _ => true; connect_ok := fun _ => true; webhook_ok := fun _ => true;
     health_job_ok := true; date_now := 1700000000000;
     JSON_parse := fun _ => None |}.

(** The same deployment with the Redis server unreachable. *)
Definition env_redis_down : Env :=
  {| REDIS_ENABLED := true; REDIS_SAVE_INSTANCES := true; REDIS_TTL := 604800;
     REDIS_PREFIX_KEY := "evolution_cache";
     SAVE_DATA_INSTANCE := true; CLIENT_NAME := "evolution_production";
     redis_up := false; db_up := true;
     init_ok := fun _ => true; connect_ok := fun _ => true; webhook_ok := fun _ => true;
     health_job_ok := true; date_now := 1700000000000;
     JSON_parse := fun _ => None |}.

(** The deployment as it runs: the task the scheduler hands out has
    no [destroy] method. *)
Definition env_job_without_destroy : Env :=
  {| REDIS_ENABLED := true; REDIS_SAVE_INSTANCES := true; REDIS_TTL := 604800;
     REDIS_PREFIX_KEY := "evolution_cache";
     SAVE_DATA_INSTANCE := true; CLIENT_NAME := "evolution_production";
     redis_up := true; db_up := true;
     init_ok := fun _ => true; connect_ok := fun _ => true; webhook_ok := fun _ => true;
     health_job_ok := false; date_now := 1700000000000;
     JSON_parse := fun _ => None |}.

Definition empty_world (e : Env) : World :=
  {| env := e; waInstances := ∅; heap := ∅; next_ref := 0%nat; redis := ∅; db := [];
     isShuttingDown := false; trace := [] |}.

Definition row (id nm status : string) : DbInstance :=
  {| row_id := id; row_name := nm; row_clientName := "evolution_production";
     row_integration := Some WHATSAPP_BAILEYS; row_token := None; row_number := None;
     row_businessId := None; row_connectionStatus := status; row_ownerJid := None;
     row_profileName := None; row_profilePicUrl := None; row_config := JNull |}.

Definition baileys (nm id st : string) (c : option Client) : Instance :=
  {| name := nm; instanceId := Some id; integration := Some WHATSAPP_BAILEYS;
     token := None; number := None; businessId := None; phoneNumber := None;
     wuid := None; profileName := None; profilePictureUrl := None;
     state := st; client := c; lastMessageSentTime := None |}.

Definition ready_client : Client :=
  {| ws := Some {| readyState := 1 |};
     user := Some {| user_id := "554491412547@s.whatsapp.net" |};
     has_end := true |}.

(** A world with one registered instance. *)
Definition one_instance (e : Env) (i : Instance) (rows : list DbInstance) : World :=
  {| env := e; waInstances := {[ name i := 0%nat ]}; heap := {[ 0%nat := i ]};
     next_ref := 1%nat; redis := ∅; db := rows; isShuttingDown := false; trace := [] |}.

End Sample.

(** ** Vocabulary of the properties *)

(** [Sat R m]: every run of [m] takes a world to an [R]-related one. *)
Definition Sat {A} (R : World -> World -> Prop) (m : M A) : Prop :=
  forall w, R w (snd (m w)).

(** [Total m]: [m] never throws. *)
Definition Total {A} (m : M A) : Prop := forall w, exists a, fst (m w) = Ok a.

(** The registry is as before. *)
Definition same_registry (w w' : World) : Prop := waInstances w' = waInstances w.

(** Every entry of the registry is still there. *)
Definition registry_kept (w w' : World) : Prop :=
  forall n r, waInstances w !! n = Some r -> waInstances w' !! n = Some r.

(** Environment and relational store are as before. *)
Definition same_stores (w w' : World) : Prop := env w' = env w /\ db w' = db w.

(** The trace has only grown. *)
Definition trace_grows (w w' : World) : Prop := exists t, trace w' = (trace w ++ t)%list.

(** A row the database stage can register: it has a name, the name is
    not in the registry, and the channel factory and the connect call
    succeed for it. *)
Definition registrable (w : World) (row : DbInstance) : Prop :=
  Js.nonempty (row_name row) = true
  /\ WAMonitoringService.entry (waInstances w) (row_name row) = WAMonitoringService.Undefined
  /\ init_ok (env w) (SessionRestorationService.dto_of_row row) = true
  /\ connect_ok (env w) (row_name row) = true.

(** The rows the database stage asks for. *)
Definition eligible_rows (w : World) : list DbInstance :=
  List.filter (fun r => String.eqb (row_clientName r) (CLIENT_NAME (env w)) && Prisma.eligible r)
              (db w).

(** The gating of the database stage as the specification words it: in
    a startup run the store is queried only if the cache stage is
    disabled or restored nothing. *)
Definition database_stage_gated : Prop :=
  forall w,
    trace w = [] ->
    In (DbFindMany (CLIENT_NAME (env w)))
       (trace (snd (SessionRestorationService.restoreAllSessions w))) ->
    REDIS_ENABLED (env w) && REDIS_SAVE_INSTANCES (env w) = false
    \/ fst (SessionRestorationService.restoreFromRedisCache w) = Ok 0.

(** A world whose cache holds one usable record and whose store is
    enabled. *)
Definition Sample_cached : World :=
  with_redis
    {[ "evolution_cache:instance:abc123" :=
         {| rval := RString (JObj [("instanceId", JStr "abc123");
                                   ("instanceName", JStr "alpha")]);
            rttl := None |} ]}
    (with_db [Sample.row "abc123" "alpha" "open"] (Sample.empty_world Sample.env0)).


(** A text with none of the characters a MATCH pattern gives a meaning
    to, so that the server reads it letter by letter. *)
Definition glob_literal (s : string) : bool :=
  negb (Js.includes "*" s) && negb (Js.includes "?" s)
  && negb (Js.includes "[" s) && negb (Js.includes "\" s).

(** What the sweep of the engine of [module] decides for the physical
    key [k] holding [e]: deleted when it lies under the engine's
    namespace and its type disagrees with the classifier. *)
Definition swept (e : Env) (module : string) (k : string) (x : rentry) : bool :=
  String.prefix (RedisCache.physical_key e module EmptyString) k
  && RedisCache.isCorrupted
       (Js.remove_first (RedisCache.physical_key e module EmptyString) k)
       (RedisClient.type_name (rval x)).

(** The configuration and the collaborators' behaviour are as before. *)
Definition same_env (w w' : World) : Prop := env w' = env w.

(** The registry and the instance objects are as before. *)
Definition same_objects (w w' : World) : Prop :=
  waInstances w' = waInstances w /\ heap w' = heap w.


(** An instance whose connection is down: its socket, if any, is not
    ready, and with a socket in place its declared state is [close]. *)
Definition quiet (j : Instance) : Prop :=
  ConnectionHealthService.isWebSocketHealthy (client j) = false
  /\ (Obj.has_ws j = true -> state j = "close").

(** The configuration and the two stores are as before. *)
Definition same_persistent (w w' : World) : Prop :=
  env w' = env w /\ redis w' = redis w /\ db w' = db w.

(** The state a read of [connectionStatus] answers for an instance
    object when the clock shows [now]. *)
Definition state_as_read (now : Z) (i : Instance) : string :=
  if String.eqb (state i) "connecting" then state i
  else if String.eqb (state i) "open" then
    if Obj.socket_ready i then state i
    else match lastMessageSentTime i with
         | Some sent => if now - sent <? Obj.DEBOUNCE_WINDOW then state i else "close"
         | None => "close"
         end
  else if Obj.socket_ready i && Obj.authenticated i then "open"
  else state i.

(** An instance the verification rule has nothing to do for: it is
    connecting, or open over a ready socket, or in another state over a
    transport that is not both authenticated and ready. *)
Definition settled (i : Instance) : bool :=
  String.eqb (state i) "connecting"
  || (if String.eqb (state i) "open" then Obj.socket_ready i
      else negb (Obj.socket_ready i && Obj.authenticated i)).

(** The durable table once the connection status of the row [id] has
    been written, as far as the store answers. *)
Definition db_after_update (id : option string) (status : string) (w : World)
  : list DbInstance :=
  match id with
  | Some id =>
      if db_up (env w)
      then map (fun row => if String.eqb (row_id row) id
                           then Prisma.apply_update (Prisma.status_only status) row
                           else row) (db w)
      else db w
  | None => db w
  end.

(** What the repair of a false negative hands to the store and to the
    webhook of the instance [r]. *)
Definition repair_events (r : nat) (i : Instance) : list Event :=
  match instanceId i with
  | Some id => [DbUpdate id "open"]
  | None => []
  end ++ [SendDataWebhook r "CONNECTION_UPDATE" (Obj.correction_notice (name i))].





(** The object behind the reference [q] is as before. *)
Definition object_kept (q : nat) (w w' : World) : Prop := heap w' !! q = heap w !! q.


(** The pattern the sweep of the instance cache scans for. *)
Definition cache_pattern (w : World) : string :=
  RedisCache.physical_key (env w) cache.module EmptyString +:+ "*".

(** The timer the read of an open instance over a socket that is not
    ready arms when a send completed within the debounce window. *)
Definition debounce_events (now : Z) (i : Instance) : list Event :=
  match lastMessageSentTime i with
  | Some sent =>
      if now - sent <? Obj.DEBOUNCE_WINDOW
      then [SetTimeout "verifyConnectionStatusConsistency" (name i)
              (Obj.DEBOUNCE_WINDOW - (now - sent))]
      else []
  | None => []
  end.

(** What a read of [connectionStatus] hands to the instance, the
    store, the timers and the event emitter. *)
Definition read_events (now : Z) (r : nat) (i : Instance) : list Event :=
  if String.eqb (state i) "connecting" then []
  else if String.eqb (state i) "open" then
    if Obj.socket_ready i then []
    else match debounce_events now i with
         | [] => [ConnectToWhatsapp r]
         | timer => timer
         end
  else if Obj.socket_ready i && Obj.authenticated i then
    if String.eqb (state i) "close"
    then SetTimeout "livenessProbe" (name i) 10000 :: repair_events r i
    else [EmitEvent "instance.state.persist" (name i);
          EmitEvent "instance.connected" (name i)]
  else [].

(** The world a read of [connectionStatus] of the instance [i] behind
    [r] leaves. *)
Definition after_read (r : nat) (i : Instance) (w : World) : World :=
  with_db (if String.eqb (state i) "close" && Obj.socket_ready i && Obj.authenticated i
           then db_after_update (instanceId i) "open" w
           else db w)
    (with_trace (trace w ++ read_events (date_now (env w)) r i)
       (with_heap (<[r := Obj.set_state (state_as_read (date_now (env w)) i) i]> (heap w)) w)).

(** Every registered instance is one the verification rule has
    nothing to do for. *)
Definition all_settled (w : World) : Prop :=
  forall n r i, waInstances w !! n = Some r -> heap w !! r = Some i -> settled i = true.

(** The first write the gateway issues when it persists the record
    [d] under the name [n]: the write to the cache tier when that tier
    is enabled for session storage, the update of the row otherwise. *)
Definition first_write (e : Env) (n : string) (d : InstanceData) : option Event :=
  if REDIS_ENABLED e && REDIS_SAVE_INSTANCES e
  then Some (Redis (SET (RedisCache.physical_key e cache.module
                           (SessionRestorationService.cacheKey n d))
                        (SessionRestorationService.json_of_data d)))
  else match data_instanceId d with
       | Some id =>
           if SAVE_DATA_INSTANCE e && Js.nonempty id
           then Some (DbUpdate id (Prisma.upd_connectionStatus
                                     (SessionRestorationService.status_update_of d)))
           else None
       | None => None
       end.

(** Every instance object is still there, of the integration it was. *)
Definition kinds_kept (w w' : World) : Prop :=
  forall r i, heap w !! r = Some i ->
              exists i', heap w' !! r = Some i' /\ integration i' = integration i.

(** One task of [saveAllInstanceStates]. *)
Definition save_task (instanceName : string) : M unit :=
  try_catch
    (let! instance := WAMonitoringService.lookup instanceName in
     match instance with
     | WAMonitoringService.Undefined => ret tt
     | WAMonitoringService.Prototype =>
         SessionRestorationService.persistInstanceState instanceName
           (GracefulShutdownService.blank_snapshot instanceName)
     | WAMonitoringService.Registered r =>
         Obj.verifyConnectionStatusConsistency r >>
         let! i := Obj.read r in
         SessionRestorationService.persistInstanceState instanceName
           (GracefulShutdownService.snapshot instanceName i)
     end)
    (fun _ => ret tt).

(** The world a drain starts its steps in: the flag is up, the
    deadline is armed and the health job has been told to stop. *)
Definition draining (w : World) : World :=
  with_trace (trace w ++ [SetTimeout "forceExit" EmptyString 30000; StopHealthJob])
    (with_isShuttingDown true w).

(** The registry, the instance objects and the next reference are as
    before. *)
Definition same_process (w w' : World) : Prop :=
  waInstances w' = waInstances w /\ heap w' = heap w /\ next_ref w' = next_ref w.

(** No instance object has come or gone, and each is as before but
    for its declared state. *)
Definition states_only (w w' : World) : Prop :=
  forall r, match heap w !! r with
            | Some i => exists s, heap w' !! r = Some (Obj.set_state s i)
            | None => heap w' !! r = None
            end.

(** A text of decimal digits only. *)
Fixpoint numeral (s : string) : bool :=
  match s with
  | EmptyString => true
  | String c rest => match Js.digit_of c with Some _ => numeral rest | None => false end
  end.

(** * Properties *)

(** ** Running computations *)

Lemma bind_ok {A B} (m : M A) (k : A -> M B) w a w' :
  m w = (Ok a, w') -> bind m k w = k a w'.
Proof. intros H. unfold bind. now rewrite H. Qed.

Lemma bind_throw {A B} (m : M A) (k : A -> M B) w e w' :
  m w = (Throw e, w') -> bind m k w = (Throw e, w').
Proof. intros H. unfold bind. now rewrite H. Qed.

Lemma read_ok r i w : heap w !! r = Some i -> Obj.read r w = (Ok i, w).
Proof. intros H. unfold Obj.read. now rewrite H. Qed.

Lemma lookup_ok n r w :
  waInstances w !! n = Some r ->
  WAMonitoringService.lookup n w = (Ok (WAMonitoringService.Registered r), w).
Proof. intros H. unfold WAMonitoringService.lookup, WAMonitoringService.entry. now rewrite H. Qed.

Lemma entry_undefined (registry : gmap string nat) (n : string) :
  WAMonitoringService.entry registry n = WAMonitoringService.Undefined ->
  registry !! n = None /\ Js.inherited n = false.
Proof.
  unfold WAMonitoringService.entry. destruct (registry !! n); [discriminate|].
  destruct (Js.inherited n); [discriminate | now split].
Qed.

Lemma entry_fresh (registry : gmap string nat) (n : string) :
  registry !! n = None -> Js.inherited n = false ->
  WAMonitoringService.entry registry n = WAMonitoringService.Undefined.
Proof. intros H1 H2. unfold WAMonitoringService.entry. now rewrite H1, H2. Qed.

(** ** Text *)

Lemma prefix_refl_app (a b : string) : String.prefix a (a +:+ b) = true.
Proof.
  induction a as [|c a IH]; simpl.
  - now destruct b.
  - destruct (Ascii.ascii_dec c c); [exact IH | congruence].
Qed.

Lemma includes_here (x b : string) : Js.includes x (x +:+ b) = true.
Proof.
  destruct x as [|c x]; [now destruct b|].
  change ((String c x) +:+ b) with (String c (x +:+ b)).
  unfold Js.includes; fold Js.includes.
  change (String c (x +:+ b)) with ((String c x) +:+ b).
  now rewrite prefix_refl_app.
Qed.

Lemma includes_app_r (x a b : string) :
  Js.includes x b = true -> Js.includes x (a +:+ b) = true.
Proof.
  intros H. induction a as [|c a IH]; [exact H|].
  change ((String c a) +:+ b) with (String c (a +:+ b)).
  unfold Js.includes; fold Js.includes.
  destruct (String.prefix x (String c (a +:+ b))); [reflexivity | exact IH].
Qed.

Lemma includes_middle (x a b : string) : Js.includes x (a +:+ x +:+ b) = true.
Proof. apply includes_app_r, includes_here. Qed.

(** ** The state read *)

Lemma set_state_same (i : Instance) : Obj.set_state (state i) i = i.
Proof. now destruct i. Qed.

Lemma update_present (r : nat) (f : Instance -> Instance) (i : Instance) (w : World) :
  heap w !! r = Some i ->
  Obj.update r f w = (Ok tt, with_heap (<[r := f i]> (heap w)) w).
Proof.
  intros H. unfold Obj.update, modify. do 2 f_equal.
  apply map_eq. intros q. destruct (decide (q = r)) as [->|Hne].
  - now rewrite lookup_alter_eq, lookup_insert_eq, H.
  - now rewrite lookup_alter_ne, lookup_insert_ne by congruence.
Qed.

(** The rule leaves a settled instance and its world alone. *)
Lemma verify_settled (r : nat) (i : Instance) (w : World) :
  heap w !! r = Some i ->
  settled i = true ->
  Obj.verifyConnectionStatusConsistency r w = (Ok tt, w).
Proof.
  intros Hobj Hs. unfold Obj.verifyConnectionStatusConsistency.
  rewrite (bind_ok _ _ w i w (read_ok r i w Hobj)).
  unfold settled in Hs.
  destruct (String.eqb (state i) "connecting"); [reflexivity|].
  destruct (String.eqb (state i) "open"); cbn [orb] in Hs.
  - now rewrite Hs.
  - apply negb_true_iff in Hs. now rewrite Hs.
Qed.

Lemma settled_state (now : Z) (i : Instance) :
  settled i = true -> state_as_read now i = state i.
Proof.
  unfold settled, state_as_read.
  destruct (String.eqb (state i) "connecting"); [reflexivity|].
  destruct (String.eqb (state i) "open"); cbn [orb]; intros Hs.
  - now rewrite Hs.
  - apply negb_true_iff in Hs. now rewrite Hs.
Qed.

(** An open instance whose socket is not ready, outside the debounce
    window: the rule sets the state to [close] and starts one
    reconnection. *)
Lemma verify_downgrades (r : nat) (i : Instance) (w : World) :
  heap w !! r = Some i ->
  state i = "open" ->
  Obj.socket_ready i = false ->
  state_as_read (date_now (env w)) i = "close" ->
  Obj.verifyConnectionStatusConsistency r w
  = (Ok tt, with_trace (trace w ++ [ConnectToWhatsapp r])
              (with_heap (<[r := Obj.set_state "close" i]> (heap w)) w)).
Proof.
  intros Hobj Hopen Hready Hread.
  unfold Obj.verifyConnectionStatusConsistency.
  rewrite (bind_ok _ _ w i w (read_ok r i w Hobj)).
  unfold state_as_read in Hread. rewrite Hopen in *. cbn [String.eqb Ascii.eqb Bool.eqb] in *.
  rewrite Hready in *.
  assert (Hdown : Obj.downgrade r w
                  = (Ok tt, with_trace (trace w ++ [ConnectToWhatsapp r])
                              (with_heap (<[r := Obj.set_state "close" i]> (heap w)) w))).
  { unfold Obj.downgrade, Obj.assign_state.
    rewrite (bind_ok _ _ w tt _ (update_present r _ i w Hobj)).
    unfold try_catch, Obj.connectToWhatsapp, Obj.read, bind, get_env, emit, modify, ret, throw.
    cbn. rewrite lookup_insert_eq. cbn. now destruct (connect_ok (env w) (name i)). }
  unfold bind at 1, get_env.
  destruct (lastMessageSentTime i) as [sent|]; [|exact Hdown].
  destruct (date_now (env w) - sent <? Obj.DEBOUNCE_WINDOW); [discriminate|exact Hdown].
Qed.

(** An open instance whose socket is not ready, inside the debounce
    window: the rule arms its own re-run and leaves the state. *)
Lemma verify_debounced (r : nat) (i : Instance) (w : World) (sent : Z) :
  heap w !! r = Some i ->
  state i = "open" ->
  Obj.socket_ready i = false ->
  lastMessageSentTime i = Some sent ->
  date_now (env w) - sent < Obj.DEBOUNCE_WINDOW ->
  Obj.verifyConnectionStatusConsistency r w
  = (Ok tt, with_trace (trace w ++ [SetTimeout "verifyConnectionStatusConsistency" (name i)
                                      (Obj.DEBOUNCE_WINDOW - (date_now (env w) - sent))]) w).
Proof.
  intros Hobj Hopen Hready Hsent Hwin.
  unfold Obj.verifyConnectionStatusConsistency.
  rewrite (bind_ok _ _ w i w (read_ok r i w Hobj)).
  rewrite Hopen. cbn [String.eqb Ascii.eqb Bool.eqb].
  rewrite Hready, Hsent. unfold bind at 1, get_env.
  apply Z.ltb_lt in Hwin. now rewrite Hwin.
Qed.

Lemma map_no_match {A} (p : A -> bool) (g : A -> A) (l : list A) :
  existsb p l = false -> map (fun x => if p x then g x else x) l = l.
Proof.
  induction l as [|x l IH]; cbn; [reflexivity|].
  destruct (p x); cbn; [discriminate|]. intros H. now rewrite IH.
Qed.

(** The update of the connection status of a row, with its failure
    caught. *)
Lemma caught_update_run (id : option string) (status : string) (w : World) :
  try_catch
    (match id with
     | Some id => Prisma.update id (Prisma.status_only status)
     | None => throw "Argument id is missing"
     end)
    (fun _ => ret tt) w
  = (Ok tt, with_db (db_after_update id status w)
              (with_trace (trace w ++ match id with
                                      | Some id => [DbUpdate id status]
                                      | None => []
                                      end) w)).
Proof.
  destruct w as [e reg h nr rd d sh t].
  destruct id as [id|]; unfold try_catch, throw, ret, db_after_update; cbn.
  - unfold Prisma.update, Prisma.query, bind, emit, modify. cbn.
    destruct (db_up e) eqn:Hup; cbn; [|reflexivity].
    destruct (existsb _ d) eqn:Hex; cbn; [reflexivity|].
    now rewrite (map_no_match (fun row => String.eqb (row_id row) id) _ d Hex).
  - now rewrite app_nil_r.
Qed.

(** An instance declared [close] over a transport that is ready and
    authenticated: the rule runs the confirmatory check and repairs the
    false negative. *)
Lemma verify_repairs (r : nat) (i : Instance) (w : World) :
  heap w !! r = Some i ->
  state i = "close" ->
  Obj.socket_ready i = true ->
  Obj.authenticated i = true ->
  Obj.verifyConnectionStatusConsistency r w
  = (Ok tt,
     with_db (db_after_update (instanceId i) "open" w)
       (with_trace (trace w ++ SetTimeout "livenessProbe" (name i) 10000 :: repair_events r i)
          (with_heap (<[r := Obj.set_state "open" i]> (heap w)) w))).
Proof.
  intros Hobj Hclose Hready Hauth.
  assert (Huser : match client i with
                  | Some c => match user c with Some _ => true | None => false end
                  | None => false
                  end = true).
  { unfold Obj.authenticated in Hauth. destruct (client i) as [c|]; [|discriminate].
    now destruct (user c). }
  unfold Obj.verifyConnectionStatusConsistency.
  rewrite (bind_ok _ _ w i w (read_ok r i w Hobj)).
  rewrite Hclose. cbn [String.eqb Ascii.eqb Bool.eqb].
  rewrite Hready, Hauth. cbn [andb].
  unfold Obj.livenessProbe.
  unfold bind at 1. unfold bind at 1. rewrite (read_ok r i w Hobj), Hready. cbn [negb].
  unfold bind at 1, emit, modify, ret. rewrite Huser.
  unfold Obj.repairFalseNegative, Obj.assign_state.
  erewrite bind_ok by (apply read_ok; exact Hobj).
  erewrite bind_ok by (apply update_present; exact Hobj).
  erewrite bind_ok by apply caught_update_run.
  unfold try_catch, Obj.sendDataWebhook, Obj.read, bind, get_env, emit, modify, ret, throw.
  cbn. rewrite lookup_insert_eq. cbn.
  unfold repair_events, db_after_update. cbn.
  destruct w as [e reg h nr rd d sh t]. cbn.
  destruct (webhook_ok e (name i)); cbn; rewrite <- !app_assoc; reflexivity.
Qed.

(** An instance in a state other than the three of the tracker, over
    a transport that is ready and authenticated: the rule corrects the
    state to [open] and hands the persist and the connected
    notification to the event emitter. *)
Lemma verify_corrects (r : nat) (i : Instance) (w : World) :
  heap w !! r = Some i ->
  String.eqb (state i) "connecting" = false ->
  String.eqb (state i) "open" = false ->
  String.eqb (state i) "close" = false ->
  Obj.socket_ready i = true ->
  Obj.authenticated i = true ->
  Obj.verifyConnectionStatusConsistency r w
  = (Ok tt,
     with_trace (trace w ++ [EmitEvent "instance.state.persist" (name i);
                             EmitEvent "instance.connected" (name i)])
       (with_heap (<[r := Obj.set_state "open" i]> (heap w)) w)).
Proof.
  intros Hobj Hc Ho Hcl Hready Hauth.
  unfold Obj.verifyConnectionStatusConsistency.
  rewrite (bind_ok _ _ w i w (read_ok r i w Hobj)).
  rewrite Hc, Ho, Hcl, Hready, Hauth. cbn [andb].
  unfold Obj.correctToOpen, Obj.assign_state.
  rewrite (bind_ok _ _ w i w (read_ok r i w Hobj)).
  rewrite (bind_ok _ _ w tt _ (update_present r _ i w Hobj)).
  unfold bind, emit, modify. cbn. now rewrite <- app_assoc.
Qed.

(** What a read does to the world in every case: the object holds the
    state the read answers, the registry and the cache are as before,
    the trace has only grown, and no method of the instance but
    [connectToWhatsapp] and [sendDataWebhook] has been called. *)
Lemma verify_spec (r : nat) (i : Instance) (w : World) :
  heap w !! r = Some i ->
  exists w' t,
    Obj.verifyConnectionStatusConsistency r w = (Ok tt, w')
    /\ heap w' = <[r := Obj.set_state (state_as_read (date_now (env w)) i) i]> (heap w)
    /\ waInstances w' = waInstances w /\ env w' = env w
    /\ redis w' = redis w
    /\ next_ref w' = next_ref w /\ isShuttingDown w' = isShuttingDown w
    /\ trace w' = (trace w ++ t)%list
    /\ (forall ev, In ev t ->
          ev = ConnectToWhatsapp r
          \/ (exists task ms, ev = SetTimeout task (name i) ms)
          \/ (exists event, ev = EmitEvent event (name i))
          \/ (exists id, ev = DbUpdate id "open")
          \/ ev = SendDataWebhook r "CONNECTION_UPDATE" (Obj.correction_notice (name i))).
Proof.
  intros Hobj.
  destruct (settled i) eqn:Hs.
  - exists w, []. rewrite (verify_settled r i w Hobj Hs), (settled_state _ i Hs), set_state_same.
    rewrite insert_id by exact Hobj. rewrite app_nil_r. repeat split. intros ev [].
  - unfold settled in Hs. unfold state_as_read.
    destruct (String.eqb (state i) "connecting") eqn:Hc; [discriminate|].
    destruct (String.eqb_spec (state i) "open") as [Hopen|Hopen]; cbn [orb] in Hs.
    + rewrite Hs.
      destruct (lastMessageSentTime i) as [sent|] eqn:Hsent.
      * destruct (date_now (env w) - sent <? Obj.DEBOUNCE_WINDOW) eqn:Hwin.
        -- apply Z.ltb_lt in Hwin.
           rewrite (verify_debounced r i w sent Hobj Hopen Hs Hsent Hwin).
           eexists _, [_]. split; [reflexivity|]. cbn.
           rewrite set_state_same, insert_id by exact Hobj.
           repeat split. intros ev [<-|[]]. right; left. now eexists _, _.
        -- assert (Hread : state_as_read (date_now (env w)) i = "close").
           { unfold state_as_read. rewrite Hc, Hopen. cbn [String.eqb Ascii.eqb Bool.eqb].
             now rewrite Hs, Hsent, Hwin. }
           rewrite (verify_downgrades r i w Hobj Hopen Hs Hread).
           eexists _, [_]. split; [reflexivity|]. cbn.
           repeat split. intros ev [<-|[]]. now left.
      * assert (Hread : state_as_read (date_now (env w)) i = "close").
        { unfold state_as_read. rewrite Hc, Hopen. cbn [String.eqb Ascii.eqb Bool.eqb].
          now rewrite Hs, Hsent. }
        rewrite (verify_downgrades r i w Hobj Hopen Hs Hread).
        eexists _, [_]. split; [reflexivity|]. cbn.
        repeat split. intros ev [<-|[]]. now left.
    + apply negb_false_iff in Hs. rewrite Hs.
      apply andb_true_iff in Hs as [Hready Hauth].
      destruct (String.eqb (state i) "open") eqn:Ho;
        [apply String.eqb_eq in Ho; contradiction|].
      destruct (String.eqb_spec (state i) "close") as [Hclose|Hclose].
      * rewrite (verify_repairs r i w Hobj Hclose Hready Hauth).
        eexists _, _. split; [reflexivity|]. cbn.
        repeat split. unfold repair_events.
        intros ev [<-|Hev]; [right; left; now eexists _, _|].
        destruct (instanceId i) as [id|]; cbn in Hev.
        -- destruct Hev as [<-|[<-|[]]]; [do 3 right; left; now eexists | now do 4 right].
        -- destruct Hev as [<-|[]]. now do 4 right.
      * apply String.eqb_neq in Hclose.
        rewrite (verify_corrects r i w Hobj Hc Ho Hclose Hready Hauth).
        eexists _, [_; _]. split; [reflexivity|]. cbn.
        repeat split. intros ev [<-|[<-|[]]]; right; right; left; now eexists.
Qed.

(** The read, in full. *)
Lemma verify_run (r : nat) (i : Instance) (w : World) :
  heap w !! r = Some i ->
  Obj.verifyConnectionStatusConsistency r w = (Ok tt, after_read r i w).
Proof.
  intros Hobj. unfold after_read, read_events, state_as_read, debounce_events.
  destruct (String.eqb (state i) "connecting") eqn:Hc.
  - rewrite (verify_settled r i w Hobj) by (unfold settled; now rewrite Hc).
    apply String.eqb_eq in Hc. rewrite Hc. cbn [String.eqb Ascii.eqb Bool.eqb andb].
    rewrite <- Hc, set_state_same, insert_id by exact Hobj.
    rewrite app_nil_r. now destruct w.
  - destruct (String.eqb_spec (state i) "open") as [Hopen|Hopen].
    + assert (Hcl : String.eqb (state i) "close" = false) by now rewrite Hopen.
      rewrite Hcl. cbn [andb].
      destruct (Obj.socket_ready i) eqn:Hready.
      * rewrite (verify_settled r i w Hobj)
          by (unfold settled; rewrite Hopen, Hready; reflexivity).
        rewrite set_state_same, insert_id by exact Hobj.
        rewrite app_nil_r. now destruct w.
      * destruct (lastMessageSentTime i) as [sent|] eqn:Hsent.
        -- destruct (date_now (env w) - sent <? Obj.DEBOUNCE_WINDOW) eqn:Hwin.
           ++ apply Z.ltb_lt in Hwin.
              rewrite (verify_debounced r i w sent Hobj Hopen Hready Hsent Hwin).
              rewrite set_state_same, insert_id by exact Hobj. now destruct w.
           ++ rewrite (verify_downgrades r i w Hobj Hopen Hready).
              ** now destruct w.
              ** unfold state_as_read. rewrite Hc, Hopen.
                 cbn [String.eqb Ascii.eqb Bool.eqb]. now rewrite Hready, Hsent, Hwin.
        -- rewrite (verify_downgrades r i w Hobj Hopen Hready).
           ** now destruct w.
           ** unfold state_as_read. rewrite Hc, Hopen.
              cbn [String.eqb Ascii.eqb Bool.eqb]. now rewrite Hready, Hsent.
    + destruct (String.eqb (state i) "open") eqn:Ho;
        [apply String.eqb_eq in Ho; contradiction|].
      destruct (Obj.socket_ready i && Obj.authenticated i) eqn:Hra.
      * apply andb_true_iff in Hra as [Hready Hauth].
        destruct (String.eqb_spec (state i) "close") as [Hclose|Hclose].
        -- rewrite (verify_repairs r i w Hobj Hclose Hready Hauth).
           rewrite Hready, Hauth. reflexivity.
        -- apply String.eqb_neq in Hclose.
           rewrite (verify_corrects r i w Hobj Hc Ho Hclose Hready Hauth).
           cbn [andb]. now destruct w.
      * rewrite (verify_settled r i w Hobj)
          by (unfold settled; rewrite Hc, Ho, Hra; reflexivity).
        assert (Hdb : String.eqb (state i) "close" && Obj.socket_ready i && Obj.authenticated i
                      = false).
        { rewrite <- andb_assoc, Hra. apply andb_false_r. }
        rewrite Hdb, set_state_same, insert_id by exact Hobj.
        rewrite app_nil_r. now destruct w.
Qed.

(** A read leaves a settled instance and its world alone. *)
Lemma after_read_settled (r : nat) (i : Instance) (w : World) :
  heap w !! r = Some i -> settled i = true -> after_read r i w = w.
Proof.
  intros Hobj Hs.
  pose proof (verify_run r i w Hobj) as H.
  rewrite (verify_settled r i w Hobj Hs) in H. now injection H.
Qed.

Lemma after_read_object (r : nat) (i : Instance) (w : World) :
  heap (after_read r i w) !! r
  = Some (Obj.set_state (state_as_read (date_now (env w)) i) i).
Proof. unfold after_read. cbn. apply lookup_insert_eq. Qed.

(** ** The readiness gate of the send operations *)

(** C9. A send operation against a registered instance is rejected
    with a [BadRequestException] whenever the state its read of
    [connectionStatus] answers is not [open]; the message names the
    instance and that state, and no send is attempted.  The world is as
    before, but for an instance declared [open] over a socket that is
    not ready, which the read has downgraded: its state is [close] and
    one reconnection has been started. *)
Theorem send_rejected_when_not_open
    (op : SendMessageController.Operation) (instanceName : string)
    (payload_error : option jserror) (w : World) (r : nat) (i : Instance) :
  waInstances w !! instanceName = Some r ->
  heap w !! r = Some i ->
  let s := state_as_read (date_now (env w)) i in
  s <> "open" ->
  SendMessageController.send op instanceName payload_error w
    = (Throw (SendMessageController.not_ready instanceName s),
       if String.eqb (state i) "open"
       then with_trace (trace w ++ [ConnectToWhatsapp r])
              (with_heap (<[r := Obj.set_state "close" i]> (heap w)) w)
       else w)
  /\ (String.eqb (state i) "open" = true -> s = "close")
  /\ Js.includes instanceName (SendMessageController.not_ready instanceName s) = true
  /\ Js.includes s (SendMessageController.not_ready instanceName s) = true.
Proof.
  intros Hreg Hobj s Hs.
  assert (Hrun : exists w',
             Obj.verifyConnectionStatusConsistency r w = (Ok tt, w')
             /\ heap w' !! r = Some (Obj.set_state s i)
             /\ w' = (if String.eqb (state i) "open"
                      then with_trace (trace w ++ [ConnectToWhatsapp r])
                             (with_heap (<[r := Obj.set_state "close" i]> (heap w)) w)
                      else w)
             /\ (String.eqb (state i) "open" = true -> s = "close")).
  { destruct (String.eqb_spec (state i) "open") as [Hopen|Hopen].
    - assert (Hready : Obj.socket_ready i = false).
      { destruct (Obj.socket_ready i) eqn:E; [|reflexivity].
        destruct Hs. subst s. unfold state_as_read. rewrite Hopen. cbn. now rewrite E. }
      assert (Hread : s = "close").
      { subst s. unfold state_as_read in *. rewrite Hopen in *.
        cbn [String.eqb Ascii.eqb Bool.eqb] in *. rewrite Hready in *.
        destruct (lastMessageSentTime i) as [sent|]; [|reflexivity].
        destruct (date_now (env w) - sent <? Obj.DEBOUNCE_WINDOW); [now destruct Hs|reflexivity]. }
      eexists. split; [exact (verify_downgrades r i w Hobj Hopen Hready Hread)|].
      split; [rewrite Hread; cbn; apply lookup_insert_eq|]. split; [reflexivity|]. now intros _.
    - assert (Hset : settled i = true).
      { unfold settled. subst s. unfold state_as_read in Hs.
        destruct (String.eqb (state i) "connecting"); [reflexivity|].
        destruct (String.eqb_spec (state i) "open") as [E|_]; [contradiction|]. cbn [orb].
        destruct (Obj.socket_ready i && Obj.authenticated i); [now destruct Hs | reflexivity]. }
      exists w. split; [exact (verify_settled r i w Hobj Hset)|].
      subst s. rewrite (settled_state _ i Hset), set_state_same.
      split; [exact Hobj|]. split; [reflexivity|]. intros [=]. }
  destruct Hrun as (w' & Hrun & Hobj' & Hw' & Hclose).
  split; [|split; [exact Hclose|split]].
  - unfold SendMessageController.send, SendMessageController.validateInstanceReady.
    apply bind_throw.
    rewrite (bind_ok _ _ w _ w (lookup_ok instanceName r w Hreg)).
    rewrite (bind_ok _ _ w tt w' Hrun).
    rewrite (bind_ok _ _ w' _ w' (read_ok r _ w' Hobj')).
    cbn [state Obj.set_state].
    destruct (String.eqb_spec s "open") as [E|_]; [contradiction|]. cbn [negb].
    unfold throw. now rewrite Hw'.
  - unfold SendMessageController.not_ready.
    apply includes_app_r, includes_app_r, includes_here.
  - unfold SendMessageController.not_ready.
    destruct s as [|c s'] eqn:E.
    + reflexivity.
    + cbn [Js.nonempty].
      do 6 apply includes_app_r. apply includes_here.
Qed.

Lemma send_rejected_when_not_open_witness :
  let w := Sample.one_instance Sample.env0
             (Sample.baileys "alpha" "id1" "connecting" (Some Sample.ready_client)) [] in
  SendMessageController.send SendMessageController.sendText "alpha" None w
    = (Throw (SendMessageController.not_ready "alpha" "connecting"), w)
  /\ Js.includes "alpha" (SendMessageController.not_ready "alpha" "connecting") = true
  /\ Js.includes "connecting" (SendMessageController.not_ready "alpha" "connecting") = true.
Proof.
  intro w.
  destruct (send_rejected_when_not_open SendMessageController.sendText "alpha" None w 0%nat
              (Sample.baileys "alpha" "id1" "connecting" (Some Sample.ready_client)))
    as (Hrun & _ & Hn & Hs); [reflexivity | reflexivity | discriminate |].
  now split.
Defined.

(** A declared state is not what the gate goes by: an instance
    declared [close] over an authenticated and ready transport is read
    as [open], the send goes through and the stored state has
    changed. *)
Lemma closed_instance_is_sent_to :
  let i := Sample.baileys "alpha" "id1" "close" (Some Sample.ready_client) in
  let w := Sample.one_instance Sample.env0 i [] in
  state i <> "open"
  /\ fst (SendMessageController.send SendMessageController.sendText "alpha" None w) = Ok tt
  /\ In (SendMessage 0%nat "textMessage")
        (trace (snd (SendMessageController.send SendMessageController.sendText "alpha" None w)))
  /\ state <$> heap (snd (SendMessageController.send SendMessageController.sendText
                            "alpha" None w)) !! 0%nat
     = Some "open".
Proof.
  intros i w. split; [discriminate|].
  vm_compute. repeat split. tauto.
Qed.

(** ** Keys the cache stage passes over *)

(** The logical key the cache stage extracts from a physical key. *)
Lemma restoreFromRedisKey_skip (restored : Z) (fullKey : string) (w : World) :
  SessionRestorationService.is_auxiliary
    (Js.join ":" (drop 2 (Js.split ":" fullKey))) = true ->
  SessionRestorationService.restoreFromRedisKey restored fullKey w = (Ok restored, w).
Proof.
  intros Haux. unfold SessionRestorationService.restoreFromRedisKey, try_catch.
  destruct ((3 <=? length (Js.split ":" fullKey))%nat
            && bool_decide (Js.split ":" fullKey !! 1%nat = Some "instance")).
  - now rewrite Haux.
  - reflexivity.
Qed.

(** C10. In the loop of the cache stage a key whose extracted logical
    key contains ["connecting_time"], ["restored"], ["creds"] or a
    hyphen is passed over: no read, no restore, the count and the world
    stay as they are.  A run of the loop over such keys only, whatever
    records they hold, restores nothing. *)
Theorem auxiliary_keys_never_restored (ks : list string) (restored : Z) (w : World) :
  Forall (fun fullKey =>
            let instanceKey := Js.join ":" (drop 2 (Js.split ":" fullKey)) in
            Js.includes "connecting_time" instanceKey
            || Js.includes "restored" instanceKey
            || Js.includes "creds" instanceKey
            || Js.includes "-" instanceKey = true) ks ->
  for_fold ks restored SessionRestorationService.restoreFromRedisKey w = (Ok restored, w)
  /\ Forall (fun fullKey =>
               SessionRestorationService.restoreFromRedisKey restored fullKey w
               = (Ok restored, w)) ks.
Proof.
  intros H. split.
  - induction H as [|k ks Hk _ IH]; [reflexivity|].
    cbn [for_fold]. erewrite bind_ok; [exact IH|].
    now apply restoreFromRedisKey_skip.
  - eapply Forall_impl; [exact H|].
    intros k Hk. now apply restoreFromRedisKey_skip.
Qed.

Lemma auxiliary_keys_never_restored_witness :
  let w := Sample.empty_world Sample.env0 in
  let ks := ["evolution_cache:instance:0b7e2c1a-4f5d-4e8a-9c3b-2a1d5e6f7a8b";
             "evolution_cache:instance:connecting_time:alpha"] in
  for_fold ks 0 SessionRestorationService.restoreFromRedisKey w = (Ok 0, w)
  /\ Forall (fun fullKey =>
               SessionRestorationService.restoreFromRedisKey 0 fullKey w = (Ok 0, w)) ks.
Proof.
  intros w ks.
  apply (auxiliary_keys_never_restored ks 0 w).
  repeat constructor.
Defined.

(** ** Invariants of a run *)

Section Sat.

Context {R : World -> World -> Prop} `{HR : !PreOrder R}.

Lemma sat_ret {A} (a : A) : Sat R (ret a).
Proof. intros w. reflexivity. Qed.

Lemma sat_throw {A} e : Sat R (@throw A e).
Proof. intros w. reflexivity. Qed.

Lemma sat_read {A} (f : World -> Res A) : Sat R (fun w => (f w, w)).
Proof. intros w. reflexivity. Qed.

Lemma sat_bind {A B} (m : M A) (k : A -> M B) :
  Sat R m -> (forall a, Sat R (k a)) -> Sat R (bind m k).
Proof.
  intros Hm Hk w. unfold bind. specialize (Hm w).
  destruct (m w) as [[a|e] w1]; cbn in *; [|exact Hm].
  etransitivity; [exact Hm | apply Hk].
Qed.

Lemma sat_try_catch {A} (m : M A) h :
  Sat R m -> (forall e, Sat R (h e)) -> Sat R (try_catch m h).
Proof.
  intros Hm Hh w. unfold try_catch. specialize (Hm w).
  destruct (m w) as [[a|e] w1]; cbn in *; [exact Hm|].
  etransitivity; [exact Hm | apply Hh].
Qed.

Lemma sat_for_each {A} (xs : list A) body :
  (forall x, Sat R (body x)) -> Sat R (for_each xs body).
Proof.
  intros Hb. induction xs as [|x xs IH]; cbn [for_each].
  - apply sat_ret.
  - apply sat_bind; [apply Hb | intros _; exact IH].
Qed.

Lemma sat_for_fold {A S} (xs : list A) (s : S) body :
  (forall s x, Sat R (body s x)) -> Sat R (for_fold xs s body).
Proof.
  intros Hb. revert s. induction xs as [|x xs IH]; intros s; cbn [for_fold].
  - apply sat_ret.
  - apply sat_bind; [apply Hb | intros s'; apply IH].
Qed.

Lemma sat_modify f : (forall w, R w (f w)) -> Sat R (modify f).
Proof. intros H w. apply H. Qed.

Lemma sat_when b m : Sat R m -> Sat R (when b m).
Proof. intros H. destruct b; [exact H | apply sat_ret]. Qed.

End Sat.

Arguments sat_ret {R HR A} a.

Arguments sat_throw {R HR A} e.

Arguments sat_read {R HR A} f.

Arguments sat_bind {R HR A B} m k _ _.

Arguments sat_try_catch {R HR A} m h _ _.

Arguments sat_for_each {R HR A} xs body _.

Arguments sat_for_fold {R HR A S} xs s body _.

Arguments sat_modify {R} f _.

Arguments sat_when {R HR} b m _.

Lemma total_ret {A} (a : A) : Total (ret a).
Proof. intros w. now exists a. Qed.

Lemma total_bind {A B} (m : M A) (k : A -> M B) :
  Total m -> (forall a, Total (k a)) -> Total (bind m k).
Proof.
  intros Hm Hk w. unfold bind. destruct (Hm w) as [a Ha].
  destruct (m w) as [[a'|e] w1]; cbn in Ha; [|discriminate]. apply Hk.
Qed.

Lemma total_try_catch {A} (m : M A) h : (forall e, Total (h e)) -> Total (try_catch m h).
Proof.
  intros Hh w. unfold try_catch.
  destruct (m w) as [[a|e] w1]; [now exists a | apply Hh].
Qed.

Lemma total_for_each {A} (xs : list A) body :
  (forall x, Total (body x)) -> Total (for_each xs body).
Proof.
  intros Hb. induction xs as [|x xs IH]; cbn [for_each].
  - apply total_ret.
  - apply total_bind; [apply Hb | intros _; exact IH].
Qed.

Lemma total_for_fold {A S} (xs : list A) (s : S) body :
  (forall s x, Total (body s x)) -> Total (for_fold xs s body).
Proof.
  intros Hb. revert s. induction xs as [|x xs IH]; intros s; cbn [for_fold].
  - apply total_ret.
  - apply total_bind; [apply Hb | intros s'; apply IH].
Qed.

Lemma total_emit ev : Total (emit ev).
Proof. intros w. now exists tt. Qed.

Lemma total_try_body {A} (m : M A) h : Total m -> Total (try_catch m h).
Proof.
  intros Hm w. unfold try_catch. destruct (Hm w) as [a Ha].
  destruct (m w) as [[a'|e] w1]; cbn in Ha; [now exists a' | discriminate].
Qed.

Lemma total_read {A} (f : World -> A) : Total (fun w => (Ok (f w), w)).
Proof. intros w. now exists (f w). Qed.

Lemma total_when b m : Total m -> Total (when b m).
Proof. intros H. destruct b; [exact H | apply total_ret]. Qed.

Section SatPrimitives.

Context {R : World -> World -> Prop} `{HR : !PreOrder R}.

Lemma sat_emit ev :
  (forall w e, R w (with_trace (trace w ++ [e]) w)) -> Sat R (emit ev).
Proof. intros H. apply sat_modify. intros w. apply H. Qed.

Lemma sat_command {A} c (f : gmap string rentry -> Res A * gmap string rentry) :
  (forall w e, R w (with_trace (trace w ++ [e]) w)) ->
  (forall w s, R w (with_redis s w)) ->
  Sat R (RedisClient.command c f).
Proof.
  intros He Hs. unfold RedisClient.command.
  apply sat_bind; [now apply sat_emit |].
  intros _ w. destruct (redis_up (env w)); [|reflexivity].
  destruct (f (redis w)) as [r s]. apply Hs.
Qed.

Lemma sat_query {A} ev (f : list DbInstance -> Res A * list DbInstance) :
  (forall w e, R w (with_trace (trace w ++ [e]) w)) ->
  (forall w d, R w (with_db d w)) ->
  Sat R (Prisma.query ev f).
Proof.
  intros He Hd. unfold Prisma.query.
  apply sat_bind; [now apply sat_emit |].
  intros _ w. destruct (db_up (env w)); [|reflexivity].
  destruct (f (db w)) as [r d]. apply Hd.
Qed.

Lemma sat_find {A} ev (g : list DbInstance -> Res A) :
  (forall w e, R w (with_trace (trace w ++ [e]) w)) ->
  (forall w, R w (with_db (db w) w)) ->
  Sat R (Prisma.query ev (fun rows => (g rows, rows))).
Proof.
  intros He Hd. unfold Prisma.query.
  apply sat_bind; [now apply sat_emit |].
  intros _ w. destruct (db_up (env w)); [|reflexivity]. apply Hd.
Qed.

Lemma sat_obj_read r : Sat R (Obj.read r).
Proof. intros w. unfold Obj.read. destruct (heap w !! r); reflexivity. Qed.

End SatPrimitives.

Arguments sat_emit {R} ev _.

Arguments sat_command {R HR A} c f _ _.

Arguments sat_query {R HR A} ev f _ _.

Arguments sat_find {R HR A} ev g _ _.

Arguments sat_obj_read {R HR} r.

(** The layers of the model that are plain compositions. *)
Create HintDb model.

#[local] Hint Unfold
  get_env get_world
  RedisClient.get RedisClient.set RedisClient.setEx RedisClient.hGet RedisClient.hSet
  RedisClient.del RedisClient.hDel RedisClient.exists_ RedisClient.type RedisClient.scan
  RedisCache.buildKey RedisCache.write_string RedisCache.handleWrongTypeError
  RedisCache.get RedisCache.hGet RedisCache.set RedisCache.hSet RedisCache.has
  RedisCache.delete RedisCache.hDelete RedisCache.keys RedisCache.getKeyType
  RedisCache.cleanupCorruptedKeys
  cache.get cache.set cache.hGet cache.hSet cache.delete cache.hDelete cache.keys
  cache.cleanupCorruptedKeys
  Prisma.findManyEligible Prisma.findManyOfClient Prisma.findFirstEligible Prisma.update
  Obj.update Obj.assign_state Obj.connectToWhatsapp Obj.sendDataWebhook Obj.ws_close
  Obj.ws_terminate Obj.client_end Obj.sendMessage Obj.livenessProbe Obj.correctToOpen Obj.repairFalseNegative
  Obj.downgrade Obj.verifyConnectionStatusConsistency Obj.connectionStatus
  WAMonitoringService.instance_names WAMonitoringService.lookup WAMonitoringService.init
  ConnectionHealthService.performPingTest ConnectionHealthService.handleConnectionMismatch
  ConnectionHealthService.handleConnectionFailure ConnectionHealthService.getConnectingTime
  ConnectionHealthService.setConnectingTime ConnectionHealthService.clearConnectingTime
  ConnectionHealthService.handleConnectionTimeout
  ConnectionHealthService.correctFalseDisconnection
  ConnectionHealthService.checkInstanceHealth ConnectionHealthService.performHealthChecks
  ConnectionHealthService.stopHealthMonitoring
  SessionRestorationService.findInstanceInDatabase
  SessionRestorationService.restoreFromDatabase SessionRestorationService.parse
  SessionRestorationService.restoreKeyFromCache
  SessionRestorationService.restoreKeyFromDatabase
  SessionRestorationService.restoreFromRedisKey
  SessionRestorationService.restoreFromRedisCache
  SessionRestorationService.restoreFromProviderFiles
  SessionRestorationService.verifyRestoredConnections
  SessionRestorationService.restoreAllSessions
  SessionRestorationService.persistInstanceState
  GracefulShutdownService.saveAllInstanceStates
  GracefulShutdownService.closeBaileysConnection
  GracefulShutdownService.closeAllConnections
  GracefulShutdownService.cleanupResources
  : model.

Create HintDb sat_lemmas.

(** Decomposes [Sat R m] along the structure of [m], the lemmas of
    [sat_lemmas] tried first; [leaf] closes the goals [R w (f w)] left
    by the writes. *)
Ltac sat_auto leaf :=
  repeat first
    [ solve [auto 1 with sat_lemmas nocore]
    | match goal with
      | |- Sat _ (ret _) => apply sat_ret
      | |- Sat _ (throw _) => apply sat_throw
      | |- Sat _ (bind _ _) => apply sat_bind; [ | intros ?]
      | |- Sat _ (try_catch _ _) => apply sat_try_catch; [ | intros ?]
      | |- Sat _ (for_each _ _) => apply sat_for_each; intros ?
      | |- Sat _ (for_fold _ _ _) => apply sat_for_fold; intros ? ?
      | |- Sat _ (when _ _) => apply sat_when
      | |- Sat _ (emit _) => apply sat_emit; intros ? ?; leaf
      | |- Sat _ (modify _) => apply sat_modify; intros ?; leaf
      | |- Sat _ (RedisClient.command _ _) => apply sat_command; intros ? ?; leaf
      | |- Sat _ (Prisma.query _ (fun rows => (_, rows))) =>
          apply sat_find; [intros ? ?; leaf | intros ?; leaf]
      | |- Sat _ (Prisma.query _ _) => apply sat_query; intros ? ?; leaf
      | |- Sat _ (Obj.read _) => apply sat_obj_read
      | |- Sat _ (fun w => (_, w)) => apply sat_read
      | |- Sat _ (if ?b then _ else _) => destruct b
      | |- Sat _ (match ?x with _ => _ end) => destruct x
      | |- Sat _ (let _ := _ in _) => cbv zeta
      end
    | progress autounfold with model ].

(** ** What the restoration leaves alone *)

#[local] Instance same_registry_preorder : PreOrder same_registry.
Proof. split; [now intros w | intros a b c H1 H2; unfold same_registry in *; congruence]. Qed.

#[local] Instance registry_kept_preorder : PreOrder registry_kept.
Proof. split; [now intros w | intros a b c H1 H2 n r H; now apply H2, H1]. Qed.

#[local] Instance same_stores_preorder : PreOrder same_stores.
Proof.
  split; [now intros w | intros a b c [H1 H2] [H3 H4]; unfold same_stores; split; congruence].
Qed.

Lemma same_registry_kept w w' : same_registry w w' -> registry_kept w w'.
Proof. intros H n r. unfold same_registry in H. now rewrite H. Qed.

Lemma sat_cache_set_registry k v t : Sat same_registry (cache.set k v t).
Proof. sat_auto ltac:(idtac; reflexivity). Qed.

(** ** Registration *)

Lemma setInstance_ok d w :
  init_ok (env w) d = true ->
  connect_ok (env w) (WAMonitoringService.key_of (dto_instanceName d)) = true ->
  exists w',
    WAMonitoringService.setInstance d w = (Ok tt, w')
    /\ waInstances w' = <[WAMonitoringService.key_of (dto_instanceName d) := next_ref w]> (waInstances w)
    /\ heap w' = <[next_ref w := WAMonitoringService.fresh_instance d]> (heap w)
    /\ next_ref w' = S (next_ref w)
    /\ env w' = env w /\ db w' = db w /\ redis w' = redis w
    /\ trace w' = (trace w ++ [ChannelInit (WAMonitoringService.key_of (dto_instanceName d));
                               ConnectToWhatsapp (next_ref w)])%list.
Proof.
  intros Hinit Hconn.
  unfold WAMonitoringService.setInstance, WAMonitoringService.init, Obj.connectToWhatsapp,
    Obj.read, emit, modify, get_env, get_world, bind, ret, throw.
  cbn. rewrite Hinit. cbn. rewrite lookup_insert_eq. cbn. rewrite Hconn.
  eexists. split; [reflexivity|]. cbn.
  repeat split; try reflexivity.
  now rewrite <- app_assoc.
Qed.

Lemma setInstance_registry d w :
  waInstances (snd (WAMonitoringService.setInstance d w)) = waInstances w
  \/ exists r, waInstances (snd (WAMonitoringService.setInstance d w))
               = <[WAMonitoringService.key_of (dto_instanceName d) := r]> (waInstances w).
Proof.
  unfold WAMonitoringService.setInstance, WAMonitoringService.init, Obj.connectToWhatsapp,
    Obj.read, emit, modify, get_env, get_world, bind, ret, throw.
  cbn. destruct (init_ok (env w) d); cbn; [|now left].
  rewrite lookup_insert_eq. cbn.
  destruct (connect_ok (env w) _); cbn; [right; eauto | now left].
Qed.

Lemma sat_restoreInstance_kept d :
  Sat registry_kept (SessionRestorationService.restoreInstance d).
Proof.
  unfold SessionRestorationService.restoreInstance.
  apply sat_try_catch; [|intros; apply sat_throw].
  destruct (negb (Js.truthy_str (dto_instanceName d))); [apply sat_ret|].
  cbv zeta. intros w. unfold bind at 1. cbn [WAMonitoringService.lookup].
  unfold WAMonitoringService.entry.
  destruct (waInstances w !! WAMonitoringService.key_of (dto_instanceName d)) eqn:E;
    [reflexivity|].
  destruct (Js.inherited _); [reflexivity|].
  assert (Hs : registry_kept w (snd (WAMonitoringService.setInstance d w))).
  { destruct (setInstance_registry d w) as [H|[r H]].
    - now apply same_registry_kept.
    - intros n r' Hn. rewrite H. rewrite lookup_insert_ne; [exact Hn|]. congruence. }
  unfold bind. destruct (WAMonitoringService.setInstance d w) as [[[]|e] w1]; cbn in *;
    [|exact Hs].
  etransitivity; [exact Hs|]. apply same_registry_kept, sat_cache_set_registry.
Qed.

#[local] Hint Resolve sat_restoreInstance_kept : sat_lemmas.

Ltac kept_leaf := let H := fresh in intros ? ? H; exact H.

Lemma sat_restoreFromDatabase_kept c :
  Sat registry_kept (SessionRestorationService.restoreFromDatabase c).
Proof. sat_auto ltac:(idtac; kept_leaf). Qed.

Lemma sat_restoreFromRedisCache_kept :
  Sat registry_kept SessionRestorationService.restoreFromRedisCache.
Proof. sat_auto ltac:(idtac; kept_leaf). Qed.

Lemma sat_restoreAllSessions_kept :
  Sat registry_kept SessionRestorationService.restoreAllSessions.
Proof. sat_auto ltac:(idtac; kept_leaf). Qed.

(** C7. A name that is in the registry keeps its entry through every
    restoration of the coordinator: [restoreInstance] for that name
    returns at once and leaves the world as it is, and the cache stage,
    the database stage (also when the monitor runs it as a recovery)
    and the whole startup run end with the same object registered under
    the name. *)
Theorem restoration_keeps_registered_instances (w : World) (n : string) (r : nat) :
  waInstances w !! n = Some r ->
  (forall d, dto_instanceName d = Some n ->
             SessionRestorationService.restoreInstance d w = (Ok tt, w))
  /\ waInstances (snd (SessionRestorationService.restoreFromRedisCache w)) !! n = Some r
  /\ (forall c, waInstances (snd (SessionRestorationService.restoreFromDatabase c w)) !! n
                = Some r)
  /\ waInstances (snd (SessionRestorationService.restoreAllSessions w)) !! n = Some r.
Proof.
  intros Hreg. split; [|split; [|split]].
  - intros d Hd. unfold SessionRestorationService.restoreInstance, try_catch.
    rewrite Hd. destruct (negb (Js.truthy_str (Some n))); [reflexivity|].
    cbv zeta. unfold bind, WAMonitoringService.lookup, WAMonitoringService.entry,
      WAMonitoringService.key_of.
    cbn. now rewrite Hreg.
  - now apply sat_restoreFromRedisCache_kept.
  - intros c. now apply sat_restoreFromDatabase_kept.
  - now apply sat_restoreAllSessions_kept.
Qed.

Lemma restoration_keeps_registered_instances_witness :
  let w := Sample.one_instance Sample.env0
             (Sample.baileys "alpha" "id1" "open" (Some Sample.ready_client))
             [Sample.row "id1" "alpha" "open"] in
  (forall d, dto_instanceName d = Some "alpha" ->
             SessionRestorationService.restoreInstance d w = (Ok tt, w))
  /\ waInstances (snd (SessionRestorationService.restoreFromRedisCache w)) !! "alpha"
     = Some 0%nat
  /\ (forall c, waInstances (snd (SessionRestorationService.restoreFromDatabase c w)) !! "alpha"
                = Some 0%nat)
  /\ waInstances (snd (SessionRestorationService.restoreAllSessions w)) !! "alpha"
     = Some 0%nat.
Proof.
  intro w. apply (restoration_keeps_registered_instances w "alpha" 0%nat). reflexivity.
Defined.

(** The loader of the monitor registers every row of the client without
    looking at the registry: a registered name gets a second object. *)
Lemma loader_replaces_registered_instance :
  let w := Sample.one_instance Sample.env0
             (Sample.baileys "alpha" "id1" "open" (Some Sample.ready_client))
             [Sample.row "id1" "alpha" "open"] in
  let w' := snd (WAMonitoringService.loadInstancesFromDatabasePostgres w) in
  waInstances w !! "alpha" = Some 0%nat
  /\ waInstances w' !! "alpha" = Some 1%nat
  /\ heap w' !! 0%nat = heap w !! 0%nat
  /\ heap w' !! 1%nat
     = Some (WAMonitoringService.fresh_instance
               (WAMonitoringService.dto_of_base_row (Sample.row "id1" "alpha" "open"))).
Proof. cbv zeta. repeat apply conj; vm_compute; reflexivity. Qed.

(** ** The shutdown drain *)

Ltac total_auto :=
  repeat first
    [ match goal with
      | |- Total (ret _) => apply total_ret
      | |- Total (bind _ _) => apply total_bind; [ | intros ?]
      | |- Total (try_catch _ (fun _ => ret _)) => apply total_try_catch; intros ?
      | |- Total (try_catch _ _) =>
          first [ solve [apply total_try_catch; intros ?; total_auto]
                | apply total_try_body ]
      | |- Total (for_each _ _) => apply total_for_each; intros ?
      | |- Total (for_fold _ _ _) => apply total_for_fold; intros ? ?
      | |- Total (when _ _) => apply total_when
      | |- Total (emit _) => apply total_emit
      | |- Total (fun w => (Ok _, w)) => apply total_read
      | |- Total (if ?b then _ else _) => destruct b
      | |- Total (match ?x with _ => _ end) => destruct x
      end
    | progress autounfold with model ].

Lemma total_saveAllInstanceStates : Total GracefulShutdownService.saveAllInstanceStates.
Proof. total_auto. Qed.

Lemma total_closeAllConnections : Total GracefulShutdownService.closeAllConnections.
Proof. total_auto. Qed.

Lemma drain_steps_complete w :
  exists w' t,
    (GracefulShutdownService.saveAllInstanceStates >>
     GracefulShutdownService.closeAllConnections >>
     GracefulShutdownService.cleanupResources) w = (Ok tt, w')
    /\ trace w' = (t ++ [SetTimeout "settle" EmptyString 1000])%list.
Proof.
  unfold bind.
  destruct (total_saveAllInstanceStates w) as [[] H1].
  destruct (GracefulShutdownService.saveAllInstanceStates w) as [[[]|e] w1];
    cbn in H1; [|discriminate].
  destruct (total_closeAllConnections w1) as [[] H2].
  destruct (GracefulShutdownService.closeAllConnections w1) as [[[]|e] w2];
    cbn in H2; [|discriminate].
  eexists _, (trace w2). split; reflexivity.
Qed.

(** ** The cache engine *)

#[local] Arguments RedisCache.physical_key : simpl never.

Lemma wrongtype_is_wrongtype : RedisCache.is_wrongtype RedisClient.WRONGTYPE = true.
Proof. reflexivity. Qed.

Lemma type_name_not_none v : (RedisClient.type_name v =? "none")%string = false.
Proof. now destruct v as [| |[]]. Qed.

(** Runs the monadic layers of the engine on a symbolic world. *)
Ltac engine :=
  unfold RedisCache.get, RedisCache.hGet, RedisCache.set, RedisCache.hSet,
    RedisCache.hDelete, RedisCache.delete, RedisCache.handleWrongTypeError,
    RedisCache.write_string, RedisCache.buildKey,
    RedisClient.get, RedisClient.hGet, RedisClient.set, RedisClient.setEx,
    RedisClient.hSet, RedisClient.hDel, RedisClient.del, RedisClient.type,
    RedisClient.command,
    try_catch, bind, emit, modify, get_env, ret, throw.

(** Evaluates as far as the equations in the context allow. *)
Ltac crunch :=
  repeat (progress
    (cbn;
     repeat match goal with
            | H : _ = _ |- _ => rewrite H
            end;
     rewrite ?wrongtype_is_wrongtype, ?type_name_not_none,
       ?lookup_delete_eq, ?lookup_insert_eq, ?lookup_singleton_eq, ?lookup_alter_eq;
     rewrite ?bool_decide_eq_true_2 by reflexivity)).

Ltac finish :=
  eexists; split; [reflexivity|]; cbn;
  repeat split; rewrite <- ?app_assoc; try reflexivity.

Lemma get_repairs m key w e :
  redis_up (env w) = true ->
  redis w !! RedisCache.physical_key (env w) m key = Some e ->
  (forall d, rval e <> RString d) ->
  exists w',
    RedisCache.get m key w = (Ok JNull, w')
    /\ trace w' = (trace w ++ [Redis (GET (RedisCache.physical_key (env w) m key));
                               Redis (TYPE (RedisCache.physical_key (env w) m key));
                               Redis (DEL (RedisCache.physical_key (env w) m key))])%list
    /\ redis w' = delete (RedisCache.physical_key (env w) m key) (redis w).
Proof.
  intros Hup Hk Hshape. engine.
  destruct (rval e) as [d| |] eqn:Ev; [now destruct (Hshape d)| |]; crunch; finish.
Qed.

Lemma hGet_repairs m key f w e :
  redis_up (env w) = true ->
  redis w !! RedisCache.physical_key (env w) m key = Some e ->
  (forall h, rval e <> RHash h) ->
  exists w',
    RedisCache.hGet m key f w = (Ok JNull, w')
    /\ trace w' = (trace w ++ [Redis (HGET (RedisCache.physical_key (env w) m key) f);
                               Redis (TYPE (RedisCache.physical_key (env w) m key));
                               Redis (DEL (RedisCache.physical_key (env w) m key))])%list
    /\ redis w' = delete (RedisCache.physical_key (env w) m key) (redis w).
Proof.
  intros Hup Hk Hshape. engine.
  destruct (rval e) as [|h|] eqn:Ev; [|now destruct (Hshape h)|]; crunch; finish.
Qed.

Lemma hSet_repairs m key f v w e :
  redis_up (env w) = true ->
  redis w !! RedisCache.physical_key (env w) m key = Some e ->
  (forall h, rval e <> RHash h) ->
  exists w',
    RedisCache.hSet m key f v w = (Ok tt, w')
    /\ trace w' = (trace w ++ [Redis (HSET (RedisCache.physical_key (env w) m key) f v);
                               Redis (TYPE (RedisCache.physical_key (env w) m key));
                               Redis (DEL (RedisCache.physical_key (env w) m key));
                               Redis (HSET (RedisCache.physical_key (env w) m key) f v)])%list
    /\ redis w' = <[RedisCache.physical_key (env w) m key :=
                      {| rval := RHash {[ f := v ]}; rttl := None |}]> (redis w)
    /\ fst (RedisCache.hGet m key f w') = Ok v.
Proof.
  intros Hup Hk Hshape. engine.
  destruct (rval e) as [|h|] eqn:Ev; [|now destruct (Hshape h)|]; crunch; finish;
    rewrite ?insert_delete_eq; try reflexivity; crunch; reflexivity.
Qed.

Lemma set_retry m key v t w e :
  redis_up (env w) = true ->
  redis w !! RedisCache.physical_key (env w) m key = Some e ->
  0 <= t ->
  exists w',
    RedisCache.handleWrongTypeError m key "set" None (Some v) (Some t) w = (Ok JNull, w')
    /\ trace w' = (trace w ++ [Redis (TYPE (RedisCache.physical_key (env w) m key));
                               Redis (DEL (RedisCache.physical_key (env w) m key));
                               Redis (if t =? 0
                                      then SET (RedisCache.physical_key (env w) m key) v
                                      else SETEX (RedisCache.physical_key (env w) m key) t v)])%list
    /\ redis w' = <[RedisCache.physical_key (env w) m key :=
                      {| rval := RString v; rttl := if t =? 0 then None else Some t |}]> (redis w)
    /\ fst (RedisCache.get m key w') = Ok v.
Proof.
  intros Hup Hk Ht. engine.
  destruct t as [|p|p]; [| |lia]; crunch; finish;
    rewrite ?insert_delete_eq; try reflexivity; crunch; reflexivity.
Qed.

(** C4. A [get] against a key that holds no string, and an [hGet] or
    [hSet] against a key that holds no hash, are answered by the
    WRONGTYPE repair: the engine asks for the key's type, deletes the
    key, and returns [null] for the reads; for [hSet] it issues the
    write once more, and a following [hGet] of the field returns the
    value written.  The repair of a [set] deletes the key and writes the
    string once, and a following [get] returns the value. *)
Theorem wrongtype_repair (m key : string) (w : World) (e : rentry) :
  redis_up (env w) = true ->
  redis w !! RedisCache.physical_key (env w) m key = Some e ->
  let k := RedisCache.physical_key (env w) m key in
  ((forall d, rval e <> RString d) ->
   exists w',
     RedisCache.get m key w = (Ok JNull, w')
     /\ trace w' = (trace w ++ [Redis (GET k); Redis (TYPE k); Redis (DEL k)])%list
     /\ redis w' = delete k (redis w))
  /\ ((forall h, rval e <> RHash h) ->
      forall f, exists w',
        RedisCache.hGet m key f w = (Ok JNull, w')
        /\ trace w' = (trace w ++ [Redis (HGET k f); Redis (TYPE k); Redis (DEL k)])%list
        /\ redis w' = delete k (redis w))
  /\ ((forall h, rval e <> RHash h) ->
      forall f v, exists w',
        RedisCache.hSet m key f v w = (Ok tt, w')
        /\ trace w' = (trace w ++ [Redis (HSET k f v); Redis (TYPE k); Redis (DEL k);
                                   Redis (HSET k f v)])%list
        /\ redis w' = <[k := {| rval := RHash {[ f := v ]}; rttl := None |}]> (redis w)
        /\ fst (RedisCache.hGet m key f w') = Ok v)
  /\ (forall v t, 0 <= t -> exists w',
        RedisCache.handleWrongTypeError m key "set" None (Some v) (Some t) w = (Ok JNull, w')
        /\ trace w' = (trace w ++ [Redis (TYPE k); Redis (DEL k);
                                   Redis (if t =? 0 then SET k v else SETEX k t v)])%list
        /\ redis w' = <[k := {| rval := RString v;
                               rttl := if t =? 0 then None else Some t |}]> (redis w)
        /\ fst (RedisCache.get m key w') = Ok v).
Proof.
  intros Hup Hk k. repeat split.
  - intros Hs. now apply (get_repairs m key w e).
  - intros Hs f. now apply (hGet_repairs m key f w e).
  - intros Hs f v. now apply (hSet_repairs m key f v w e).
  - intros v t Ht. now apply (set_retry m key v t w e).
Qed.

Lemma wrongtype_repair_witness :
  let w := with_redis {[ "evolution_cache:instance:alpha" :=
                           {| rval := RString (JStr "session"); rttl := None |} ]}
             (Sample.empty_world Sample.env0) in
  exists w',
    RedisCache.hSet "instance" "alpha" "creds" (JStr "secret") w = (Ok tt, w')
    /\ trace w' = [Redis (HSET "evolution_cache:instance:alpha" "creds" (JStr "secret"));
                   Redis (TYPE "evolution_cache:instance:alpha");
                   Redis (DEL "evolution_cache:instance:alpha");
                   Redis (HSET "evolution_cache:instance:alpha" "creds" (JStr "secret"))]
    /\ redis w' = <["evolution_cache:instance:alpha" :=
                      {| rval := RHash {[ "creds" := JStr "secret" ]}; rttl := None |}]> (redis w)
    /\ fst (RedisCache.hGet "instance" "alpha" "creds" w') = Ok (JStr "secret").
Proof.
  intro w.
  destruct (wrongtype_repair "instance" "alpha" w
              {| rval := RString (JStr "session"); rttl := None |})
    as (_ & _ & H & _); [reflexivity | reflexivity |].
  apply (H ltac:(discriminate) "creds" (JStr "secret")).
Defined.

(** An [hDelete] against a key that holds a string is refused by the
    server with WRONGTYPE; the engine asks for no type, deletes nothing
    and answers [undefined]. *)
Lemma hDelete_leaves_wrong_shape :
  let w := with_redis {[ "evolution_cache:instance:alpha" :=
                           {| rval := RString (JStr "session"); rttl := None |} ]}
             (Sample.empty_world Sample.env0) in
  fst (RedisClient.hDel "evolution_cache:instance:alpha" "creds" w)
    = Throw RedisClient.WRONGTYPE
  /\ fst (cache.hDelete "alpha" "creds" w) = Ok None
  /\ trace (snd (cache.hDelete "alpha" "creds" w))
     = [Redis (HDEL "evolution_cache:instance:alpha" "creds")]
  /\ redis (snd (cache.hDelete "alpha" "creds" w)) = redis w.
Proof. cbv zeta. repeat apply conj; vm_compute; reflexivity. Qed.

(** ** The sweep's classifier *)

Lemma auth_keys_expected_hash (n : string) : RedisCache.shouldBeHash ("auth:" +:+ n) = true.
Proof.
  unfold RedisCache.shouldBeHash.
  change ("auth:" +:+ n) with ("auth" +:+ ":" +:+ n).
  now rewrite includes_middle.
Qed.

(** The credential hash of an instance, written by the auth-state
    provider, has the shape the classifier expects: the sweep leaves it
    in place. *)
Lemma sweep_keeps_auth_record :
  let w0 := Sample.empty_world Sample.env0 in
  let w1 := snd (AuthState.saveCreds "instance" "alpha" (JStr "secret") w0) in
  let k := "evolution_cache:instance:auth:alpha" in
  redis w1 !! k = Some {| rval := RHash {["creds" := JStr "secret"]}; rttl := None |}
  /\ fst (cache.cleanupCorruptedKeys None w1) = Ok 0
  /\ redis (snd (cache.cleanupCorruptedKeys None w1)) !! k = redis w1 !! k.
Proof. cbv zeta. repeat apply conj; vm_compute; reflexivity. Qed.

Lemma marker_keys_expected_hash (n : string) :
  RedisCache.shouldBeHash (ConnectionHealthService.connecting_key n) = true
  /\ RedisCache.shouldBeHash (SessionRestorationService.restored_key n) = true.
Proof.
  unfold RedisCache.shouldBeHash, ConnectionHealthService.connecting_key,
    SessionRestorationService.restored_key.
  change ("connecting_time:" +:+ n) with ("connecting_time" +:+ ":" +:+ n).
  change ("restored:" +:+ n) with ("restored" +:+ ":" +:+ n).
  now rewrite !includes_middle.
Qed.

(** C3. The classifier takes every logical key with a colon or a hyphen
    for a hash key.  The connect-start marker of instance ["alpha"],
    written as a string with a TTL of 300 s, is classified as a hash key
    and deleted by the sweep as corrupted; so is the restoration marker,
    and so is a session record stored under an id with hyphens. *)
Theorem sweep_deletes_scalar_keys :
  let w0 := Sample.empty_world Sample.env0 in
  let w1 := snd (ConnectionHealthService.setConnectingTime "alpha" w0) in
  let k := "evolution_cache:instance:connecting_time:alpha" in
  redis w1 !! k = Some {| rval := RString (JStr "1700000000000"); rttl := Some 300 |}
  /\ RedisCache.shouldBeHash "connecting_time:alpha" = true
  /\ RedisCache.isCorrupted "connecting_time:alpha" "string" = true
  /\ fst (cache.cleanupCorruptedKeys None w1) = Ok 1
  /\ redis (snd (cache.cleanupCorruptedKeys None w1)) !! k = None
  /\ RedisCache.isCorrupted "restored:alpha" "string" = true
  /\ RedisCache.isCorrupted "0b7e2c1a-4f5d-4e8a-9c3b-2a1d5e6f7a8b" "string" = true.
Proof. cbv zeta. repeat apply conj; vm_compute; reflexivity. Qed.

(** ** Persisting an instance record *)

#[local] Arguments SessionRestorationService.cacheKey : simpl never.

Ltac gateway :=
  unfold SessionRestorationService.persistInstanceState,
    SessionRestorationService.restoreInstance,
    ConnectionHealthService.setConnectingTime,
    cache.set, cache.module, Prisma.update, Prisma.query, when;
  engine.

Lemma persist_writes_plain_set n d w :
  REDIS_ENABLED (env w) && REDIS_SAVE_INSTANCES (env w) = true ->
  redis_up (env w) = true ->
  let k := RedisCache.physical_key (env w) "instance" (SessionRestorationService.cacheKey n d) in
  let w' := snd (SessionRestorationService.persistInstanceState n d w) in
  redis w' !! k = Some {| rval := RString (SessionRestorationService.json_of_data d);
                          rttl := None |}
  /\ exists t, trace w' = (trace w ++ Redis (SET k (SessionRestorationService.json_of_data d)) :: t)%list
               /\ Forall (fun ev => forall c, ev <> Redis c) t.
Proof.
  intros Hon Hup k w'. subst k w'. gateway.
  cbn. rewrite Hon. cbn. rewrite Hup. cbn.
  destruct (data_instanceId d) as [id|]; cbn.
  - destruct (SAVE_DATA_INSTANCE (env w) && Js.nonempty id); cbn.
    + destruct (db_up (env w)); cbn.
      * destruct (existsb _ _); cbn;
          (split; [now rewrite lookup_insert_eq|]);
          (eexists; rewrite <- app_assoc; split; [reflexivity|]);
          repeat constructor; discriminate.
      * split; [now rewrite lookup_insert_eq|].
        eexists; rewrite <- app_assoc; split; [reflexivity|].
        repeat constructor; discriminate.
    + split; [now rewrite lookup_insert_eq|].
      exists []. split; [reflexivity | constructor].
  - split; [now rewrite lookup_insert_eq|].
    exists []. split; [reflexivity | constructor].
Qed.

Lemma connect_marker_expires n w :
  redis_up (env w) = true ->
  redis (snd (ConnectionHealthService.setConnectingTime n w))
    !! RedisCache.physical_key (env w) "instance" (ConnectionHealthService.connecting_key n)
  = Some {| rval := RString (JStr (Js.toString (date_now (env w)))); rttl := Some 300 |}.
Proof.
  intros Hup. gateway. cbn. rewrite Hup. cbn. now rewrite lookup_insert_eq.
Qed.

Lemma restoreInstance_ok d n w :
  dto_instanceName d = Some n ->
  Js.nonempty n = true ->
  WAMonitoringService.entry (waInstances w) n = WAMonitoringService.Undefined ->
  init_ok (env w) d = true ->
  connect_ok (env w) n = true ->
  redis_up (env w) = true ->
  exists w',
    SessionRestorationService.restoreInstance d w = (Ok tt, w')
    /\ waInstances w' = <[n := next_ref w]> (waInstances w)
    /\ env w' = env w /\ db w' = db w
    /\ redis w' = <[RedisCache.physical_key (env w) "instance"
                      (SessionRestorationService.restored_key n) :=
                      {| rval := RString (JStr "true"); rttl := Some 300 |}]> (redis w).
Proof.
  intros Hn Hne Hreg Hinit Hconn Hup.
  unfold SessionRestorationService.restoreInstance.
  rewrite Hn. cbn [Js.truthy_str WAMonitoringService.key_of default from_option id].
  rewrite Hne. cbn [negb]. cbv zeta.
  unfold try_catch, bind at 1, WAMonitoringService.lookup. rewrite Hreg.
  destruct (setInstance_ok d w Hinit) as (w1 & Hrun & Hr & Hh & Hnr & He & Hd & Hs & Ht).
  { now rewrite Hn. }
  rewrite Hn in Hr. cbn in Hr.
  unfold bind at 1. rewrite Hrun.
  unfold cache.set, cache.module. engine. cbn. rewrite He, Hup. cbn.
  eexists. split; [reflexivity|]. cbn. rewrite Hs, He.
  repeat split; assumption.
Qed.

(** C5. With the cache tier enabled for session storage and the server
    reachable, a persist writes the record with a plain SET: the stored
    entry has no time to live, and the persist issues no other Redis
    command.  The connect-start marker and the restoration marker are
    written with a time to live of 300 seconds; the restoration marker
    is written when an instance is restored, which a name that
    [Object.prototype] defines never is. *)
Theorem primary_record_never_expires (w : World) :
  redis_up (env w) = true ->
  (forall n d,
     REDIS_ENABLED (env w) && REDIS_SAVE_INSTANCES (env w) = true ->
     let k := RedisCache.physical_key (env w) "instance" (SessionRestorationService.cacheKey n d) in
     let w' := snd (SessionRestorationService.persistInstanceState n d w) in
     redis w' !! k = Some {| rval := RString (SessionRestorationService.json_of_data d);
                             rttl := None |}
     /\ exists t,
          trace w' = (trace w ++ Redis (SET k (SessionRestorationService.json_of_data d)) :: t)%list
          /\ Forall (fun ev => forall c, ev <> Redis c) t)
  /\ (forall n,
        redis (snd (ConnectionHealthService.setConnectingTime n w))
          !! RedisCache.physical_key (env w) "instance" (ConnectionHealthService.connecting_key n)
        = Some {| rval := RString (JStr (Js.toString (date_now (env w)))); rttl := Some 300 |})
  /\ (forall d n,
        dto_instanceName d = Some n -> Js.nonempty n = true ->
        waInstances w !! n = None ->
        init_ok (env w) d = true -> connect_ok (env w) n = true ->
        if Js.inherited n
        then SessionRestorationService.restoreInstance d w = (Ok tt, w)
        else redis (snd (SessionRestorationService.restoreInstance d w))
               !! RedisCache.physical_key (env w) "instance"
                    (SessionRestorationService.restored_key n)
             = Some {| rval := RString (JStr "true"); rttl := Some 300 |}).
Proof.
  intros Hup. repeat split.
  - now apply persist_writes_plain_set.
  - now apply persist_writes_plain_set.
  - intros n. now apply connect_marker_expires.
  - intros d n Hn Hne Hreg Hinit Hconn.
    destruct (Js.inherited n) eqn:Hinh.
    + unfold SessionRestorationService.restoreInstance.
      rewrite Hn. cbn [Js.truthy_str WAMonitoringService.key_of default from_option id].
      rewrite Hne. cbn [negb]. cbv zeta.
      unfold try_catch, bind, WAMonitoringService.lookup, WAMonitoringService.entry.
      now rewrite Hreg, Hinh.
    + destruct (restoreInstance_ok d n w Hn Hne (entry_fresh _ n Hreg Hinh) Hinit Hconn Hup)
        as (w' & Hrun & _ & _ & _ & Hs).
      rewrite Hrun. cbn [snd]. rewrite Hs. now rewrite lookup_insert_eq.
Qed.

Lemma primary_record_never_expires_witness :
  let d := GracefulShutdownService.snapshot "alpha"
             (Sample.baileys "alpha" "abc123" "open" (Some Sample.ready_client)) in
  let w := with_db [Sample.row "abc123" "alpha" "close"] (Sample.empty_world Sample.env0) in
  let w' := snd (SessionRestorationService.persistInstanceState "alpha" d w) in
  redis w' !! "evolution_cache:instance:abc123"
  = Some {| rval := RString (SessionRestorationService.json_of_data d); rttl := None |}
  /\ exists t,
       trace w' = (Redis (SET "evolution_cache:instance:abc123"
                            (SessionRestorationService.json_of_data d)) :: t)%list
       /\ Forall (fun ev => forall c, ev <> Redis c) t.
Proof.
  intros d w w'.
  destruct (primary_record_never_expires w) as [H _]; [reflexivity|].
  apply (H "alpha" d). reflexivity.
Defined.

(** C6. With both tiers enabled and the Redis server unreachable, the
    cache write of a persist throws, the error is caught by the one
    handler around both writes, and the persist ends there: the only
    call made is the refused SET, no update of the relational store is
    issued and its rows are as before. *)
Theorem cache_failure_skips_database_write (n : string) (d : InstanceData) (w : World) :
  REDIS_ENABLED (env w) && REDIS_SAVE_INSTANCES (env w) = true ->
  redis_up (env w) = false ->
  SessionRestorationService.persistInstanceState n d w
  = (Ok tt,
     with_trace (trace w ++ [Redis (SET (RedisCache.physical_key (env w) "instance" (SessionRestorationService.cacheKey n d))
                                        (SessionRestorationService.json_of_data d))]) w).
Proof.
  intros Hon Hdown. gateway. cbn. rewrite Hon. cbn. rewrite Hdown. reflexivity.
Qed.

Lemma cache_failure_skips_database_write_witness :
  let d := GracefulShutdownService.snapshot "alpha"
             (Sample.baileys "alpha" "abc123" "open" (Some Sample.ready_client)) in
  let w := with_db [Sample.row "abc123" "alpha" "close"]
             (Sample.empty_world Sample.env_redis_down) in
  SessionRestorationService.persistInstanceState "alpha" d w
  = (Ok tt,
     with_trace [Redis (SET "evolution_cache:instance:abc123"
                            (SessionRestorationService.json_of_data d))] w).
Proof.
  intros d w.
  apply (cache_failure_skips_database_write "alpha" d w); reflexivity.
Defined.

(** The same persist with the server reachable updates the row. *)
Lemma persist_updates_row_when_cache_is_up :
  let d := GracefulShutdownService.snapshot "alpha"
             (Sample.baileys "alpha" "abc123" "open" (Some Sample.ready_client)) in
  let w := with_db [Sample.row "abc123" "alpha" "close"] (Sample.empty_world Sample.env0) in
  db (snd (SessionRestorationService.persistInstanceState "alpha" d w))
  = [Sample.row "abc123" "alpha" "open"].
Proof. vm_compute. reflexivity. Qed.

(** ** The health sweep *)

Ltac health :=
  unfold ConnectionHealthService.checkInstanceHealth,
    ConnectionHealthService.correctFalseDisconnection,
    ConnectionHealthService.handleConnectionFailure,
    ConnectionHealthService.performPingTest,
    Prisma.update, Prisma.query, Prisma.status_only,
    Obj.sendDataWebhook, Obj.connectToWhatsapp, Obj.assign_state, Obj.ws_close,
    Obj.update, Obj.read, when,
    try_catch, bind, emit, modify, get_env, ret, throw.

Lemma total_handleConnectionFailure n r :
  Total (ConnectionHealthService.handleConnectionFailure n r).
Proof. total_auto. Qed.

Lemma close_socket_no_ws (i : Instance) : Obj.has_ws i = false -> Obj.close_socket i = i.
Proof.
  unfold Obj.has_ws, Obj.close_socket. destruct (client i) as [c|]; [|reflexivity].
  now destruct (ws c).
Qed.

Lemma handleConnectionFailure_run (n : string) (r : nat) (i : Instance) (w : World) :
  heap w !! r = Some i ->
  exists w',
    ConnectionHealthService.handleConnectionFailure n r w = (Ok tt, w')
    /\ heap w' = <[r := Obj.set_state "close" (Obj.close_socket i)]> (heap w)
    /\ trace w' = (trace w ++ (if Obj.has_ws i then [WsClose r] else [])
                   ++ [ConnectToWhatsapp r])%list
    /\ env w' = env w /\ redis w' = redis w /\ db w' = db w
    /\ waInstances w' = waInstances w.
Proof.
  intros Hobj. health. crunch.
  assert (Ha : forall f (j : Instance), heap w !! r = Some j ->
                 alter f r (heap w) = <[r := f j]> (heap w)).
  { intros f j Hj. apply map_eq. intros q. destruct (decide (q = r)) as [->|Hne].
    - now rewrite lookup_alter_eq, lookup_insert_eq, Hj.
    - now rewrite lookup_alter_ne, lookup_insert_ne by congruence. }
  destruct (Obj.has_ws i) eqn:Hws; crunch;
    destruct (connect_ok (env w) _); crunch;
    (eexists; split; [reflexivity|]); crunch; rewrite <- ?app_assoc;
    rewrite ?(close_socket_no_ws i Hws); repeat split; try reflexivity.
  all: rewrite ?(Ha _ i Hobj); try reflexivity.
  all: apply map_eq; intros q; destruct (decide (q = r)) as [->|Hne];
    [now rewrite lookup_alter_eq, !lookup_insert_eq
    |now rewrite lookup_alter_ne, !lookup_insert_ne by congruence].
Qed.





(** The check of an instance the read has nothing to do for comes
    down to the three state checks. *)
Ltac check_read Hobj Hkind Hs :=
  unfold ConnectionHealthService.checkInstanceHealth, try_catch;
  erewrite bind_ok by (apply read_ok; exact Hobj);
  rewrite (bool_decide_eq_true_2 _ Hkind); cbn [negb];
  erewrite bind_ok by (eapply verify_settled; [exact Hobj | exact Hs]).

Lemma settled_connecting (i : Instance) : state i = "connecting" -> settled i = true.
Proof. intros H. unfold settled. now rewrite H. Qed.

Lemma settled_open (i : Instance) :
  state i = "open" -> Obj.socket_ready i = true -> settled i = true.
Proof. intros H1 H2. unfold settled. now rewrite H1, H2. Qed.

Lemma settled_close (i : Instance) :
  state i = "close" -> Obj.socket_ready i && Obj.authenticated i = false ->
  settled i = true.
Proof. intros H1 H2. unfold settled. now rewrite H1, H2. Qed.

#[local] Instance object_kept_preorder r : PreOrder (object_kept r).
Proof.
  split; [now intros w | intros a b c H1 H2; unfold object_kept in *; congruence].
Qed.








(** ** The restoration run *)

Ltac stores_leaf := split; reflexivity.

Lemma sat_setInstance_stores d : Sat same_stores (WAMonitoringService.setInstance d).
Proof. unfold WAMonitoringService.setInstance. sat_auto ltac:(idtac; stores_leaf). Qed.

Lemma sat_restoreInstance_stores d : Sat same_stores (SessionRestorationService.restoreInstance d).
Proof.
  unfold SessionRestorationService.restoreInstance.
  sat_auto ltac:(idtac; stores_leaf). apply sat_setInstance_stores.
Qed.

#[local] Hint Resolve sat_restoreInstance_stores : sat_lemmas.

Lemma sat_restoreFromRedisCache_stores :
  Sat same_stores SessionRestorationService.restoreFromRedisCache.
Proof. sat_auto ltac:(idtac; stores_leaf). Qed.

Lemma sat_cache_get_stores k : Sat same_stores (cache.get k).
Proof. sat_auto ltac:(idtac; stores_leaf). Qed.

Lemma sat_cache_get_registry k : Sat same_registry (cache.get k).
Proof. sat_auto ltac:(idtac; reflexivity). Qed.

Lemma sat_cache_set_stores k v t : Sat same_stores (cache.set k v t).
Proof. sat_auto ltac:(idtac; stores_leaf). Qed.

Lemma sat_findInstanceInDatabase_stores k :
  Sat same_stores (SessionRestorationService.findInstanceInDatabase k).
Proof. sat_auto ltac:(idtac; stores_leaf). Qed.

Lemma sat_findInstanceInDatabase_registry k :
  Sat same_registry (SessionRestorationService.findInstanceInDatabase k).
Proof. sat_auto ltac:(idtac; reflexivity). Qed.

Lemma sat_cleanup_registry : Sat same_registry (cache.cleanupCorruptedKeys None).
Proof. sat_auto ltac:(idtac; reflexivity). Qed.

Lemma sat_keys_registry c : Sat same_registry (cache.keys c).
Proof. sat_auto ltac:(idtac; reflexivity). Qed.

Lemma sat_verify_registry :
  Sat same_registry SessionRestorationService.verifyRestoredConnections.
Proof. sat_auto ltac:(idtac; reflexivity). Qed.

Lemma total_cache_get k : Total (cache.get k).
Proof. total_auto. Qed.

Lemma total_findInstanceInDatabase k :
  Total (SessionRestorationService.findInstanceInDatabase k).
Proof. total_auto. Qed.

Lemma total_cleanup : Total (cache.cleanupCorruptedKeys None).
Proof. total_auto. Qed.

Lemma total_keys c : Total (cache.keys c).
Proof. total_auto. Qed.

Lemma total_verify : Total SessionRestorationService.verifyRestoredConnections.
Proof. total_auto. Qed.

(** A truthy answer of a read means the server answered. *)
Lemma cache_get_truthy k w :
  Json.truthy (match fst (cache.get k w) with Ok v => v | Throw _ => JNull end) = true ->
  redis_up (env w) = true.
Proof.
  unfold cache.get. engine. cbn.
  destruct (redis_up (env w)); [reflexivity|]. cbn. discriminate.
Qed.

(** The marker write succeeds whenever the server answers. *)
Lemma marker_write_ok k v w :
  redis_up (env w) = true -> exists w', cache.set k v (Some 300) w = (Ok tt, w').
Proof.
  intros Hup. unfold cache.set. engine. cbn. rewrite Hup. cbn. eauto.
Qed.

Lemma restoreInstance_throw_registry d w e w' :
  redis_up (env w) = true ->
  SessionRestorationService.restoreInstance d w = (Throw e, w') ->
  waInstances w' = waInstances w.
Proof.
  intros Hup. unfold SessionRestorationService.restoreInstance, try_catch.
  destruct (negb (Js.truthy_str (dto_instanceName d))); [cbn; intros H; discriminate H|].
  cbv zeta. unfold bind at 1, WAMonitoringService.lookup.
  destruct (WAMonitoringService.entry _ _) eqn:Hreg;
    [cbn; intros H; discriminate H | cbn; intros H; discriminate H |].
  apply entry_undefined in Hreg as [Hreg _].
  unfold bind.
  pose proof (sat_setInstance_stores d w) as [He _].
  destruct (WAMonitoringService.setInstance d w) as [[[]|e1] w1] eqn:Hset; cbn in He.
  - assert (Hup1 : redis_up (env w1) = true) by congruence.
    destruct (marker_write_ok
                (SessionRestorationService.restored_key
                   (WAMonitoringService.key_of (dto_instanceName d)))
                (JStr "true") w1 Hup1) as [w2 Hw2].
    rewrite Hw2. intros H; discriminate H.
  - unfold throw. intros [= <- <-].
    destruct (setInstance_registry d w) as [H|[r H]]; rewrite Hset in H; cbn in H; [exact H|].
    exfalso. revert Hset.
    unfold WAMonitoringService.setInstance, WAMonitoringService.init, Obj.connectToWhatsapp,
      Obj.read, emit, modify, get_env, get_world, bind, ret, throw.
    cbn. destruct (init_ok (env w) d); cbn; [|discriminate].
    rewrite lookup_insert_eq. cbn.
    destruct (connect_ok (env w) _); cbn; [discriminate|].
    intros [= _ <-]. cbn in H.
    apply (f_equal (fun m => m !! WAMonitoringService.key_of (dto_instanceName d))) in H.
    rewrite lookup_insert_eq in H. congruence.
Qed.

(** What one turn of the cache stage's loop can do to the count and
    the registry. *)
Lemma restoreKeyFromDatabase_count n ik w :
  redis_up (env w) = true ->
  exists r w',
    SessionRestorationService.restoreKeyFromDatabase n ik w = (r, w')
    /\ (r = Ok (n + 1)
        \/ (waInstances w' = waInstances w /\ (r = Ok n \/ exists e, r = Throw e))).
Proof.
  intros Hup. unfold SessionRestorationService.restoreKeyFromDatabase.
  unfold bind at 1, get_env.
  destruct (SAVE_DATA_INSTANCE (env w)); [|cbn; eauto 8].
  unfold bind at 1.
  pose proof (sat_findInstanceInDatabase_registry ik w) as Hr.
  pose proof (sat_findInstanceInDatabase_stores ik w) as [He _].
  destruct (total_findInstanceInDatabase ik w) as [o Ho].
  destruct (SessionRestorationService.findInstanceInDatabase ik w) as [[o'|e] w1];
    cbn in Ho, Hr, He; [|discriminate]. unfold same_registry in Hr; cbn in Hr.
  destruct o' as [d|]; [|cbn; eauto 8].
  unfold bind.
  destruct (SessionRestorationService.restoreInstance d w1) as [[[]|e] w2] eqn:Hrun.
  - cbn. eauto.
  - do 2 eexists. split; [reflexivity|]. right. split; [|eauto].
    rewrite <- Hr. eapply restoreInstance_throw_registry; [|exact Hrun]. congruence.
Qed.

Lemma restoreKeyFromCache_count n ik w :
  exists r w',
    SessionRestorationService.restoreKeyFromCache n ik w = (r, w')
    /\ env w' = env w
    /\ (r = Ok (n + 1)
        \/ (waInstances w' = waInstances w
            /\ (r = Ok n \/ (redis_up (env w) = true /\ exists e, r = Throw e)))).
Proof.
  unfold SessionRestorationService.restoreKeyFromCache.
  unfold bind at 1.
  pose proof (sat_cache_get_registry ik w) as Hr.
  pose proof (sat_cache_get_stores ik w) as [He _].
  pose proof (cache_get_truthy ik w) as Hup.
  destruct (total_cache_get ik w) as [v0 Hv].
  destruct (cache.get ik w) as [[v|e] w1]; cbn in Hv, Hr, He, Hup; [|discriminate].
  unfold same_registry in Hr; cbn in Hr.
  destruct (Json.truthy v) eqn:Htr; [|cbn; eauto 10].
  specialize (Hup eq_refl).
  assert (Hparse : exists r1,
             (match v with
              | JStr text => SessionRestorationService.parse text
              | _ => ret v
              end) w1 = (r1, w1)).
  { destruct v; cbn; eauto.
    unfold SessionRestorationService.parse, bind, get_env.
    destruct (JSON_parse (env w1) s); cbn; eauto. }
  destruct Hparse as [r1 Hparse]. unfold bind at 1. rewrite Hparse.
  destruct r1 as [pd|e]; [|eauto 12].
  destruct (SessionRestorationService.looks_like_instance pd); [|cbn; eauto 12].
  unfold bind.
  pose proof (sat_restoreInstance_stores (SessionRestorationService.dto_of_json pd) w1)
    as [He2 _].
  destruct (SessionRestorationService.restoreInstance _ w1) as [[[]|e] w2] eqn:Hrun;
    cbn in He2.
  - do 2 eexists. split; [reflexivity|]. split; [congruence | now left].
  - do 2 eexists. split; [reflexivity|]. split; [congruence|]. right.
    split; [|eauto]. rewrite <- Hr.
    eapply restoreInstance_throw_registry; [|exact Hrun]. congruence.
Qed.

Lemma restoreFromRedisKey_count n k w :
  exists c w',
    SessionRestorationService.restoreFromRedisKey n k w = (Ok c, w')
    /\ (c = n + 1 \/ (c = n /\ waInstances w' = waInstances w)).
Proof.
  unfold SessionRestorationService.restoreFromRedisKey.
  cbv zeta. unfold try_catch at 1.
  destruct (_ && _); [|cbn; eauto 8].
  destruct (SessionRestorationService.is_auxiliary _); [cbn; eauto 8|].
  unfold try_catch.
  destruct (restoreKeyFromCache_count n (Js.join ":" (drop 2 (Js.split ":" k))) w)
    as (r & w1 & -> & He & [->|[Hreg [->|[Hup [e ->]]]]]).
  - eauto.
  - eauto 8.
  - assert (Hup1 : redis_up (env w1) = true) by congruence.
    destruct (restoreKeyFromDatabase_count n (Js.join ":" (drop 2 (Js.split ":" k))) w1 Hup1)
      as (r2 & w2 & -> & [->|[Hreg2 [->|[e2 ->]]]]).
    + eauto.
    + do 2 eexists. split; [reflexivity|]. right. split; [reflexivity | congruence].
    + do 2 eexists. split; [reflexivity|]. right. split; [reflexivity | congruence].
Qed.

Lemma cache_loop_count ks : forall n w,
  exists c w',
    for_fold ks n SessionRestorationService.restoreFromRedisKey w = (Ok c, w')
    /\ n <= c /\ (c = n -> waInstances w' = waInstances w).
Proof.
  induction ks as [|k ks IH]; intros n w; cbn [for_fold].
  - exists n, w. split; [reflexivity|]. split; [lia | reflexivity].
  - unfold bind.
    destruct (restoreFromRedisKey_count n k w) as (c1 & w1 & -> & Hc1).
    destruct (IH c1 w1) as (c & w' & -> & Hle & Hsame).
    exists c, w'. split; [reflexivity|]. split; [lia|].
    intros ->. destruct Hc1 as [->|[-> Hreg]]; [lia|].
    rewrite Hsame by reflexivity. exact Hreg.
Qed.

(** The cache stage never throws, and when it reports zero restored
    instances it has left the registry as it was. *)
Lemma cache_stage_count w :
  exists c w',
    SessionRestorationService.restoreFromRedisCache w = (Ok c, w')
    /\ (c = 0 -> waInstances w' = waInstances w).
Proof.
  unfold SessionRestorationService.restoreFromRedisCache.
  unfold try_catch, bind at 1.
  pose proof (sat_cleanup_registry w) as Hr1.
  destruct (total_cleanup w) as [x Hx].
  destruct (cache.cleanupCorruptedKeys None w) as [[x'|e] w1]; cbn in Hx, Hr1; [|discriminate].
  unfold same_registry in Hr1; cbn in Hr1.
  unfold bind at 1.
  pose proof (sat_keys_registry (Some EmptyString) w1) as Hr2.
  destruct (total_keys (Some EmptyString) w1) as [y Hy].
  destruct (cache.keys (Some EmptyString) w1) as [[ks|e] w2]; cbn in Hy, Hr2; [|discriminate].
  unfold same_registry in Hr2; cbn in Hr2.
  destruct ks as [[|k0 ks0]|].
  - cbn. do 2 eexists. split; [reflexivity|]. intros _. congruence.
  - destruct (cache_loop_count (k0 :: ks0) 0 w2) as (c & w3 & Hrun & _ & Hsame).
    rewrite Hrun. do 2 eexists. split; [reflexivity|].
    intros ->. rewrite Hsame by reflexivity. congruence.
  - cbn. do 2 eexists. split; [reflexivity|]. intros _. congruence.
Qed.

#[local] Instance trace_grows_preorder : PreOrder trace_grows.
Proof.
  split.
  - intros w. exists []. symmetry. apply app_nil_r.
  - intros a b c [t1 H1] [t2 H2]. exists (t1 ++ t2)%list. now rewrite H2, H1, app_assoc.
Qed.

Ltac grows_leaf :=
  first [ eexists [_]; reflexivity | exists []; symmetry; apply app_nil_r ].

Lemma sat_restoreInstance_grows d :
  Sat trace_grows (SessionRestorationService.restoreInstance d).
Proof.
  unfold SessionRestorationService.restoreInstance, WAMonitoringService.setInstance.
  sat_auto ltac:(idtac; grows_leaf).
Qed.

#[local] Hint Resolve sat_restoreInstance_grows : sat_lemmas.

Lemma sat_verify_grows : Sat trace_grows SessionRestorationService.verifyRestoredConnections.
Proof. sat_auto ltac:(idtac; grows_leaf). Qed.

Lemma restoreInstance_fresh d nm w :
  dto_instanceName d = Some nm ->
  Js.nonempty nm = true ->
  WAMonitoringService.entry (waInstances w) nm = WAMonitoringService.Undefined ->
  init_ok (env w) d = true ->
  connect_ok (env w) nm = true ->
  exists r w',
    SessionRestorationService.restoreInstance d w = (r, w')
    /\ waInstances w' = <[nm := next_ref w]> (waInstances w)
    /\ env w' = env w.
Proof.
  intros Hn Hne Hreg Hinit Hconn.
  unfold SessionRestorationService.restoreInstance.
  rewrite Hn. cbn [Js.truthy_str WAMonitoringService.key_of default from_option id].
  rewrite Hne. cbn [negb]. cbv zeta.
  unfold try_catch, bind at 1, WAMonitoringService.lookup. rewrite Hreg.
  destruct (setInstance_ok d w Hinit) as (w1 & Hrun & Hr & _ & _ & He & _).
  { now rewrite Hn. }
  rewrite Hn in Hr. cbn in Hr.
  unfold bind at 1. rewrite Hrun.
  pose proof (sat_cache_set_registry (SessionRestorationService.restored_key nm)
                (JStr "true") (Some 300) w1) as Hs.
  pose proof (sat_cache_set_stores (SessionRestorationService.restored_key nm)
                (JStr "true") (Some 300) w1) as [Hs2 _].
  unfold same_registry in Hs.
  destruct (cache.set _ _ _ w1) as [[[]|e] w2]; cbn in Hs, Hs2;
    (do 2 eexists; split; [reflexivity|]; split; congruence).
Qed.

Lemma database_loop rows : forall n w,
  NoDup (map row_name rows) ->
  Forall (registrable w) rows ->
  exists c w',
    for_fold rows n (fun restored instance =>
      try_catch
        (SessionRestorationService.restoreInstance
           (SessionRestorationService.dto_of_row instance) >> ret (restored + 1))
        (fun _ => ret restored)) w = (Ok c, w')
    /\ env w' = env w
    /\ dom (waInstances w') = dom (waInstances w) ∪ list_to_set (map row_name rows)
    /\ size (waInstances w') = (size (waInstances w) + length rows)%nat.
Proof.
  induction rows as [|row rows IH]; intros n w Hnd Hall; cbn [for_fold].
  - exists n, w. cbn. split; [reflexivity|]. split; [reflexivity|].
    split; [now rewrite union_empty_r_L | lia].
  - apply Forall_cons in Hall as [(Hne & Hreg & Hinit & Hconn) Hall].
    cbn [map] in Hnd. apply NoDup_cons in Hnd as [Hnotin Hnd].
    destruct (restoreInstance_fresh (SessionRestorationService.dto_of_row row)
                (row_name row) w eq_refl Hne Hreg Hinit Hconn)
      as (r & w1 & Hrun & Hr1 & He1).
    assert (Hstep : exists c1,
               try_catch
                 (SessionRestorationService.restoreInstance
                    (SessionRestorationService.dto_of_row row) >> ret (n + 1))
                 (fun _ => ret n) w = (Ok c1, w1)).
    { unfold try_catch, bind. rewrite Hrun. destruct r as [[]|e]; cbn; eauto. }
    destruct Hstep as [c1 Hstep].
    assert (Hall1 : Forall (registrable w1) rows).
    { rewrite Forall_forall in Hall. apply Forall_forall. intros x Hx.
      destruct (Hall x Hx) as (H1 & H2 & H3 & H4).
      unfold registrable. rewrite He1, Hr1. repeat split; try assumption.
      apply entry_undefined in H2 as [H2 H2'].
      apply entry_fresh; [|exact H2'].
      rewrite lookup_insert_ne; [assumption|].
      intros Heq. apply Hnotin. rewrite Heq. apply list_elem_of_fmap. eauto. }
    destruct (IH c1 w1 Hnd Hall1) as (c & w' & Hloop & He & Hdom & Hsize).
    exists c, w'. unfold bind at 1. rewrite Hstep. split; [exact Hloop|].
    split; [congruence|]. split.
    + rewrite Hdom, Hr1, dom_insert_L. cbn [map list_to_set foldr].
      rewrite (comm_L (∪) {[row_name row]} (dom (waInstances w))).
      now rewrite <- (assoc_L (∪)).
    + apply entry_undefined in Hreg as [Hreg _].
      rewrite Hsize, Hr1, map_size_insert_None by assumption. cbn [length]. lia.
Qed.

Lemma restoreFromDatabase_registers w :
  db_up (env w) = true ->
  NoDup (map row_name (eligible_rows w)) ->
  Forall (registrable w) (eligible_rows w) ->
  exists c w',
    SessionRestorationService.restoreFromDatabase (CLIENT_NAME (env w)) w = (Ok c, w')
    /\ env w' = env w
    /\ dom (waInstances w') = dom (waInstances w) ∪ list_to_set (map row_name (eligible_rows w))
    /\ size (waInstances w') = (size (waInstances w) + length (eligible_rows w))%nat.
Proof.
  intros Hup Hnd Hall.
  unfold SessionRestorationService.restoreFromDatabase, Prisma.findManyEligible, Prisma.query.
  unfold try_catch at 1, bind at 1, bind at 1, emit, modify.
  cbn -[for_fold try_catch]. rewrite Hup. fold (eligible_rows w).
  destruct (eligible_rows w) as [|row rows] eqn:Hrows.
  - cbn. do 2 eexists. split; [reflexivity|]. cbn. split; [reflexivity|].
    split; [now rewrite union_empty_r_L | lia].
  - set (w0 := with_db _ _).
    destruct (database_loop (row :: rows) 0 w0 Hnd) as (c & w' & Hloop & He & Hdom & Hsize).
    { exact Hall. }
    rewrite Hloop. exists c, w'. split; [reflexivity|]. repeat split; assumption.
Qed.

Lemma restoreFromDatabase_emits c w :
  exists n w' t,
    SessionRestorationService.restoreFromDatabase c w = (Ok n, w')
    /\ trace w' = (trace w ++ DbFindMany c :: t)%list.
Proof.
  unfold SessionRestorationService.restoreFromDatabase, Prisma.findManyEligible, Prisma.query.
  unfold try_catch at 1, bind at 1, bind at 1, emit, modify.
  cbn -[for_fold try_catch].
  destruct (db_up (env w)).
  - set (w0 := with_db _ _). set (k := match _ with [] => _ | _ => _ end).
    assert (Hk : Sat trace_grows k).
    { subst k. sat_auto ltac:(idtac; grows_leaf). }
    destruct (Hk w0) as [t Ht].
    destruct (k w0) as [[n|e] w1]; cbn in Ht; cbn;
      (do 3 eexists; split; [reflexivity|]; rewrite Ht; subst w0; cbn;
       now rewrite <- app_assoc).
  - exists 0, (with_trace (trace w ++ [DbFindMany c]) w), []. split; reflexivity.
Qed.

Lemma restoreFromProviderFiles_run w :
  SessionRestorationService.restoreFromProviderFiles w
  = (Ok 0, with_trace (trace w ++ [LogInfo "Attempting to restore sessions from provider files"]) w).
Proof. reflexivity. Qed.

(** The sweep that opens the cache stage scans the namespace of the
    instance cache, whether or not the server answers. *)
Lemma cleanup_emits w :
  exists x w1 t,
    cache.cleanupCorruptedKeys None w = (Ok x, w1)
    /\ trace w1 = (trace w ++ Redis (SCAN (cache_pattern w)) :: t)%list.
Proof.
  unfold cache.cleanupCorruptedKeys, RedisCache.cleanupCorruptedKeys, RedisCache.buildKey,
    RedisClient.scan, RedisClient.command.
  unfold try_catch at 1, bind at 1, bind at 1, get_env, ret at 1. cbv zeta.
  unfold bind at 1, bind at 1, emit, modify.
  cbn -[for_fold try_catch filter].
  destruct (redis_up (env w)).
  - set (w0 := with_redis _ _). set (k := for_fold _ _ _).
    assert (Hk : Sat trace_grows k).
    { subst k. sat_auto ltac:(idtac; grows_leaf). }
    destruct (Hk w0) as [t Ht].
    destruct (k w0) as [[n|e] w1]; cbn in Ht; cbn;
      (do 3 eexists; split; [reflexivity|]; rewrite Ht; subst w0; cbn;
       now rewrite <- app_assoc).
  - do 3 eexists. split; [reflexivity|]. cbn. reflexivity.
Qed.

Lemma cache_stage_emits w :
  exists c w1 t,
    SessionRestorationService.restoreFromRedisCache w = (Ok c, w1)
    /\ trace w1 = (trace w ++ Redis (SCAN (cache_pattern w)) :: t)%list.
Proof.
  destruct (cache_stage_count w) as (c & w1 & Hrun & _).
  exists c, w1.
  cut (exists t, trace w1 = (trace w ++ Redis (SCAN (cache_pattern w)) :: t)%list).
  { intros [t Ht]. now exists t. }
  assert (Hg : Sat trace_grows
                 (let! keys := cache.keys (Some EmptyString) in
                  match keys with
                  | None => ret 0
                  | Some [] => ret 0
                  | Some ks => for_fold ks 0 SessionRestorationService.restoreFromRedisKey
                  end)).
  { sat_auto ltac:(idtac; grows_leaf). }
  destruct (cleanup_emits w) as (x & wa & t & Hc & Ht).
  revert Hrun. unfold SessionRestorationService.restoreFromRedisCache.
  unfold try_catch at 1, bind at 1. rewrite Hc.
  match goal with |- context [bind (cache.keys ?a) ?k wa] =>
    specialize (Hg wa); destruct (bind (cache.keys a) k wa) as [[c'|e] wb]
  end; cbn in Hg; destruct Hg as [t' Ht'].
  - intros [= <- <-]. exists (t ++ t')%list. rewrite Ht', Ht, <- app_assoc. reflexivity.
  - unfold bind at 1, get_env.
    destruct (SAVE_DATA_INSTANCE (env wb)).
    + destruct (restoreFromDatabase_emits (CLIENT_NAME (env wb)) wb) as (n & w2 & t2 & H2 & Ht2).
      rewrite H2. intros [= <- <-].
      exists (t ++ t' ++ DbFindMany (CLIENT_NAME (env wb)) :: t2)%list.
      rewrite Ht2, Ht', Ht, <- !app_assoc. reflexivity.
    + cbn. intros [= <- <-]. exists (t ++ t')%list. rewrite Ht', Ht, <- app_assoc. reflexivity.
Qed.

(** The stages of a startup run with the relational tier enabled. *)
Lemma restoreAllSessions_run w :
  SAVE_DATA_INSTANCE (env w) = true ->
  exists c1 w1 n w2 w3 w4,
    (if REDIS_ENABLED (env w) && REDIS_SAVE_INSTANCES (env w)
     then SessionRestorationService.restoreFromRedisCache else ret 0) w = (Ok c1, w1)
    /\ SessionRestorationService.restoreFromDatabase (CLIENT_NAME (env w)) w1 = (Ok n, w2)
    /\ (if c1 + n =? 0 then SessionRestorationService.restoreFromProviderFiles else ret 0) w2
       = (Ok 0, w3)
    /\ SessionRestorationService.verifyRestoredConnections w3 = (Ok tt, w4)
    /\ SessionRestorationService.restoreAllSessions w = (Ok tt, w4).
Proof.
  intros Hdb.
  assert (H1 : exists c1 w1,
             (if REDIS_ENABLED (env w) && REDIS_SAVE_INSTANCES (env w)
              then SessionRestorationService.restoreFromRedisCache else ret 0) w
             = (Ok c1, w1)).
  { destruct (_ && _); [|cbn; eauto].
    destruct (cache_stage_count w) as (c & w1 & H & _). eauto. }
  destruct H1 as (c1 & w1 & H1).
  destruct (restoreFromDatabase_emits (CLIENT_NAME (env w)) w1) as (n & w2 & t & H2 & _).
  assert (H3 : exists w3,
             (if c1 + n =? 0 then SessionRestorationService.restoreFromProviderFiles else ret 0) w2
             = (Ok 0, w3)).
  { destruct (c1 + n =? 0); [rewrite restoreFromProviderFiles_run|]; eauto. }
  destruct H3 as (w3 & H3).
  destruct (total_verify w3) as [[] H4].
  destruct (SessionRestorationService.verifyRestoredConnections w3) as [[[]|e] w4] eqn:Hv;
    cbn in H4; [|discriminate].
  exists c1, w1, n, w2, w3, w4. repeat split; try assumption.
  unfold SessionRestorationService.restoreAllSessions.
  unfold try_catch, bind at 1, get_env. cbv zeta.
  unfold bind at 1. rewrite H1. rewrite Hdb.
  unfold bind at 1. rewrite H2.
  unfold bind at 1. rewrite H3. now rewrite Hv.
Qed.

(** C1. A startup run with the relational tier enabled goes through
    its stages in order.  The cache stage runs when the cache tier is
    enabled for session storage, and then it scans the namespace of the
    instance cache.  The database stage runs next, whatever the cache
    stage restored: it queries the store for the rows of the client.
    The file stage runs exactly when the two counts sum to zero: its
    line is logged then and only then.  The deferred verification is
    scheduled last, and the run does not raise.  When the cache stage
    is disabled or restores nothing, and the rows the store holds for
    the client with status [open] or [connecting] have distinct names
    that the registry does not answer for and that can be instantiated
    and connected, the run registers exactly these rows: the registry's
    names are the former ones and the rows' names, its size has grown
    by the number of rows, and every former entry is unchanged. *)
Theorem startup_run_registers_eligible_rows (w : World) :
  SAVE_DATA_INSTANCE (env w) = true ->
  (exists c d w1 w2 w3 w',
     (if REDIS_ENABLED (env w) && REDIS_SAVE_INSTANCES (env w)
      then SessionRestorationService.restoreFromRedisCache else ret 0) w = (Ok c, w1)
     /\ (if REDIS_ENABLED (env w) && REDIS_SAVE_INSTANCES (env w)
         then exists t, trace w1 = (trace w ++ Redis (SCAN (cache_pattern w)) :: t)%list
         else c = 0 /\ w1 = w)
     /\ SessionRestorationService.restoreFromDatabase (CLIENT_NAME (env w)) w1 = (Ok d, w2)
     /\ (exists t, trace w2 = (trace w1 ++ DbFindMany (CLIENT_NAME (env w)) :: t)%list)
     /\ (if c + d =? 0 then SessionRestorationService.restoreFromProviderFiles else ret 0) w2
        = (Ok 0, w3)
     /\ w3 = (if c + d =? 0
              then with_trace
                     (trace w2 ++ [LogInfo "Attempting to restore sessions from provider files"])
                     w2
              else w2)
     /\ SessionRestorationService.verifyRestoredConnections w3 = (Ok tt, w')
     /\ SessionRestorationService.restoreAllSessions w = (Ok tt, w'))
  /\ In (DbFindMany (CLIENT_NAME (env w)))
        (trace (snd (SessionRestorationService.restoreAllSessions w)))
  /\ (REDIS_ENABLED (env w) && REDIS_SAVE_INSTANCES (env w) = false
      \/ fst (SessionRestorationService.restoreFromRedisCache w) = Ok 0 ->
      db_up (env w) = true ->
      NoDup (map row_name (eligible_rows w)) ->
      Forall (registrable w) (eligible_rows w) ->
      exists w',
        SessionRestorationService.restoreAllSessions w = (Ok tt, w')
        /\ dom (waInstances w')
           = dom (waInstances w) ∪ list_to_set (map row_name (eligible_rows w))
        /\ size (waInstances w') = (size (waInstances w) + length (eligible_rows w))%nat
        /\ (forall n r, waInstances w !! n = Some r -> waInstances w' !! n = Some r)).
Proof.
  intros Hdb.
  destruct (restoreAllSessions_run w Hdb)
    as (c1 & w1 & n & w2 & w3 & w4 & H1 & H2 & H3 & H4 & Hrun).
  assert (Hfile : w3 = (if c1 + n =? 0
                        then with_trace
                               (trace w2
                                ++ [LogInfo "Attempting to restore sessions from provider files"])
                               w2
                        else w2)).
  { revert H3. destruct (c1 + n =? 0).
    - rewrite restoreFromProviderFiles_run. now intros [= <-].
    - cbn. now intros [= <-]. }
  assert (Hreg3 : waInstances w3 = waInstances w2).
  { rewrite Hfile. now destruct (c1 + n =? 0). }
  destruct (restoreFromDatabase_emits (CLIENT_NAME (env w)) w1) as (n' & w2' & t & H2' & Ht).
  rewrite H2 in H2'. injection H2' as <- <-.
  split; [|split].
  - exists c1, n, w1, w2, w3, w4. split; [exact H1|]. split.
    { destruct (REDIS_ENABLED (env w) && REDIS_SAVE_INSTANCES (env w)).
      - destruct (cache_stage_emits w) as (c & wa & ta & Ha & Hta).
        rewrite Ha in H1. injection H1 as <- <-. now exists ta.
      - cbn in H1. injection H1 as <- <-. now split. }
    split; [exact H2|]. split; [now exists t|]. now repeat split.
  - rewrite Hrun. cbn [snd].
    destruct (sat_verify_grows w3) as [t' Ht']. rewrite H4 in Ht'. cbn in Ht'.
    rewrite Ht'. apply in_or_app. left.
    assert (Hin : In (DbFindMany (CLIENT_NAME (env w))) (trace w2)).
    { rewrite Ht. apply in_or_app. right. now left. }
    rewrite Hfile. destruct (c1 + n =? 0); [|exact Hin].
    cbn. apply in_or_app. now left.
  - intros Hzero Hup Hnd Hall. exists w4. split; [exact Hrun|].
    assert (Hw1 : waInstances w1 = waInstances w /\ env w1 = env w /\ db w1 = db w).
    { destruct (REDIS_ENABLED (env w) && REDIS_SAVE_INSTANCES (env w)) eqn:Hon.
      - destruct Hzero as [Hoff|Hz]; [discriminate|].
        destruct (cache_stage_count w) as (c & w1' & Hc & Hsame).
        rewrite Hc in H1, Hz. injection H1 as <- <-. cbn in Hz. injection Hz as ->.
        pose proof (sat_restoreFromRedisCache_stores w) as [He Hd].
        rewrite Hc in He, Hd. cbn in He, Hd. auto.
      - cbn in H1. injection H1 as <- <-. auto. }
    destruct Hw1 as (Hreg1 & He1 & Hd1).
    assert (Hrows : eligible_rows w1 = eligible_rows w).
    { unfold eligible_rows. now rewrite He1, Hd1. }
    destruct (restoreFromDatabase_registers w1) as (c & w2' & Hc & He2 & Hdom & Hsize).
    { now rewrite He1. }
    { now rewrite Hrows. }
    { rewrite Hrows. eapply Forall_impl; [exact Hall|].
      intros row (Ha & Hb & Hc & Hd). unfold registrable. rewrite Hreg1, He1. auto. }
    rewrite He1, H2 in Hc. injection Hc as <- <-.
    pose proof (sat_verify_registry w3) as Hv. rewrite H4 in Hv.
    unfold same_registry in Hv. cbn in Hv.
    rewrite Hv, Hreg3, Hdom, Hsize, Hreg1, Hrows. repeat split.
    pose proof (sat_restoreAllSessions_kept w) as Hk. rewrite Hrun in Hk. cbn in Hk.
    intros n0 r Hn. rewrite <- Hreg3, <- Hv. now apply Hk.
Qed.

Lemma startup_run_registers_eligible_rows_witness :
  let w := with_db [Sample.row "id1" "alpha" "open"; Sample.row "id2" "beta" "close";
                    Sample.row "id3" "gamma" "connecting"]
             (Sample.empty_world Sample.env0) in
  exists w',
    SessionRestorationService.restoreAllSessions w = (Ok tt, w')
    /\ dom (waInstances w')
       = dom (waInstances w) ∪ list_to_set (map row_name (eligible_rows w))
    /\ size (waInstances w') = (size (waInstances w) + length (eligible_rows w))%nat
    /\ (forall n r, waInstances w !! n = Some r -> waInstances w' !! n = Some r).
Proof.
  intro w.
  destruct (startup_run_registers_eligible_rows w) as (_ & _ & H); [reflexivity|].
  apply H.
  - right. vm_compute. reflexivity.
  - reflexivity.
  - apply (bool_decide_unpack (NoDup (map row_name (eligible_rows w)))).
    vm_compute. exact I.
  - vm_compute. repeat constructor.
Defined.

(** The cache stage restores instance ["alpha"] from its record, and
    the run goes on to query the relational store. *)
Lemma database_stage_not_gated : ~ database_stage_gated.
Proof.
  intros H.
  destruct (H Sample_cached eq_refl) as [H1|H1].
  - vm_compute. tauto.
  - vm_compute in H1. discriminate H1.
  - vm_compute in H1. discriminate H1.
Qed.

(** * Further properties *)

(** ** Text: splitting, joining and decimal numerals *)

Lemma includes_char_cons (c d : ascii) (s : string) :
  Js.includes (String c EmptyString) (String d s)
  = if Ascii.eqb c d then true else Js.includes (String c EmptyString) s.
Proof.
  cbn [Js.includes String.prefix].
  destruct (Ascii.ascii_dec c d) as [->|Hne].
  - rewrite (proj2 (Ascii.eqb_eq d d) eq_refl). now destruct s.
  - apply Ascii.eqb_neq in Hne. rewrite Hne. reflexivity.
Qed.

Lemma split_no_sep (c : ascii) (p s : string) :
  Js.includes (String c EmptyString) p = false ->
  Js.split c (p +:+ String c s) = p :: Js.split c s.
Proof.
  induction p as [|d p IH]; intros H.
  - change (EmptyString +:+ String c s) with (String c s).
    cbn [Js.split]. now rewrite (proj2 (Ascii.eqb_eq c c) eq_refl).
  - rewrite includes_char_cons in H.
    destruct (Ascii.eqb c d) eqn:E; [discriminate|].
    change (String d p +:+ String c s) with (String d (p +:+ String c s)).
    cbn [Js.split]. rewrite Ascii.eqb_sym, E. now rewrite (IH H).
Qed.

Lemma split_nonempty (c : ascii) (s : string) : Js.split c s <> [].
Proof.
  destruct s as [|d s]; cbn; [discriminate|].
  destruct (Ascii.eqb d c); [discriminate|]. now destruct (Js.split c s).
Qed.

Lemma join_split (c : ascii) (s : string) :
  Js.join (String c EmptyString) (Js.split c s) = s.
Proof.
  induction s as [|d s IH]; [reflexivity|].
  cbn [Js.split]. destruct (Ascii.eqb d c) eqn:E.
  - apply Ascii.eqb_eq in E. subst d.
    destruct (Js.split c s) as [|h t] eqn:Hs; [now destruct (split_nonempty c s)|].
    cbn [Js.join]. cbn. now rewrite <- IH.
  - destruct (Js.split c s) as [|h t] eqn:Hs; [now destruct (split_nonempty c s)|].
    rewrite <- IH. destruct t; reflexivity.
Qed.

Lemma digit_of_code (d : Z) :
  0 <= d < 10 -> Js.digit_of (ascii_of_nat (Z.to_nat (48 + d))) = Some d.
Proof.
  intros H. replace d with (Z.of_nat (Z.to_nat d)) by lia.
  assert (Hn : (Z.to_nat d < 10)%nat) by lia.
  generalize dependent (Z.to_nat d). intros n Hn.
  do 10 (destruct n as [|n]; [reflexivity|]). lia.
Qed.

Lemma digits_numeral (f : nat) : forall n acc A,
  (1 <= f)%nat -> 0 <= n < 2 ^ Z.of_nat f ->
  exists q, Js.digits A (Js.digits_of_pos f n acc)
            = Js.digits (Some (q * default 0 A + n)) acc.
Proof.
  induction f as [|f IH]; intros n acc A Hf Hn; [lia|].
  cbn [Js.digits_of_pos]. cbv zeta.
  assert (Hd : 0 <= n mod 10 < 10) by (apply Z.mod_pos_bound; lia).
  destruct (n / 10 =? 0) eqn:Hq.
  - apply Z.eqb_eq in Hq.
    assert (Hsmall : n mod 10 = n).
    { rewrite (Z.div_mod n 10) at 2 by lia. rewrite Hq. lia. }
    exists 10. cbn [Js.digits]. rewrite (digit_of_code _ Hd). now rewrite Hsmall.
  - apply Z.eqb_neq in Hq.
    assert (Hbig : 10 <= n).
    { destruct (Z_lt_le_dec n 10) as [Hlt|]; [|assumption].
      destruct Hq. apply Z.div_small. lia. }
    assert (Hf' : (1 <= f)%nat).
    { destruct f as [|f]; [|lia]. cbn in Hn. lia. }
    assert (Hpow : 2 ^ Z.of_nat (S f) = 2 * 2 ^ Z.of_nat f).
    { rewrite Nat2Z.inj_succ, Z.pow_succ_r by lia. reflexivity. }
    assert (Hn' : 0 <= n / 10 < 2 ^ Z.of_nat f).
    { split; [apply Z.div_pos; lia|]. apply Z.div_lt_upper_bound; lia. }
    destruct (IH (n / 10) (String (ascii_of_nat (Z.to_nat (48 + n mod 10))) acc) A Hf' Hn')
      as [q Hq'].
    exists (10 * q). rewrite Hq'. cbn [Js.digits]. rewrite (digit_of_code _ Hd).
    cbn [default]. f_equal. f_equal.
    pose proof (Z.div_mod n 10 ltac:(lia)) as Hdm.
    generalize dependent (n / 10). generalize dependent (n mod 10).
    generalize (default 0 A). intros. unfold id. nia.
Qed.

Lemma digits_of_pos_head (f : nat) : forall n acc,
  0 <= n ->
  exists c s d, Js.digits_of_pos (S f) n acc = String c s /\ Js.digit_of c = Some d.
Proof.
  induction f as [|f IH]; intros n acc Hn;
    assert (Hd : 0 <= n mod 10 < 10) by (apply Z.mod_pos_bound; lia).
  - cbn [Js.digits_of_pos]. cbv zeta. destruct (n / 10 =? 0);
      eexists _, _, _; (split; [reflexivity | apply (digit_of_code _ Hd)]).
  - change (Js.digits_of_pos (S (S f)) n acc)
      with (let acc' := String (ascii_of_nat (Z.to_nat (48 + n mod 10))) acc in
            if n / 10 =? 0 then acc' else Js.digits_of_pos (S f) (n / 10) acc').
    cbv zeta. destruct (n / 10 =? 0).
    + eexists _, _, _; (split; [reflexivity | apply (digit_of_code _ Hd)]).
    + apply IH. apply Z.div_pos; lia.
Qed.

Lemma digits_of_pos_numeral (f : nat) : forall n acc,
  0 <= n -> numeral acc = true -> numeral (Js.digits_of_pos f n acc) = true.
Proof.
  induction f as [|f IH]; intros n acc Hn Hacc; [exact Hacc|].
  assert (Hd : 0 <= n mod 10 < 10) by (apply Z.mod_pos_bound; lia).
  cbn [Js.digits_of_pos]. cbv zeta.
  assert (Hacc' : numeral (String (ascii_of_nat (Z.to_nat (48 + n mod 10))) acc) = true).
  { cbn [numeral]. now rewrite (digit_of_code _ Hd). }
  destruct (n / 10 =? 0); [exact Hacc'|].
  apply IH; [apply Z.div_pos; lia | exact Hacc'].
Qed.

Lemma parseInt_numeral (c : ascii) (s : string) :
  numeral (String c s) = true -> Js.parseInt (String c s) = Js.digits None (String c s).
Proof.
  cbn [numeral]. destruct (Js.digit_of c) as [d|] eqn:Hc; [|discriminate].
  intros Hs.
  destruct c as [[] [] [] [] [] [] [] []]; vm_compute in Hc; try discriminate Hc;
    try reflexivity.
  destruct s as [|b s]; [reflexivity|].
  cbn [numeral] in Hs. destruct (Js.digit_of b) as [d'|] eqn:Hb; [|discriminate].
  destruct b as [[] [] [] [] [] [] [] []]; vm_compute in Hb; try discriminate Hb;
    reflexivity.
Qed.

(** [parseInt(n.toString())] is [n] for a natural number [n]. *)
Lemma parseInt_toString (n : Z) : 0 <= n -> Js.parseInt (Js.toString n) = Some n.
Proof.
  intros Hn. unfold Js.toString.
  destruct (n <? 0) eqn:Hneg; [apply Z.ltb_lt in Hneg; lia|].
  pose proof (digits_of_pos_numeral (S (Z.to_nat (Z.log2 n))) n EmptyString Hn eq_refl)
    as Hnum.
  destruct (digits_of_pos_head (Z.to_nat (Z.log2 n)) n EmptyString Hn)
    as (c & s & d & Hs & Hc).
  rewrite Hs in Hnum. rewrite Hs, (parseInt_numeral c s Hnum), <- Hs.
  assert (Hbound : 0 <= n < 2 ^ Z.of_nat (S (Z.to_nat (Z.log2 n)))).
  { split; [assumption|].
    rewrite Nat2Z.inj_succ, Z2Nat.id by apply Z.log2_nonneg.
    destruct (Z.eq_dec n 0) as [->|Hnz]; [reflexivity|].
    apply Z.log2_spec. lia. }
  destruct (digits_numeral (S (Z.to_nat (Z.log2 n))) n EmptyString None
              ltac:(lia) Hbound) as [q Hq].
  rewrite Hq. cbn. f_equal. lia.
Qed.

(** ** The cache engine: what a caller can rely on *)

(** X1. With the server reachable and a valid expiry, [set] succeeds
    whatever the key held before (SET and SETEX overwrite a key of any
    type), the key then holds the value as a string, persistent for a
    TTL of 0 and expiring after the TTL given or configured otherwise,
    and a following [get] returns the value. *)
Theorem set_get_roundtrip (m key : string) (v : json) (ttl : option Z) (w : World) :
  redis_up (env w) = true ->
  match ttl with Some t => 0 <= t | None => 0 < REDIS_TTL (env w) end ->
  exists w',
    RedisCache.set m key v ttl w = (Ok tt, w')
    /\ redis w' = <[RedisCache.physical_key (env w) m key :=
                      {| rval := RString v;
                         rttl := match ttl with
                                 | Some 0 => None
                                 | Some t => Some t
                                 | None => Some (REDIS_TTL (env w))
                                 end |}]> (redis w)
    /\ fst (RedisCache.get m key w') = Ok v.
Proof.
  intros Hup Httl. engine.
  destruct ttl as [[|p|p]|]; [| |lia|]; crunch.
  - finish. crunch. reflexivity.
  - finish. crunch. reflexivity.
  - destruct (REDIS_TTL (env w) <=? 0) eqn:E; [apply Z.leb_le in E; lia|].
    crunch. finish. crunch. reflexivity.
Qed.

Lemma set_get_roundtrip_witness :
  let w := with_redis {[ "evolution_cache:instance:alpha" :=
                           {| rval := RHash {[ "creds" := JStr "secret" ]}; rttl := None |} ]}
             (Sample.empty_world Sample.env0) in
  exists w',
    RedisCache.set "instance" "alpha" (JStr "session") (Some 0) w = (Ok tt, w')
    /\ redis w' = <["evolution_cache:instance:alpha" :=
                      {| rval := RString (JStr "session"); rttl := None |}]> (redis w)
    /\ fst (RedisCache.get "instance" "alpha" w') = Ok (JStr "session").
Proof.
  intro w.
  apply (set_get_roundtrip "instance" "alpha" (JStr "session") (Some 0) w);
    [reflexivity | cbn; lia].
Defined.

(** X2. With the server reachable, [hSet] succeeds whatever the key
    held before, and a following [hGet] of the field returns the value
    written.  When the key already held a hash, every other field reads
    as before; every other key is left as it was. *)
Theorem hSet_hGet_roundtrip (m key f : string) (v : json) (w : World) :
  redis_up (env w) = true ->
  exists w',
    RedisCache.hSet m key f v w = (Ok tt, w')
    /\ fst (RedisCache.hGet m key f w') = Ok v
    /\ (forall h t f',
          redis w !! RedisCache.physical_key (env w) m key
            = Some {| rval := RHash h; rttl := t |} ->
          f' <> f ->
          fst (RedisCache.hGet m key f' w') = Ok (default JNull (h !! f')))
    /\ (forall k', k' <> RedisCache.physical_key (env w) m key ->
                   redis w' !! k' = redis w !! k').
Proof.
  intros Hup. engine. crunch.
  destruct (redis w !! RedisCache.physical_key (env w) m key) as [[[d|h|o] t]|] eqn:Hk;
    crunch; eexists; (split; [reflexivity|]); crunch; repeat split;
    try (intros h' t' f' Heq Hne; inversion Heq; subst; crunch;
         now rewrite lookup_insert_ne by congruence);
    try (intros k' Hne; cbn;
         rewrite ?lookup_insert_ne, ?lookup_delete_ne by congruence; reflexivity).
Qed.

Lemma hSet_hGet_roundtrip_witness :
  let w := with_redis {[ "evolution_cache:instance:auth:alpha" :=
                           {| rval := RHash {[ "creds" := JStr "secret" ]}; rttl := None |} ]}
             (Sample.empty_world Sample.env0) in
  exists w',
    RedisCache.hSet "instance" "auth:alpha" "session-1" (JStr "key") w = (Ok tt, w')
    /\ fst (RedisCache.hGet "instance" "auth:alpha" "session-1" w') = Ok (JStr "key")
    /\ fst (RedisCache.hGet "instance" "auth:alpha" "creds" w') = Ok (JStr "secret").
Proof.
  intro w.
  destruct (hSet_hGet_roundtrip "instance" "auth:alpha" "session-1" (JStr "key") w)
    as (w' & Hrun & Hget & Hother & _); [reflexivity|].
  exists w'. repeat split; [exact Hrun | exact Hget |].
  rewrite (Hother {[ "creds" := JStr "secret" ]} None "creds");
    [vm_compute; reflexivity | reflexivity | discriminate].
Defined.

(** X3. The reading and deleting operations of the engine never raise:
    whatever the server answers, [get], [hGet], [has], [delete],
    [hDelete], [keys], [getKeyType] and the sweep return a result. *)
Theorem engine_reads_never_raise (m : string) :
  (forall key, Total (RedisCache.get m key))
  /\ (forall key f, Total (RedisCache.hGet m key f))
  /\ (forall key, Total (RedisCache.has m key))
  /\ (forall key, Total (RedisCache.delete m key))
  /\ (forall key f, Total (RedisCache.hDelete m key f))
  /\ (forall c, Total (RedisCache.keys m c))
  /\ (forall key, Total (RedisCache.getKeyType m key))
  /\ (forall p, Total (RedisCache.cleanupCorruptedKeys m p)).
Proof. repeat split; intros; total_auto. Qed.

(** X4. With the server unreachable every operation issues its one
    command and leaves the world otherwise as it was: the reads answer
    [null], [has], [delete], [hDelete] and [keys] answer [undefined],
    [getKeyType] answers ["none"], the sweep counts 0, and the two
    writes raise the client's error to the caller. *)
Theorem engine_server_down (m key f : string) (v : json) (ttl : option Z)
    (c p : option string) (w : World) :
  redis_up (env w) = false ->
  let k := RedisCache.physical_key (env w) m key in
  let said (cmd : RedisCmd) := with_trace (trace w ++ [Redis cmd]) w in
  RedisCache.get m key w = (Ok JNull, said (GET k))
  /\ RedisCache.hGet m key f w = (Ok JNull, said (HGET k f))
  /\ RedisCache.has m key w = (Ok None, said (EXISTS k))
  /\ RedisCache.delete m key w = (Ok None, said (DEL k))
  /\ RedisCache.hDelete m key f w = (Ok None, said (HDEL k f))
  /\ fst (RedisCache.keys m c w) = Ok None
  /\ redis (snd (RedisCache.keys m c w)) = redis w
  /\ RedisCache.getKeyType m key w = (Ok "none", said (TYPE k))
  /\ fst (RedisCache.cleanupCorruptedKeys m p w) = Ok 0
  /\ redis (snd (RedisCache.cleanupCorruptedKeys m p w)) = redis w
  /\ fst (RedisCache.set m key v ttl w) = Throw RedisClient.CLOSED
  /\ redis (snd (RedisCache.set m key v ttl w)) = redis w
  /\ RedisCache.hSet m key f v w = (Throw RedisClient.CLOSED, said (HSET k f v)).
Proof.
  intros Hup k said. subst k said.
  unfold RedisCache.has, RedisCache.keys, RedisCache.getKeyType,
    RedisCache.cleanupCorruptedKeys, RedisClient.exists_, RedisClient.scan.
  engine.
  repeat split; crunch; try reflexivity;
    try (destruct ttl as [[|?|?]|]; crunch; reflexivity).
Qed.

Lemma engine_server_down_witness :
  let w := Sample.empty_world Sample.env_redis_down in
  fst (RedisCache.get "instance" "alpha" w) = Ok JNull
  /\ fst (RedisCache.set "instance" "alpha" (JStr "session") (Some 0) w)
     = Throw RedisClient.CLOSED.
Proof.
  intro w.
  destruct (engine_server_down "instance" "alpha" "creds" (JStr "session") (Some 0)
              None None w) as (Hget & _ & _ & _ & _ & _ & _ & _ & _ & _ & Hset & _);
    [reflexivity|].
  split; [now rewrite Hget | exact Hset].
Defined.

(** X5. With the server reachable, [delete] answers 1 when the key
    existed and 0 when it did not, removes that key and no other, and
    afterwards [has] answers false, [get] answers [null] and
    [getKeyType] answers ["none"] for it. *)
Theorem delete_then_absent (m key : string) (w : World) :
  redis_up (env w) = true ->
  let k := RedisCache.physical_key (env w) m key in
  exists w',
    RedisCache.delete m key w
      = (Ok (Some (match redis w !! k with Some _ => 1 | None => 0 end)), w')
    /\ redis w' = delete k (redis w)
    /\ fst (RedisCache.has m key w') = Ok (Some false)
    /\ fst (RedisCache.get m key w') = Ok JNull
    /\ fst (RedisCache.getKeyType m key w') = Ok "none".
Proof.
  intros Hup k. subst k.
  unfold RedisCache.has, RedisCache.getKeyType, RedisClient.exists_. engine. crunch.
  destruct (redis w !! RedisCache.physical_key (env w) m key) as [e|] eqn:Hk;
    crunch; eexists; (split; [reflexivity|]); crunch; repeat split;
    try reflexivity; symmetry; now apply delete_id.
Qed.

Lemma delete_then_absent_witness :
  let w := with_redis {[ "evolution_cache:instance:alpha" :=
                           {| rval := RString (JStr "session"); rttl := None |} ]}
             (Sample.empty_world Sample.env0) in
  exists w',
    RedisCache.delete "instance" "alpha" w = (Ok (Some 1), w')
    /\ redis w' = delete "evolution_cache:instance:alpha" (redis w)
    /\ fst (RedisCache.has "instance" "alpha" w') = Ok (Some false)
    /\ fst (RedisCache.get "instance" "alpha" w') = Ok JNull
    /\ fst (RedisCache.getKeyType "instance" "alpha" w') = Ok "none".
Proof.
  intro w. apply (delete_then_absent "instance" "alpha" w). reflexivity.
Defined.

(** ** The cache engine: scanning and sweeping *)

Lemma glob_cons (c : ascii) (pat s : string) :
  pat <> EmptyString ->
  RedisClient.glob (String c pat) s
  = match s with
    | String c' s' => Ascii.eqb c c' && RedisClient.glob pat s'
    | EmptyString => false
    end.
Proof.
  intros Hne. destruct pat as [|d pat]; [congruence|].
  destruct c as [[] [] [] [] [] [] [] []]; reflexivity.
Qed.

Lemma glob_prefix (p s : string) :
  RedisClient.glob (p +:+ "*") s = String.prefix p s.
Proof.
  revert s. induction p as [|c p IH]; intros s.
  - now destruct s.
  - change (String c p +:+ "*") with (String c (p +:+ "*")).
    rewrite glob_cons by (destruct p; discriminate).
    destruct s as [|c' s]; [reflexivity|]. cbn [String.prefix].
    destruct (Ascii.ascii_dec c c') as [->|Hne].
    + rewrite (proj2 (Ascii.eqb_eq c' c') eq_refl). apply IH.
    + apply Ascii.eqb_neq in Hne. now rewrite Hne.
Qed.

Lemma scan_spec (p : string) (w : World) :
  redis_up (env w) = true ->
  exists l,
    RedisClient.scan (p +:+ "*") w
      = (Ok l, with_redis (redis w)
                 (with_trace (trace w ++ [Redis (SCAN (p +:+ "*"))]) w))
    /\ NoDup l
    /\ forall k, k ∈ l <-> is_Some (redis w !! k) /\ String.prefix p k = true.
Proof.
  intros Hup. unfold RedisClient.scan, RedisClient.command, bind, emit, modify.
  cbn. rewrite Hup. eexists. split; [reflexivity|]. split.
  - apply NoDup_filter, NoDup_fst_map_to_list.
  - intros k. rewrite list_elem_of_filter, glob_prefix.
    rewrite Is_true_true. split.
    + intros [Hp Hin]. split; [|exact Hp].
      apply list_elem_of_fmap in Hin as [[k' e] [-> Hin]].
      apply elem_of_map_to_list in Hin. now exists e.
    + intros [[e He] Hp]. split; [exact Hp|].
      apply list_elem_of_fmap. exists (k, e). split; [reflexivity|].
      now apply elem_of_map_to_list.
Qed.

Lemma append_assoc (a b c : string) : (a +:+ b) +:+ c = a +:+ (b +:+ c).
Proof.
  induction a as [|x a IH]; [reflexivity|].
  change ((String x a +:+ b) +:+ c) with (String x ((a +:+ b) +:+ c)).
  change (String x a +:+ (b +:+ c)) with (String x (a +:+ (b +:+ c))).
  now rewrite IH.
Qed.

(** X6. With the server reachable, [keys] answers the physical keys of
    the store that begin with the engine's namespace (followed by the
    criterion and a colon when one is given), each once, and changes
    nothing in the store. *)
Theorem keys_lists_namespace (m : string) (c : option string) (w : World) :
  redis_up (env w) = true ->
  let p := RedisCache.physical_key (env w) m EmptyString
           +:+ match c with
               | Some c => if Js.nonempty c then c +:+ ":" else EmptyString
               | None => EmptyString
               end in
  glob_literal p = true ->
  exists l w',
    RedisCache.keys m c w = (Ok (Some l), w')
    /\ redis w' = redis w
    /\ NoDup l
    /\ forall k, k ∈ l <-> is_Some (redis w !! k) /\ String.prefix p k = true.
Proof.
  intros Hup p _.
  unfold RedisCache.keys, RedisCache.buildKey.
  unfold try_catch, bind, get_env, ret. cbv beta.
  rewrite <- append_assoc. fold p.
  destruct (scan_spec p w Hup) as (l & Hscan & Hnd & Hl).
  rewrite Hscan. now exists l, (with_redis (redis w)
                 (with_trace (trace w ++ [Redis (SCAN (p +:+ "*"))]) w)).
Qed.

Lemma keys_lists_namespace_witness :
  let w := with_redis {[ "evolution_cache:instance:alpha" :=
                           {| rval := RString (JStr "session"); rttl := None |};
                         "evolution_cache:baileys:alpha" :=
                           {| rval := RString (JStr "other"); rttl := None |} ]}
             (Sample.empty_world Sample.env0) in
  exists l w',
    RedisCache.keys "instance" None w = (Ok (Some l), w')
    /\ redis w' = redis w
    /\ NoDup l
    /\ forall k, k ∈ l <-> is_Some (redis w !! k)
                           /\ String.prefix "evolution_cache:instance:" k = true.
Proof.
  intro w. apply (keys_lists_namespace "instance" None w); reflexivity.
Defined.

Lemma size_delete_present {A} (k : string) (x : A) (s : gmap string A) :
  s !! k = Some x -> size s = S (size (delete k s)).
Proof.
  intros H. rewrite <- (insert_delete_id s k x H) at 1.
  apply map_size_insert_None, lookup_delete_eq.
Qed.

(** A loop over distinct keys of the store whose turn deletes the key it
    visits or leaves the store alone. *)
Lemma deleting_loop (bad : string -> rentry -> bool) (body : Z -> string -> M Z) :
  (forall c k w x,
     redis_up (env w) = true -> redis w !! k = Some x ->
     exists w1,
       body c k w = (Ok (if bad k x then c + 1 else c), w1)
       /\ env w1 = env w
       /\ redis w1 = if bad k x then delete k (redis w) else redis w) ->
  forall l c w,
    redis_up (env w) = true ->
    NoDup l ->
    (forall k, k ∈ l -> is_Some (redis w !! k)) ->
    exists w',
      for_fold l c body w
      = (Ok (c + Z.of_nat (size (redis w)) - Z.of_nat (size (redis w'))), w')
      /\ env w' = env w
      /\ forall k, redis w' !! k
                   = match redis w !! k with
                     | Some x => if bool_decide (k ∈ l) && bad k x then None else Some x
                     | None => None
                     end.
Proof.
  intros Hstep. induction l as [|k l IH]; intros c w Hup Hnd Hin.
  - exists w. cbn [for_fold]. unfold ret.
    replace (c + Z.of_nat (size (redis w)) - Z.of_nat (size (redis w))) with c by lia.
    repeat split. intros k. now destruct (redis w !! k).
  - apply NoDup_cons in Hnd as [Hk Hnd].
    destruct (Hin k ltac:(left)) as [x Hx].
    destruct (Hstep c k w x Hup Hx) as (w1 & Hrun1 & Henv1 & Hred1).
    cbn [for_fold]. unfold bind at 1. rewrite Hrun1.
    assert (Hup1 : redis_up (env w1) = true) by now rewrite Henv1.
    assert (Hin1 : forall q, q ∈ l -> is_Some (redis w1 !! q)).
    { intros q Hq. rewrite Hred1. destruct (bad k x).
      - rewrite lookup_delete_ne by (intros ->; exact (Hk Hq)). apply Hin. now right.
      - apply Hin. now right. }
    destruct (IH (if bad k x then c + 1 else c) w1 Hup1 Hnd Hin1)
      as (w' & Hrun & Henv & Hlook).
    exists w'. rewrite Hrun. split; [|split; [congruence|]].
    + do 2 f_equal. rewrite Hred1. destruct (bad k x); [|reflexivity].
      rewrite (size_delete_present k x (redis w) Hx). lia.
    + intros q. rewrite Hlook, Hred1. destruct (decide (q = k)) as [->|Hne].
      * rewrite Hx. rewrite (bool_decide_eq_true_2 (k ∈ k :: l)) by left.
        rewrite (bool_decide_eq_false_2 (k ∈ l)) by exact Hk.
        destruct (bad k x); [now rewrite lookup_delete_eq | now rewrite Hx].
      * assert (Hb : bool_decide (q ∈ k :: l) = bool_decide (q ∈ l)).
        { apply bool_decide_ext. rewrite elem_of_cons. tauto. }
        rewrite Hb. destruct (bad k x); [rewrite lookup_delete_ne by congruence|];
          reflexivity.
Qed.

Lemma sweep_spec (m : string) (w : World) :
  redis_up (env w) = true ->
  exists c w',
    RedisCache.cleanupCorruptedKeys m None w = (Ok c, w')
    /\ env w' = env w
    /\ c = Z.of_nat (size (redis w)) - Z.of_nat (size (redis w'))
    /\ forall k, redis w' !! k
                 = match redis w !! k with
                   | Some x => if swept (env w) m k x then None else Some x
                   | None => None
                   end.
Proof.
  intros Hup.
  set (base := RedisCache.physical_key (env w) m EmptyString).
  destruct (scan_spec base w Hup) as (l & Hscan & Hnd & Hl).
  unfold RedisCache.cleanupCorruptedKeys, RedisCache.buildKey.
  unfold try_catch at 1, bind at 1, bind at 1, get_env, ret at 1. cbv beta.
  unfold bind at 1. fold base. rewrite Hscan.
  match goal with |- context [for_fold l 0 ?b ?w1] => set (body := b); set (w1' := w1) end.
  destruct (deleting_loop
              (fun k x => RedisCache.isCorrupted (Js.remove_first base k)
                            (RedisClient.type_name (rval x)))
              body) with (l := l) (c := 0) (w := w1') as (w' & Hrun & Henv & Hlook).
  - intros c k w0 x Hup0 Hx. subst body. cbv beta.
    unfold try_catch, bind at 1, RedisClient.type, RedisClient.command, bind at 1,
      emit, modify.
    cbn. rewrite Hup0, Hx. cbn.
    destruct (RedisCache.isCorrupted (Js.remove_first base k)
                (RedisClient.type_name (rval x))).
    + unfold bind, RedisClient.del, RedisClient.command, emit, modify, ret.
      cbn. rewrite Hup0, Hx. cbn. eexists. repeat split.
    + unfold ret. eexists. repeat split.
  - exact Hup.
  - exact Hnd.
  - intros k Hk. subst w1'. cbn. now apply Hl.
  - exists (0 + Z.of_nat (size (redis w1')) - Z.of_nat (size (redis w'))), w'.
    rewrite Hrun. subst w1'. cbn in *. repeat split; [exact Henv|].
    intros k. rewrite Hlook. destruct (redis w !! k) as [x|] eqn:Hx; [|reflexivity].
    unfold swept. fold base.
    destruct (String.prefix base k) eqn:Hp.
    + rewrite (bool_decide_eq_true_2 (k ∈ l)); [reflexivity|].
      apply Hl. split; [now exists x | exact Hp].
    + rewrite (bool_decide_eq_false_2 (k ∈ l)); [reflexivity|].
      intros Hk. apply Hl in Hk as [_ Hk]. congruence.
Qed.

(** X7. With the server reachable and no pattern given, the sweep
    deletes exactly the keys under the engine's namespace whose type
    disagrees with the classifier; every other key, inside or outside
    the namespace, stays as it was.  The count it answers is the number
    of keys deleted, and a second sweep finds nothing to delete. *)
Theorem sweep_deletes_exactly_the_misclassified (m : string) (w : World) :
  redis_up (env w) = true ->
  glob_literal (RedisCache.physical_key (env w) m EmptyString) = true ->
  exists c w',
    RedisCache.cleanupCorruptedKeys m None w = (Ok c, w')
    /\ (forall k, redis w' !! k
                  = match redis w !! k with
                    | Some x => if swept (env w) m k x then None else Some x
                    | None => None
                    end)
    /\ c = Z.of_nat (size (redis w)) - Z.of_nat (size (redis w'))
    /\ fst (RedisCache.cleanupCorruptedKeys m None w') = Ok 0
    /\ redis (snd (RedisCache.cleanupCorruptedKeys m None w')) = redis w'.
Proof.
  intros Hup _.
  destruct (sweep_spec m w Hup) as (c & w' & Hrun & Henv & Hc & Hlook).
  assert (Hup' : redis_up (env w') = true) by now rewrite Henv.
  destruct (sweep_spec m w' Hup') as (c2 & w2 & Hrun2 & Henv2 & Hc2 & Hlook2).
  assert (Hsame : redis w2 = redis w').
  { apply map_eq. intros k. rewrite Hlook2.
    destruct (redis w' !! k) as [x|] eqn:Hx; [|reflexivity].
    rewrite Hlook in Hx. rewrite Henv.
    destruct (redis w !! k) as [y|]; [|discriminate].
    destruct (swept (env w) m k y) eqn:Hs; [discriminate|].
    inversion Hx; subst. now rewrite Hs. }
  exists c, w'. rewrite Hrun, Hrun2. cbn. repeat split; try assumption.
  rewrite Hc2, Hsame. f_equal. lia.
Qed.

Lemma sweep_deletes_exactly_the_misclassified_witness :
  let w := with_redis {[ "evolution_cache:instance:alpha" :=
                           {| rval := RHash {[ "creds" := JStr "secret" ]}; rttl := None |};
                         "evolution_cache:instance:beta" :=
                           {| rval := RString (JStr "session"); rttl := None |} ]}
             (Sample.empty_world Sample.env0) in
  exists c w',
    RedisCache.cleanupCorruptedKeys "instance" None w = (Ok c, w')
    /\ redis w' !! "evolution_cache:instance:alpha" = None
    /\ redis w' !! "evolution_cache:instance:beta"
       = Some {| rval := RString (JStr "session"); rttl := None |}.
Proof.
  intro w.
  destruct (sweep_deletes_exactly_the_misclassified "instance" w)
    as (c & w' & Hrun & Hlook & _); [reflexivity | reflexivity |].
  exists c, w'. repeat split; [exact Hrun | |]; rewrite Hlook; vm_compute; reflexivity.
Defined.

(** ** The auth-state provider *)

Lemma auth_write_stores (m n key : string) (data : json) (w : World) :
  redis_up (env w) = true ->
  exists w1 h t,
    AuthState.writeData m n data key w = (Ok tt, w1)
    /\ env w1 = env w
    /\ redis w1 !! RedisCache.physical_key (env w) m (AuthState.authKey n)
       = Some {| rval := RHash h; rttl := t |}
    /\ h !! key = Some data.
Proof.
  intros Hup. unfold AuthState.writeData. engine. crunch.
  destruct (redis w !! RedisCache.physical_key (env w) m (AuthState.authKey n))
    as [[[d|h|o] t]|] eqn:Hk; crunch;
    do 3 eexists; (split; [reflexivity|]); (split; [reflexivity|]);
    (split; [cbn; apply lookup_insert_eq|]);
    first [apply lookup_insert_eq | apply lookup_singleton_eq].
Qed.

Lemma auth_read_remove (m n key : string) (data : json) (w : World) h t :
  redis_up (env w) = true ->
  redis w !! RedisCache.physical_key (env w) m (AuthState.authKey n)
    = Some {| rval := RHash h; rttl := t |} ->
  h !! key = Some data ->
  fst (AuthState.readData m n key w) = Ok data
  /\ exists w2,
       AuthState.removeData m n key w = (Ok (Some 1), w2)
       /\ fst (AuthState.readData m n key w2) = Ok JNull.
Proof.
  intros Hup Hk Hf.
  unfold AuthState.readData, AuthState.removeData. engine. crunch.
  split; [reflexivity|].
  destruct (decide (delete key h = ∅)) as [He|He]; crunch;
    eexists; (split; [reflexivity|]); crunch; reflexivity.
Qed.

(** X8. With the server reachable, a field written by [writeData] is
    read back by [readData], whatever the key [auth:<instance>] held
    before; after [removeData] of the field, which answers 1,
    [readData] answers [null]. *)
Theorem auth_state_roundtrip (m n key : string) (data : json) (w : World) :
  redis_up (env w) = true ->
  exists w1 w2,
    AuthState.writeData m n data key w = (Ok tt, w1)
    /\ fst (AuthState.readData m n key w1) = Ok data
    /\ AuthState.removeData m n key w1 = (Ok (Some 1), w2)
    /\ fst (AuthState.readData m n key w2) = Ok JNull.
Proof.
  intros Hup.
  destruct (auth_write_stores m n key data w Hup) as (w1 & h & t & Hw & Henv & Hk & Hf).
  rewrite <- Henv in Hk.
  destruct (auth_read_remove m n key data w1 h t ltac:(now rewrite Henv) Hk Hf)
    as (Hr & w2 & Hrm & Hr2).
  now exists w1, w2.
Qed.

Lemma auth_state_roundtrip_witness :
  let w := Sample.empty_world Sample.env0 in
  exists w1 w2,
    AuthState.writeData "instance" "alpha" (JStr "secret") "creds" w = (Ok tt, w1)
    /\ fst (AuthState.readData "instance" "alpha" "creds" w1) = Ok (JStr "secret")
    /\ AuthState.removeData "instance" "alpha" "creds" w1 = (Ok (Some 1), w2)
    /\ fst (AuthState.readData "instance" "alpha" "creds" w2) = Ok JNull.
Proof.
  intro w.
  apply (auth_state_roundtrip "instance" "alpha" "creds" (JStr "secret") w). reflexivity.
Defined.

(** X9. With the server unreachable the provider neither raises nor
    stores: [writeData] and [saveCreds] return as if they had written,
    [removeData] answers [null], and [readData] answers [null] for the
    field just written. *)
Theorem auth_state_outage_is_silent (m n key : string) (data : json) (w : World) :
  redis_up (env w) = false ->
  let w1 := snd (AuthState.writeData m n data key w) in
  fst (AuthState.writeData m n data key w) = Ok tt
  /\ fst (AuthState.saveCreds m n data w) = Ok tt
  /\ redis w1 = redis w
  /\ fst (AuthState.readData m n key w1) = Ok JNull
  /\ fst (AuthState.removeData m n key w1) = Ok None.
Proof.
  intros Hup.
  unfold AuthState.saveCreds, AuthState.writeData, AuthState.readData,
    AuthState.removeData. engine. crunch. repeat split.
Qed.

Lemma auth_state_outage_is_silent_witness :
  let w := Sample.empty_world Sample.env_redis_down in
  let w1 := snd (AuthState.writeData "instance" "alpha" (JStr "secret") "creds" w) in
  fst (AuthState.writeData "instance" "alpha" (JStr "secret") "creds" w) = Ok tt
  /\ fst (AuthState.saveCreds "instance" "alpha" (JStr "secret") w) = Ok tt
  /\ redis w1 = redis w
  /\ fst (AuthState.readData "instance" "alpha" "creds" w1) = Ok JNull
  /\ fst (AuthState.removeData "instance" "alpha" "creds" w1) = Ok None.
Proof.
  intro w.
  apply (auth_state_outage_is_silent "instance" "alpha" "creds" (JStr "secret") w).
  reflexivity.
Defined.

(** ** The cache stage, key by key *)

Lemma split_physical_key (e : Env) (key : string) :
  Js.includes ":" (REDIS_PREFIX_KEY e) = false ->
  Js.split ":" (RedisCache.physical_key e "instance" key)
  = REDIS_PREFIX_KEY e :: "instance" :: Js.split ":" key.
Proof.
  intros Hp. unfold RedisCache.physical_key.
  change (":" +:+ "instance" +:+ ":" +:+ key) with (String ":" ("instance" +:+ String ":" key)).
  rewrite (split_no_sep ":" _ _ Hp).
  now rewrite (split_no_sep ":" "instance" key eq_refl).
Qed.

Lemma join_cons (p : string) (rest : list string) :
  rest <> [] -> Js.join ":" (p :: rest) = p +:+ ":" +:+ Js.join ":" rest.
Proof. destruct rest; [congruence | reflexivity]. Qed.

(** The turn of the cache stage for a physical key of the instance
    namespace comes down to the read of its logical key. *)
Lemma restoreFromRedisKey_logical (c : Z) (key : string) (w : World) :
  Js.includes ":" (REDIS_PREFIX_KEY (env w)) = false ->
  SessionRestorationService.is_auxiliary key = false ->
  SessionRestorationService.restoreFromRedisKey c
    (RedisCache.physical_key (env w) "instance" key) w
  = try_catch
      (try_catch (SessionRestorationService.restoreKeyFromCache c key)
                 (fun _ => SessionRestorationService.restoreKeyFromDatabase c key))
      (fun _ => ret c) w.
Proof.
  intros Hp Haux. unfold SessionRestorationService.restoreFromRedisKey.
  rewrite (split_physical_key (env w) key Hp). cbv zeta.
  destruct (Js.split ":" key) as [|h t] eqn:Hs; [now destruct (split_nonempty ":" key)|].
  cbn [length drop lookup list_lookup Nat.leb andb].
  rewrite bool_decide_eq_true_2 by reflexivity.
  assert (Hj : Js.join ":" (h :: t) = key) by (rewrite <- Hs; apply (join_split ":")).
  rewrite Hj, Haux. reflexivity.
Qed.

(** X10. When the credential hash [auth:<instance>] lives in the
    instance namespace and its logical key passes the filter of the
    cache stage (no hyphen, no [creds] in the instance's key), the turn
    of the cache stage for that key reads it as a session record: the
    read is refused, the WRONGTYPE repair deletes the key, nothing is
    restored, and the credentials of the instance are gone. *)
Theorem cache_stage_read_deletes_credentials
    (n : string) (c : Z) (w : World) (h : gmap string json) (t : option Z) :
  redis_up (env w) = true ->
  Js.includes ":" (REDIS_PREFIX_KEY (env w)) = false ->
  SessionRestorationService.is_auxiliary (AuthState.authKey n) = false ->
  redis w !! RedisCache.physical_key (env w) cache.module (AuthState.authKey n)
    = Some {| rval := RHash h; rttl := t |} ->
  exists w',
    SessionRestorationService.restoreFromRedisKey c
      (RedisCache.physical_key (env w) cache.module (AuthState.authKey n)) w = (Ok c, w')
    /\ redis w' = delete (RedisCache.physical_key (env w) cache.module (AuthState.authKey n))
                    (redis w)
    /\ waInstances w' = waInstances w
    /\ forall field, fst (AuthState.readData cache.module n field w') = Ok JNull.
Proof.
  intros Hup Hp Haux Hk. unfold cache.module in *.
  rewrite (restoreFromRedisKey_logical c _ w Hp Haux).
  destruct (get_repairs "instance" (AuthState.authKey n) w _ Hup Hk)
    as (w' & Hget & Htr & Hred); [discriminate|].
  exists w'.
  unfold SessionRestorationService.restoreKeyFromCache, cache.get, cache.module,
    try_catch, bind at 1.
  rewrite Hget. cbn. repeat split; [exact Hred | |].
  - unfold RedisCache.get in Hget. revert Hget. engine. crunch.
    intros Hget. inversion Hget. reflexivity.
  - intros field. unfold AuthState.readData.
    assert (Henv : env w' = env w).
    { unfold RedisCache.get in Hget. revert Hget. engine. crunch.
      intros Hget. inversion Hget. reflexivity. }
    engine. rewrite Henv. crunch. reflexivity.
Qed.

Lemma cache_stage_read_deletes_credentials_witness :
  let w := with_redis {[ "evolution_cache:instance:auth:alpha" :=
                           {| rval := RHash {[ "creds" := JStr "secret" ]}; rttl := None |} ]}
             (Sample.empty_world Sample.env0) in
  exists w',
    SessionRestorationService.restoreFromRedisKey 0
      "evolution_cache:instance:auth:alpha" w = (Ok 0, w')
    /\ redis w' = delete "evolution_cache:instance:auth:alpha" (redis w)
    /\ waInstances w' = waInstances w
    /\ forall field, fst (AuthState.readData cache.module "alpha" field w') = Ok JNull.
Proof.
  intro w.
  apply (cache_stage_read_deletes_credentials "alpha" 0 w {[ "creds" := JStr "secret" ]} None);
    reflexivity.
Defined.

(** ** Persisting, restoring and removing a session record *)

#[local] Instance same_env_preorder : PreOrder same_env.
Proof. split; [now intros w | intros a b c H1 H2; unfold same_env in *; congruence]. Qed.

#[local] Instance same_objects_preorder : PreOrder same_objects.
Proof.
  split; [now intros w|].
  intros a b c [H1 H2] [H3 H4]. unfold same_objects. split; congruence.
Qed.

Lemma sat_persist_env n d :
  Sat same_env (SessionRestorationService.persistInstanceState n d).
Proof. sat_auto ltac:(idtac; reflexivity). Qed.




Lemma get_string (m key : string) (v : json) (t : option Z) (w : World) :
  redis_up (env w) = true ->
  redis w !! RedisCache.physical_key (env w) m key = Some {| rval := RString v; rttl := t |} ->
  RedisCache.get m key w
  = (Ok v, with_redis (redis w)
             (with_trace (trace w ++ [Redis (GET (RedisCache.physical_key (env w) m key))]) w)).
Proof. intros Hup Hk. engine. crunch. reflexivity. Qed.

Lemma del_redis (k : string) (w : World) :
  redis_up (env w) = true ->
  exists n,
    RedisClient.del k w
    = (Ok n, with_redis (delete k (redis w)) (with_trace (trace w ++ [Redis (DEL k)]) w)).
Proof.
  intros Hup. unfold RedisClient.del, RedisClient.command, bind, emit, modify.
  cbn. rewrite Hup.
  destruct (redis w !! k) eqn:Hk; eexists; [reflexivity|].
  now rewrite (delete_id _ _ Hk).
Qed.

Lemma cache_delete_redis (key : string) (w : World) :
  redis_up (env w) = true ->
  exists n w',
    cache.delete key w = (Ok n, w')
    /\ env w' = env w
    /\ redis w' = delete (RedisCache.physical_key (env w) "instance" key) (redis w).
Proof.
  intros Hup. unfold cache.delete, cache.module, RedisCache.delete, RedisCache.buildKey.
  unfold try_catch, bind at 1, bind at 1, get_env, ret at 1. cbv beta.
  unfold bind at 1.
  destruct (del_redis (RedisCache.physical_key (env w) "instance" key) w Hup) as [n Hn].
  rewrite Hn. cbn. now do 2 eexists.
Qed.

Lemma removeInstanceState_redis (n : string) (oid : option string) (w : World) :
  redis_up (env w) = true ->
  let key k := RedisCache.physical_key (env w) "instance" k in
  exists w',
    SessionRestorationService.removeInstanceState n oid w = (Ok tt, w')
    /\ env w' = env w
    /\ redis w'
       = delete (key (ConnectionHealthService.connecting_key n))
           (delete (key (SessionRestorationService.restored_key n))
              (match oid with
               | Some id =>
                   if REDIS_ENABLED (env w) && REDIS_SAVE_INSTANCES (env w) && Js.nonempty id
                   then delete (key id) (redis w) else redis w
               | None => redis w
               end)).
Proof.
  intros Hup key. unfold SessionRestorationService.removeInstanceState.
  unfold try_catch at 1, bind at 1, get_env, bind at 1.
  assert (H1 : exists w1,
             (match oid with
              | Some id =>
                  when (REDIS_ENABLED (env w) && REDIS_SAVE_INSTANCES (env w) && Js.nonempty id)
                       (cache.delete id >> ret tt)
              | None => ret tt
              end) w = (Ok tt, w1)
             /\ env w1 = env w
             /\ redis w1 = match oid with
                           | Some id =>
                               if REDIS_ENABLED (env w) && REDIS_SAVE_INSTANCES (env w)
                                  && Js.nonempty id
                               then delete (key id) (redis w) else redis w
                           | None => redis w
                           end).
  { destruct oid as [id|]; [|now exists w].
    destruct (REDIS_ENABLED (env w) && REDIS_SAVE_INSTANCES (env w) && Js.nonempty id);
      [|now exists w].
    destruct (cache_delete_redis id w Hup) as (c & w1 & Hrun & Henv & Hred).
    exists w1. unfold when, bind. now rewrite Hrun. }
  destruct H1 as (w1 & Hrun1 & Henv1 & Hred1). rewrite Hrun1.
  destruct (cache_delete_redis (SessionRestorationService.restored_key n) w1
              ltac:(now rewrite Henv1)) as (c2 & w2 & Hrun2 & Henv2 & Hred2).
  unfold bind at 1. rewrite Hrun2.
  destruct (cache_delete_redis (ConnectionHealthService.connecting_key n) w2
              ltac:(now rewrite Henv2, Henv1)) as (c3 & w3 & Hrun3 & Henv3 & Hred3).
  unfold bind at 1. rewrite Hrun3. cbn.
  exists w3. split; [reflexivity|]. split; [congruence|].
  rewrite Hred3, Hred2, Hred1, Henv2, Henv1. reflexivity.
Qed.

Lemma append_inj_l (a b c : string) : a +:+ b = a +:+ c -> b = c.
Proof.
  induction a as [|x a IH]; [exact (fun H => H)|].
  change (String x a +:+ b) with (String x (a +:+ b)).
  change (String x a +:+ c) with (String x (a +:+ c)).
  intros H. inversion H. auto.
Qed.

Lemma physical_key_inj (e : Env) (m k1 k2 : string) :
  RedisCache.physical_key e m k1 = RedisCache.physical_key e m k2 -> k1 = k2.
Proof.
  unfold RedisCache.physical_key. intros H.
  now do 4 apply append_inj_l in H.
Qed.

Lemma length_append (a b : string) :
  String.length (a +:+ b) = (String.length a + String.length b)%nat.
Proof.
  induction a as [|x a IH]; [reflexivity|].
  change (String x a +:+ b) with (String x (a +:+ b)). cbn. now rewrite IH.
Qed.

Lemma marker_key_differs (p n : string) : p <> EmptyString -> n <> p +:+ n.
Proof.
  intros Hp H. apply (f_equal String.length) in H. rewrite length_append in H.
  destruct p; [congruence|]. cbn in H. lia.
Qed.

(** X12. After a persist, the removal of the instance's state clears
    the restoration marker and the connect-start marker, and deletes
    the session record when the instance has an id.  A record that was
    stored under the instance's name, for want of an id, is not
    deleted: the removal only ever deletes by id. *)
Theorem persist_then_remove (n : string) (d : InstanceData) (w : World) :
  REDIS_ENABLED (env w) && REDIS_SAVE_INSTANCES (env w) = true ->
  redis_up (env w) = true ->
  let key k := RedisCache.physical_key (env w) "instance" k in
  let w1 := snd (SessionRestorationService.persistInstanceState n d w) in
  let w2 := snd (SessionRestorationService.removeInstanceState n (data_instanceId d) w1) in
  fst (SessionRestorationService.removeInstanceState n (data_instanceId d) w1) = Ok tt
  /\ redis w2 !! key (SessionRestorationService.restored_key n) = None
  /\ redis w2 !! key (ConnectionHealthService.connecting_key n) = None
  /\ (Js.truthy_str (data_instanceId d) = true ->
      redis w2 !! key (SessionRestorationService.cacheKey n d) = None)
  /\ (Js.truthy_str (data_instanceId d) = false ->
      redis w2 !! key (SessionRestorationService.cacheKey n d)
      = Some {| rval := RString (SessionRestorationService.json_of_data d); rttl := None |}).
Proof.
  intros Hon Hup key w1 w2.
  pose proof (sat_persist_env n d w) as Henv. unfold same_env in Henv. fold w1 in Henv.
  destruct (persist_writes_plain_set n d w Hon Hup) as [Hk _]. fold w1 in Hk.
  destruct (removeInstanceState_redis n (data_instanceId d) w1 ltac:(now rewrite Henv))
    as (w' & Hrun & Henv' & Hred).
  subst w2. rewrite Hrun. cbn [fst snd]. rewrite Hred, Henv. subst key. cbv beta.
  split; [reflexivity|]. split; [|split; [|split]].
  - rewrite lookup_delete_ne, lookup_delete_eq; [reflexivity|].
    intros H. apply physical_key_inj in H. discriminate H.
  - apply lookup_delete_eq.
  - intros Hid. destruct (data_instanceId d) as [id|] eqn:Eid; [|discriminate].
    cbn in Hid. rewrite Hon, Hid. cbn.
    assert (Hc : SessionRestorationService.cacheKey n d = id).
    { unfold SessionRestorationService.cacheKey, Js.or_str. rewrite Eid. cbn.
      now rewrite Hid. }
    rewrite Hc. apply lookup_delete_None. right. apply lookup_delete_None. right.
    apply lookup_delete_eq.
  - intros Hid.
    assert (Hc : SessionRestorationService.cacheKey n d = n).
    { unfold SessionRestorationService.cacheKey, Js.or_str. now rewrite Hid. }
    assert (Hsame : match data_instanceId d with
                    | Some id =>
                        if REDIS_ENABLED (env w) && REDIS_SAVE_INSTANCES (env w)
                           && Js.nonempty id
                        then delete (RedisCache.physical_key (env w) "instance" id) (redis w1)
                        else redis w1
                    | None => redis w1
                    end = redis w1).
    { destruct (data_instanceId d) as [id|]; [|reflexivity].
      cbn in Hid. rewrite Hid, andb_false_r. reflexivity. }
    rewrite Hsame, Hc. rewrite Hc in Hk.
    rewrite !lookup_delete_ne; [exact Hk | |].
    + intros H. apply physical_key_inj in H. symmetry in H.
      revert H. apply (marker_key_differs "restored:"). discriminate.
    + intros H. apply physical_key_inj in H. symmetry in H.
      revert H. apply (marker_key_differs "connecting_time:"). discriminate.
Qed.

Lemma persist_then_remove_witness :
  let d := GracefulShutdownService.snapshot "alpha"
             (Sample.baileys "alpha" "abc123" "open" (Some Sample.ready_client)) in
  let w := Sample.empty_world Sample.env0 in
  let w1 := snd (SessionRestorationService.persistInstanceState "alpha" d w) in
  let w2 := snd (SessionRestorationService.removeInstanceState "alpha" (Some "abc123") w1) in
  redis w1 !! "evolution_cache:instance:abc123"
  = Some {| rval := RString (SessionRestorationService.json_of_data d); rttl := None |}
  /\ redis w2 !! "evolution_cache:instance:abc123" = None.
Proof.
  intros d w w1 w2.
  destruct (persist_then_remove "alpha" d w) as (_ & _ & _ & Hgone & _);
    [reflexivity | reflexivity |].
  split; [vm_compute; reflexivity | apply Hgone; reflexivity].
Defined.

(** ** The health monitor *)

Lemma toString_nonempty (n : Z) : 0 <= n -> Js.nonempty (Js.toString n) = true.
Proof.
  intros Hn. unfold Js.toString.
  destruct (n <? 0) eqn:Hneg; [apply Z.ltb_lt in Hneg; lia|].
  destruct (digits_of_pos_head (Z.to_nat (Z.log2 n)) n EmptyString Hn)
    as (c & s & d & Hs & _).
  now rewrite Hs.
Qed.

Lemma sat_setConnectingTime_env n : Sat same_env (ConnectionHealthService.setConnectingTime n).
Proof. sat_auto ltac:(idtac; reflexivity). Qed.

Lemma getConnectingTime_string (n s : string) (t : option Z) (w : World) :
  redis_up (env w) = true ->
  redis w !! RedisCache.physical_key (env w) "instance"
               (ConnectionHealthService.connecting_key n)
    = Some {| rval := RString (JStr s); rttl := t |} ->
  ConnectionHealthService.getConnectingTime n w
  = (Ok (if Js.nonempty s then Js.parseInt s else None),
     with_redis (redis w)
       (with_trace (trace w ++ [Redis (GET (RedisCache.physical_key (env w) "instance"
                                              (ConnectionHealthService.connecting_key n)))]) w)).
Proof.
  intros Hup Hk. unfold ConnectionHealthService.getConnectingTime, cache.get, cache.module.
  unfold try_catch, bind. rewrite (get_string "instance" _ _ t w Hup Hk). reflexivity.
Qed.

Lemma getConnectingTime_absent (n : string) (w : World) :
  redis w !! RedisCache.physical_key (env w) "instance"
               (ConnectionHealthService.connecting_key n) = None ->
  exists w',
    ConnectionHealthService.getConnectingTime n w = (Ok None, w')
    /\ env w' = env w /\ redis w' = redis w /\ heap w' = heap w
    /\ waInstances w' = waInstances w /\ db w' = db w.
Proof.
  intros Hk. unfold ConnectionHealthService.getConnectingTime, cache.get, cache.module.
  engine. crunch. destruct (redis_up (env w)); crunch; eexists; repeat split.
Qed.

(** X13. With the server reachable, the connect-start time recorded by
    [onInstanceConnecting] is read back by the health check as the
    clock's value at the time of the call, and [onInstanceConnected]
    clears it: the next read finds no start time. *)
Theorem connect_marker_roundtrip (n : string) (w : World) :
  redis_up (env w) = true ->
  0 <= date_now (env w) ->
  let w1 := snd (ConnectionHealthService.onInstanceConnecting n w) in
  let w2 := snd (ConnectionHealthService.onInstanceConnected n w1) in
  fst (ConnectionHealthService.getConnectingTime n w1) = Ok (Some (date_now (env w)))
  /\ fst (ConnectionHealthService.getConnectingTime n w2) = Ok None.
Proof.
  intros Hup Hnow w1 w2.
  pose proof (sat_setConnectingTime_env n w) as Henv. unfold same_env in Henv.
  pose proof (connect_marker_expires n w Hup) as Hk.
  unfold ConnectionHealthService.onInstanceConnecting in w1. fold w1 in Henv, Hk.
  rewrite <- Henv in Hk, Hup. split.
  - rewrite (getConnectingTime_string n _ _ w1 Hup Hk).
    rewrite Henv, (toString_nonempty _ Hnow), (parseInt_toString _ Hnow). reflexivity.
  - subst w2.
    unfold ConnectionHealthService.onInstanceConnected,
      ConnectionHealthService.clearConnectingTime.
    destruct (cache_delete_redis (ConnectionHealthService.connecting_key n) w1 Hup)
      as (c & w' & Hrun & Henv' & Hred).
    unfold try_catch at 1, bind at 1. rewrite Hrun. cbn [snd ret].
    destruct (getConnectingTime_absent n w') as (w'' & Hget & _).
    + rewrite Hred, Henv'. apply lookup_delete_eq.
    + now rewrite Hget.
Qed.

Lemma connect_marker_roundtrip_witness :
  let w := Sample.empty_world Sample.env0 in
  let w1 := snd (ConnectionHealthService.onInstanceConnecting "alpha" w) in
  let w2 := snd (ConnectionHealthService.onInstanceConnected "alpha" w1) in
  fst (ConnectionHealthService.getConnectingTime "alpha" w1) = Ok (Some 1700000000000)
  /\ fst (ConnectionHealthService.getConnectingTime "alpha" w2) = Ok None.
Proof.
  intro w. apply (connect_marker_roundtrip "alpha" w); [reflexivity | vm_compute; discriminate].
Defined.

Lemma handleConnectionTimeout_run (n : string) (r : nat) (i : Instance) (w : World) :
  heap w !! r = Some i ->
  redis_up (env w) = true ->
  let k := RedisCache.physical_key (env w) "instance"
             (ConnectionHealthService.connecting_key n) in
  exists w',
    ConnectionHealthService.handleConnectionTimeout n r w = (Ok tt, w')
    /\ heap w' !! r = Some (Obj.set_state "close" (Obj.close_socket i))
    /\ redis w' = delete k (redis w)
    /\ waInstances w' = waInstances w
    /\ trace w' = (trace w ++ (if Obj.has_ws i then [WsClose r] else [])
                   ++ [Redis (DEL k); ConnectToWhatsapp r])%list.
Proof.
  intros Hobj Hup k. subst k.
  unfold ConnectionHealthService.handleConnectionTimeout,
    ConnectionHealthService.clearConnectingTime, cache.delete, cache.module.
  health. engine. crunch.
  destruct (Obj.has_ws i) eqn:Hws; crunch;
    destruct (redis w !! RedisCache.physical_key (env w) "instance"
                           (ConnectionHealthService.connecting_key n)) eqn:Hk; crunch;
    destruct (connect_ok (env w) _); crunch;
    (eexists; split; [reflexivity|]); crunch; rewrite <- ?app_assoc;
    rewrite ?(close_socket_no_ws i Hws), ?(delete_id _ _ Hk); repeat split; reflexivity.
Qed.

(** X14. For an instance of the socket-carrying integration in declared
    state [connecting] whose connect-start time is recorded: when the
    clock is more than two minutes past it, the health check closes the
    socket if there is one, deletes the recorded time, sets the state to
    [close] and asks for one reconnection; until then it only reads the
    recorded time. *)
Theorem stuck_connecting_is_restarted
    (n s : string) (r : nat) (i : Instance) (t : Z) (ttl : option Z) (w : World) :
  heap w !! r = Some i ->
  integration i = Some WHATSAPP_BAILEYS ->
  state i = "connecting" ->
  redis_up (env w) = true ->
  redis w !! RedisCache.physical_key (env w) "instance"
               (ConnectionHealthService.connecting_key n)
    = Some {| rval := RString (JStr s); rttl := ttl |} ->
  Js.nonempty s = true ->
  Js.parseInt s = Some t ->
  t <> 0 ->
  let k := RedisCache.physical_key (env w) "instance"
             (ConnectionHealthService.connecting_key n) in
  (ConnectionHealthService.CONNECTION_TIMEOUT < date_now (env w) - t ->
   exists w',
     ConnectionHealthService.checkInstanceHealth n r w = (Ok tt, w')
     /\ heap w' !! r = Some (Obj.set_state "close" (Obj.close_socket i))
     /\ redis w' = delete k (redis w)
     /\ waInstances w' = waInstances w
     /\ trace w' = (trace w ++ [Redis (GET k)]
                    ++ (if Obj.has_ws i then [WsClose r] else [])
                    ++ [Redis (DEL k); ConnectToWhatsapp r])%list)
  /\ (date_now (env w) - t <= ConnectionHealthService.CONNECTION_TIMEOUT ->
      exists w',
        ConnectionHealthService.checkInstanceHealth n r w = (Ok tt, w')
        /\ heap w' = heap w /\ redis w' = redis w
        /\ trace w' = (trace w ++ [Redis (GET k)])%list).
Proof.
  intros Hobj Hkind Hstate Hup Hk Hs Hparse Ht k. subst k.
  pose proof (settled_connecting i Hstate) as Hset.
  check_read Hobj Hkind Hset.
  health. crunch.
  rewrite (getConnectingTime_string n s ttl w Hup Hk), Hs, Hparse.
  assert (Hz : (t =? 0) = false) by now apply Z.eqb_neq.
  cbn. rewrite Hz. cbn [negb andb].
  split; intros Hlate.
  - assert (Hl : (ConnectionHealthService.CONNECTION_TIMEOUT <? date_now (env w) - t) = true)
      by now apply Z.ltb_lt.
    rewrite Hl.
    match goal with |- context [ConnectionHealthService.handleConnectionTimeout n r ?w1] =>
      destruct (handleConnectionTimeout_run n r i w1 Hobj Hup)
        as (w' & Hrun & Hheap & Hred & Hreg & Htr)
    end.
    rewrite Hrun. exists w'. cbn in *. rewrite <- app_assoc in Htr. now repeat split.
  - assert (Hl : (ConnectionHealthService.CONNECTION_TIMEOUT <? date_now (env w) - t) = false)
      by (apply Z.ltb_ge; lia).
    rewrite Hl. eexists. split; [reflexivity|]. now repeat split.
Qed.

Lemma stuck_connecting_is_restarted_witness :
  let i := Sample.baileys "alpha" "id1" "connecting" (Some Sample.ready_client) in
  let w := with_redis {[ "evolution_cache:instance:connecting_time:alpha" :=
                           {| rval := RString (JStr "1699999000000"); rttl := Some 300 |} ]}
             (Sample.one_instance Sample.env0 i []) in
  exists w',
    ConnectionHealthService.checkInstanceHealth "alpha" 0%nat w = (Ok tt, w')
    /\ heap w' !! 0%nat = Some (Obj.set_state "close" (Obj.close_socket i))
    /\ redis w' = delete "evolution_cache:instance:connecting_time:alpha" (redis w)
    /\ waInstances w' = waInstances w
    /\ trace w' = [Redis (GET "evolution_cache:instance:connecting_time:alpha");
                   WsClose 0%nat;
                   Redis (DEL "evolution_cache:instance:connecting_time:alpha");
                   ConnectToWhatsapp 0%nat].
Proof.
  intros i w.
  destruct (stuck_connecting_is_restarted "alpha" "1699999000000" 0%nat i 1699999000000
              (Some 300) w) as [H _];
    [reflexivity | reflexivity | reflexivity | reflexivity | reflexivity | reflexivity
    | reflexivity | discriminate | ].
  apply H. vm_compute. reflexivity.
Defined.

(** X15. What the health check leaves alone.  An instance of another
    integration is not looked at.  An open instance whose socket is
    ready and whose client has a user gets the probe and nothing else.
    An instance declared [close] whose socket is not ready, or whose
    client has no user id, stays closed: the check asks for no
    reconnection.  A connecting instance with no recorded start time is
    never timed out. *)
Theorem health_check_leaves_alone (n : string) (r : nat) (i : Instance) (w : World) :
  heap w !! r = Some i ->
  (integration i <> Some WHATSAPP_BAILEYS ->
   ConnectionHealthService.checkInstanceHealth n r w = (Ok tt, w))
  /\ (integration i = Some WHATSAPP_BAILEYS ->
      state i = "open" ->
      ConnectionHealthService.isWebSocketHealthy (client i) = true ->
      (exists c u, client i = Some c /\ user c = Some u) ->
      ConnectionHealthService.checkInstanceHealth n r w
      = (Ok tt, with_trace (trace w ++ [SetTimeout "pingTimeout" n 10000]) w))
  /\ (integration i = Some WHATSAPP_BAILEYS ->
      state i = "close" ->
      ConnectionHealthService.isWebSocketHealthy (client i)
      && ConnectionHealthService.hasValidClient (client i) = false ->
      ConnectionHealthService.checkInstanceHealth n r w = (Ok tt, w))
  /\ (integration i = Some WHATSAPP_BAILEYS ->
      state i = "connecting" ->
      redis w !! RedisCache.physical_key (env w) "instance"
                   (ConnectionHealthService.connecting_key n) = None ->
      exists w',
        ConnectionHealthService.checkInstanceHealth n r w = (Ok tt, w')
        /\ heap w' = heap w /\ redis w' = redis w /\ waInstances w' = waInstances w).
Proof.
  intros Hobj. repeat split.
  - intros Hkind. health. crunch.
    rewrite bool_decide_eq_false_2 by exact Hkind. reflexivity.
  - intros Hkind Hstate Hws (c & u & Hc & Hu).
    pose proof (settled_open i Hstate Hws) as Hset.
    rewrite Hc in Hws. cbn in Hws.
    check_read Hobj Hkind Hset. health. crunch. reflexivity.
  - intros Hkind Hstate Hdead.
    pose proof (settled_close i Hstate Hdead) as Hset.
    check_read Hobj Hkind Hset. health. crunch. reflexivity.
  - intros Hkind Hstate Hk.
    pose proof (settled_connecting i Hstate) as Hset.
    check_read Hobj Hkind Hset. health. crunch.
    destruct (getConnectingTime_absent n w Hk) as (w' & Hget & Henv & Hred & Hheap & Hreg & _).
    rewrite Hget. exists w'. now repeat split.
Qed.

Lemma health_check_leaves_alone_witness :
  let i := Sample.baileys "alpha" "id1" "close" None in
  let w := Sample.one_instance Sample.env0 i [] in
  ConnectionHealthService.checkInstanceHealth "alpha" 0%nat w = (Ok tt, w).
Proof.
  intros i w.
  destruct (health_check_leaves_alone "alpha" 0%nat i w) as (_ & _ & H & _);
    [reflexivity|].
  apply H; reflexivity.
Defined.

Lemma handleConnectionMismatch_run (n : string) (r : nat) (i : Instance) (w : World) :
  heap w !! r = Some i ->
  exists w',
    ConnectionHealthService.handleConnectionMismatch n r w = (Ok tt, w')
    /\ heap w' = alter (Obj.set_state "close") r (heap w)
    /\ trace w' = (trace w ++ [ConnectToWhatsapp r])%list
    /\ env w' = env w /\ redis w' = redis w /\ db w' = db w
    /\ waInstances w' = waInstances w.
Proof.
  intros Hobj. unfold ConnectionHealthService.handleConnectionMismatch. health. crunch.
  destruct (connect_ok (env w) (name i)); crunch;
    (eexists; split; [reflexivity|]); now repeat split.
Qed.

(** X16. An open instance of the socket-carrying integration whose
    transport is gone is closed and reconnected once by the health
    check, whether or not the reconnection succeeds.  With no ready
    socket the state ends as [close] and one reconnection is asked for:
    by the read of the state at the start of the check, or, when a send
    completed within the debounce window and the read has only armed
    its re-run, by the check itself.  With a ready socket but no user
    the probe fails, the socket is closed, the state is set to [close]
    and one reconnection is asked for. *)
Theorem open_instance_with_dead_transport (n : string) (r : nat) (i : Instance) (w : World) :
  heap w !! r = Some i ->
  integration i = Some WHATSAPP_BAILEYS ->
  state i = "open" ->
  (ConnectionHealthService.isWebSocketHealthy (client i) = false ->
   exists w',
     ConnectionHealthService.checkInstanceHealth n r w = (Ok tt, w')
     /\ heap w' !! r = Some (Obj.set_state "close" i)
     /\ trace w' = (trace w ++ debounce_events (date_now (env w)) i
                    ++ [ConnectToWhatsapp r])%list
     /\ redis w' = redis w /\ waInstances w' = waInstances w)
  /\ (ConnectionHealthService.isWebSocketHealthy (client i) = true ->
      (exists c, client i = Some c /\ user c = None) ->
      exists w',
        ConnectionHealthService.checkInstanceHealth n r w = (Ok tt, w')
        /\ heap w' !! r = Some (Obj.set_state "close" (Obj.close_socket i))
        /\ trace w' = (trace w ++ [SetTimeout "pingTimeout" n 10000; WsClose r;
                                   ConnectToWhatsapp r])%list
        /\ redis w' = redis w /\ waInstances w' = waInstances w).
Proof.
  intros Hobj Hkind Hstate. split.
  - intros Hws.
    assert (Hcase : (exists sent, lastMessageSentTime i = Some sent
                                  /\ date_now (env w) - sent < Obj.DEBOUNCE_WINDOW)
                    \/ state_as_read (date_now (env w)) i = "close").
    { unfold state_as_read. rewrite Hstate. cbn [String.eqb Ascii.eqb Bool.eqb].
      change (Obj.socket_ready i) with (ConnectionHealthService.isWebSocketHealthy (client i)).
      rewrite Hws. destruct (lastMessageSentTime i) as [sent|]; [|now right].
      destruct (date_now (env w) - sent <? Obj.DEBOUNCE_WINDOW) eqn:Hwin; [|now right].
      left. exists sent. split; [reflexivity | now apply Z.ltb_lt]. }
    destruct Hcase as [(sent & Hsent & Hwin)|Hread].
    + assert (Hev : debounce_events (date_now (env w)) i
                    = [SetTimeout "verifyConnectionStatusConsistency" (name i)
                         (Obj.DEBOUNCE_WINDOW - (date_now (env w) - sent))]).
      { unfold debounce_events. rewrite Hsent.
        apply Z.ltb_lt in Hwin. now rewrite Hwin. }
      unfold ConnectionHealthService.checkInstanceHealth, try_catch at 1.
      erewrite bind_ok by (apply read_ok; exact Hobj).
      rewrite (bool_decide_eq_true_2 _ Hkind). cbn [negb].
      erewrite bind_ok by (exact (verify_debounced r i w sent Hobj Hstate Hws Hsent Hwin)).
      match goal with |- context [bind (Obj.read r) _ ?w1] =>
        assert (Hobj1 : heap w1 !! r = Some i) by exact Hobj;
        destruct (handleConnectionMismatch_run n r i w1 Hobj1)
          as (w' & Hrun & Hheap & Htr & _ & Hred & _ & Hreg)
      end.
      erewrite bind_ok by (apply read_ok; exact Hobj1).
      rewrite Hstate. cbn [String.eqb Ascii.eqb Bool.eqb]. rewrite Hws. cbn [negb].
      erewrite (bind_ok (bind _ _)) by (erewrite bind_ok by exact Hrun; reflexivity).
      exists w'. split; [reflexivity|].
      cbn in Hheap, Htr, Hred, Hreg.
      rewrite Hheap, lookup_alter_eq, Hobj, Htr, Hev. cbn. rewrite <- app_assoc.
      now repeat split.
    + assert (Hev : debounce_events (date_now (env w)) i = []).
      { revert Hread. unfold state_as_read, debounce_events.
        rewrite Hstate. cbn [String.eqb Ascii.eqb Bool.eqb].
        change (Obj.socket_ready i) with (ConnectionHealthService.isWebSocketHealthy (client i)).
        rewrite Hws. destruct (lastMessageSentTime i) as [sent|]; [|reflexivity].
        destruct (date_now (env w) - sent <? Obj.DEBOUNCE_WINDOW); [|reflexivity].
        discriminate. }
      unfold ConnectionHealthService.checkInstanceHealth, try_catch.
      erewrite bind_ok by (apply read_ok; exact Hobj).
      rewrite (bool_decide_eq_true_2 _ Hkind). cbn [negb].
      erewrite bind_ok by (exact (verify_downgrades r i w Hobj Hstate Hws Hread)).
      match goal with |- context [bind (Obj.read r) _ ?w1] =>
        assert (Hobj1 : heap w1 !! r = Some (Obj.set_state "close" i))
          by (cbn; apply lookup_insert_eq)
      end.
      erewrite bind_ok by (apply read_ok; exact Hobj1).
      cbn [state Obj.set_state client String.eqb Ascii.eqb Bool.eqb].
      erewrite bind_ok by reflexivity. cbn iota.
      erewrite bind_ok by (apply read_ok; exact Hobj1).
      cbn [state Obj.set_state client String.eqb Ascii.eqb Bool.eqb].
      rewrite Hws. cbn [andb].
      erewrite bind_ok by reflexivity. cbn iota.
      erewrite bind_ok by (apply read_ok; exact Hobj1).
      cbn [state Obj.set_state client String.eqb Ascii.eqb Bool.eqb].
      eexists. split; [reflexivity|]. rewrite Hev. cbn.
      rewrite lookup_insert_eq. now repeat split.
  - intros Hws (c & Hc & Hu).
    pose proof (settled_open i Hstate Hws) as Hset.
    rewrite Hc in Hws. cbn in Hws.
    destruct (ws c) as [s|] eqn:Hsock; [|discriminate].
    assert (Hhas : Obj.has_ws i = true) by (unfold Obj.has_ws; now rewrite Hc, Hsock).
    check_read Hobj Hkind Hset.
    unfold ConnectionHealthService.performPingTest, Obj.read,
      try_catch, bind, emit, modify, ret, throw. crunch.
    match goal with |- context [ConnectionHealthService.handleConnectionFailure n r ?w1] =>
      destruct (handleConnectionFailure_run n r i w1 Hobj)
        as (w' & Hrun & Hheap & Htr & _ & Hred & _ & Hreg)
    end.
    rewrite Hrun. cbn in Hheap, Htr, Hred, Hreg. rewrite Hhas in Htr.
    rewrite Hheap, lookup_insert_eq. cbn.
    assert (Hclosed : ConnectionHealthService.isWebSocketHealthy
                        (client (Obj.close_socket i)) = false).
    { unfold Obj.close_socket. rewrite Hc, Hsock. reflexivity. }
    rewrite Hclosed. cbn.
    rewrite Hheap, lookup_insert_eq. cbn.
    exists w'. split; [reflexivity|]. rewrite Hheap, lookup_insert_eq.
    rewrite <- app_assoc in Htr. now repeat split.
Qed.

Lemma open_instance_with_dead_transport_witness :
  let i := Sample.baileys "alpha" "id1" "open" None in
  let w := Sample.one_instance Sample.env0 i [] in
  exists w',
    ConnectionHealthService.checkInstanceHealth "alpha" 0%nat w = (Ok tt, w')
    /\ heap w' !! 0%nat = Some (Obj.set_state "close" i)
    /\ trace w' = [ConnectToWhatsapp 0%nat]
    /\ redis w' = redis w /\ waInstances w' = waInstances w.
Proof.
  intros i w.
  destruct (open_instance_with_dead_transport "alpha" 0%nat i w) as [H _];
    [reflexivity | reflexivity | reflexivity |].
  apply H. reflexivity.
Defined.

(** X17. A health sweep never raises, whatever the stores and the
    instances do, and it neither adds an instance to the registry nor
    removes one. *)
Theorem health_sweep_keeps_registry :
  Total ConnectionHealthService.performHealthChecks
  /\ Sat same_registry ConnectionHealthService.performHealthChecks
  /\ Sat same_env ConnectionHealthService.performHealthChecks.
Proof.
  split; [total_auto|]. split; sat_auto ltac:(idtac; reflexivity).
Qed.

(** ** The restoration run: errors and follow-up *)

(** X18. A startup run never raises, whatever the stores, the channel
    factory and the connections do; neither do its cache stage and its
    database stage run on their own.  With the relational store
    unreachable the database stage answers 0 after its one query and
    changes nothing else. *)
Theorem startup_never_raises :
  Total SessionRestorationService.restoreAllSessions
  /\ Total SessionRestorationService.restoreFromRedisCache
  /\ (forall c, Total (SessionRestorationService.restoreFromDatabase c))
  /\ (forall c w,
        db_up (env w) = false ->
        SessionRestorationService.restoreFromDatabase c w
        = (Ok 0, with_trace (trace w ++ [DbFindMany c]) w)).
Proof.
  split; [total_auto|]. split; [total_auto|]. split; [intros c; total_auto|].
  intros c w Hdb.
  unfold SessionRestorationService.restoreFromDatabase, Prisma.findManyEligible, Prisma.query.
  unfold try_catch at 1, bind at 1, bind at 1, emit, modify.
  cbn -[for_fold try_catch]. now rewrite Hdb.
Qed.

Lemma startup_never_raises_witness :
  let w := with_db [Sample.row "id1" "alpha" "open"]
             (Sample.empty_world
                {| REDIS_ENABLED := true; REDIS_SAVE_INSTANCES := true; REDIS_TTL := 604800;
                   REDIS_PREFIX_KEY := "evolution_cache";
                   SAVE_DATA_INSTANCE := true; CLIENT_NAME := "evolution_production";
                   redis_up := true; db_up := false;
                   init_ok := fun _ => true; connect_ok := fun _ => true;
                   webhook_ok := fun _ => true;
                   health_job_ok := true; date_now := 1700000000000;
                   JSON_parse := fun _ => None |}) in
  SessionRestorationService.restoreFromDatabase "evolution_production" w
  = (Ok 0, with_trace (trace w ++ [DbFindMany "evolution_production"]) w).
Proof.
  intro w.
  destruct startup_never_raises as (_ & _ & _ & H). apply H. reflexivity.
Defined.

Lemma cache_delete_run (key : string) (w : World) :
  redis_up (env w) = true ->
  exists c,
    cache.delete key w
    = (Ok (Some c),
       with_redis (delete (RedisCache.physical_key (env w) "instance" key) (redis w))
         (with_trace (trace w ++ [Redis (DEL (RedisCache.physical_key (env w) "instance" key))])
            w)).
Proof.
  intros Hup. unfold cache.delete, cache.module, RedisCache.delete, RedisCache.buildKey.
  unfold try_catch, bind at 1, bind at 1, get_env, ret at 1. cbv beta.
  unfold bind at 1.
  destruct (del_redis (RedisCache.physical_key (env w) "instance" key) w Hup) as [c Hc].
  rewrite Hc. now exists c.
Qed.

Lemma attemptReconnection_run (n : string) (r : nat) (i : Instance) (w : World) :
  heap w !! r = Some i ->
  SessionRestorationService.attemptReconnection n r w
  = (Ok tt,
     if bool_decide (integration i = Some WHATSAPP_BAILEYS)
     then with_trace (trace w ++ [ConnectToWhatsapp r]) w else w).
Proof.
  intros Hobj. unfold SessionRestorationService.attemptReconnection. health. crunch.
  destruct (bool_decide (integration i = Some WHATSAPP_BAILEYS)); crunch; [|reflexivity].
  destruct (connect_ok (env w) (name i)); reflexivity.
Qed.

(** X19. The deferred verification of a restored instance does
    nothing for a name the registry has no answer for.  For a
    registered instance, with the server reachable, it returns without
    raising and leaves the registry as it is.  It reads the state of
    the instance; then it asks for one reconnection of an instance of
    the socket-carrying integration whose state as read is neither
    [connecting] nor [open] with its client and id in place, and
    schedules another verification in 30 s for one that is still
    connecting; it ends by deleting the restoration marker.  The object
    and the durable table are as the read leaves them. *)
Theorem verification_of_restored_instance (n : string) (w : World) :
  (WAMonitoringService.entry (waInstances w) n = WAMonitoringService.Undefined ->
   SessionRestorationService.verifyInstanceConnection n w = (Ok tt, w))
  /\ (forall r i,
        waInstances w !! n = Some r ->
        heap w !! r = Some i ->
        redis_up (env w) = true ->
        let k := RedisCache.physical_key (env w) "instance"
                   (SessionRestorationService.restored_key n) in
        let s := state_as_read (date_now (env w)) i in
        let reconnect := if bool_decide (integration i = Some WHATSAPP_BAILEYS)
                         then [ConnectToWhatsapp r] else [] in
        let follow_up :=
          if String.eqb s "open" then
            if (match client i with Some _ => true | None => false end)
               && Js.truthy_str (instanceId i)
            then [] else reconnect
          else if String.eqb s "connecting"
               then [SetTimeout "verifyInstanceConnection" n 30000]
               else reconnect in
        exists w',
          SessionRestorationService.verifyInstanceConnection n w = (Ok tt, w')
          /\ redis w' = delete k (redis w)
          /\ heap w' = <[r := Obj.set_state s i]> (heap w)
          /\ db w' = db (after_read r i w)
          /\ waInstances w' = waInstances w
          /\ trace w' = (trace w ++ read_events (date_now (env w)) r i
                         ++ follow_up ++ [Redis (DEL k)])%list).
Proof.
  split.
  - intros Hreg. unfold SessionRestorationService.verifyInstanceConnection,
      WAMonitoringService.lookup, try_catch, bind. now rewrite Hreg.
  - intros r i Hreg Hobj Hup k s reconnect follow_up.
    unfold SessionRestorationService.verifyInstanceConnection.
    unfold try_catch at 1.
    erewrite bind_ok by (apply lookup_ok; exact Hreg). cbv iota.
    erewrite bind_ok by (apply verify_run; exact Hobj).
    set (w0 := after_read r i w).
    assert (Hobj0 : heap w0 !! r = Some (Obj.set_state s i)) by apply after_read_object.
    erewrite bind_ok by (apply read_ok; exact Hobj0).
    cbn [state client instanceId Obj.set_state].
    assert (Hmid : exists w1,
               (if String.eqb s "open" then
                  if (match client i with Some _ => true | None => false end)
                     && Js.truthy_str (instanceId i)
                  then ret tt
                  else SessionRestorationService.attemptReconnection n r
                else if String.eqb s "connecting" then
                  emit (SetTimeout "verifyInstanceConnection" n 30000)
                else SessionRestorationService.attemptReconnection n r) w0 = (Ok tt, w1)
               /\ w1 = with_trace (trace w0 ++ follow_up) w0).
    { subst follow_up reconnect. assert (Hid : with_trace (trace w0 ++ []) w0 = w0).
      { rewrite app_nil_r. now destruct w0. }
      destruct (String.eqb s "open").
      - destruct (_ && _).
        + exists w0. now rewrite Hid.
        + rewrite (attemptReconnection_run n r _ w0 Hobj0). cbn [integration Obj.set_state].
          destruct (bool_decide _); eexists; (split; [reflexivity|]); now rewrite ?Hid.
      - destruct (String.eqb s "connecting").
        + eexists. split; reflexivity.
        + rewrite (attemptReconnection_run n r _ w0 Hobj0). cbn [integration Obj.set_state].
          destruct (bool_decide _); eexists; (split; [reflexivity|]); now rewrite ?Hid. }
    destruct Hmid as (w1 & Hrun1 & Hw1).
    destruct (cache_delete_run (SessionRestorationService.restored_key n) w1) as [c Hc].
    { now rewrite Hw1. }
    erewrite bind_ok by exact Hrun1. erewrite bind_ok by exact Hc.
    eexists. split; [reflexivity|].
    rewrite Hw1. cbn. rewrite <- !app_assoc. now repeat split.
Qed.

Lemma verification_of_restored_instance_witness :
  let i := Sample.baileys "alpha" "id1" "close" None in
  let w := Sample.one_instance Sample.env0 i [] in
  exists w',
    SessionRestorationService.verifyInstanceConnection "alpha" w = (Ok tt, w')
    /\ redis w' = delete "evolution_cache:instance:restored:alpha" (redis w)
    /\ heap w' = <[0%nat := i]> (heap w)
    /\ db w' = []
    /\ waInstances w' = waInstances w
    /\ trace w' = [ConnectToWhatsapp 0%nat;
                   Redis (DEL "evolution_cache:instance:restored:alpha")].
Proof.
  intros i w.
  destruct (verification_of_restored_instance "alpha" w) as [_ H].
  apply (H 0%nat i); reflexivity.
Defined.

(** ** The periodic validation of sessions *)

Lemma for_each_idle {A} (body : A -> M unit) (w : World) (l : list A) :
  (forall x, x ∈ l -> body x w = (Ok tt, w)) ->
  for_each l body w = (Ok tt, w).
Proof.
  induction l as [|x l IH]; intros H; [reflexivity|].
  cbn [for_each]. unfold bind. rewrite (H x) by left.
  apply IH. intros y Hy. apply H. now right.
Qed.

Lemma instance_names_registered (w : World) (n : string) :
  n ∈ map fst (map_to_list (waInstances w)) -> is_Some (waInstances w !! n).
Proof.
  intros Hin. apply list_elem_of_fmap in Hin as [[n' r] [-> Hin]].
  apply elem_of_map_to_list in Hin. now exists r.
Qed.

Lemma total_persist n d : Total (SessionRestorationService.persistInstanceState n d).
Proof. total_auto. Qed.

(** X20. The periodic validation never raises and never touches the
    registry.  It reads the state of every registered instance.  When
    every instance is one the read has nothing to do for, and none is
    open with its client, its id and its [wuid] in place, it issues no
    command to either store: the world is as before.  Over a registry
    of one instance, the validation is the read of its state, followed,
    exactly when the state as read is [open] and the client, the id and
    the [wuid] are in place, by the persist of its state with status
    [open] and its [wuid] as owner. *)
Theorem validation_persists_only_healthy_sessions :
  Total SessionRestorationService.validateSessionHealth
  /\ Sat same_registry SessionRestorationService.validateSessionHealth
  /\ (forall w,
       (forall n r, waInstances w !! n = Some r ->
          exists i, heap w !! r = Some i
                    /\ settled i = true
                    /\ String.eqb (state i) "open"
                       && (match client i with Some _ => true | None => false end)
                       && Js.truthy_str (instanceId i) && Js.truthy_str (wuid i) = false) ->
       SessionRestorationService.validateSessionHealth w = (Ok tt, w))
  /\ (forall w n r i,
        waInstances w = {[ n := r ]} ->
        heap w !! r = Some i ->
        SessionRestorationService.validateSessionHealth w
        = if String.eqb (state_as_read (date_now (env w)) i) "open"
             && (match client i with Some _ => true | None => false end)
             && Js.truthy_str (instanceId i) && Js.truthy_str (wuid i)
          then SessionRestorationService.persistInstanceState n
                 (SessionRestorationService.health_data n i) (after_read r i w)
          else (Ok tt, after_read r i w)).
Proof.
  split; [|split; [|split]].
  - unfold SessionRestorationService.validateSessionHealth. total_auto.
  - unfold SessionRestorationService.validateSessionHealth.
    sat_auto ltac:(idtac; reflexivity).
  - intros w Hall. unfold SessionRestorationService.validateSessionHealth.
    unfold try_catch, bind at 1, WAMonitoringService.instance_names.
    rewrite for_each_idle; [reflexivity|].
    intros n Hn. apply instance_names_registered in Hn as [r Hr].
    destruct (Hall n r Hr) as (i & Hobj & Hset & Hbad).
    erewrite bind_ok by (apply lookup_ok; exact Hr). cbv iota.
    erewrite bind_ok by (apply (verify_settled r i w Hobj Hset)).
    erewrite bind_ok by (apply read_ok; exact Hobj).
    destruct (String.eqb (state i) "open"); [|reflexivity].
    cbn in Hbad. now rewrite Hbad.
  - intros w n r i Hreg Hobj.
    unfold SessionRestorationService.validateSessionHealth.
    unfold try_catch at 1, bind at 1, WAMonitoringService.instance_names.
    rewrite Hreg, map_to_list_singleton. cbn [map fst for_each].
    assert (Hr : waInstances w !! n = Some r) by (rewrite Hreg; apply lookup_singleton_eq).
    unfold bind at 1.
    erewrite bind_ok by (apply lookup_ok; exact Hr). cbv iota.
    erewrite bind_ok by (apply verify_run; exact Hobj).
    erewrite bind_ok by (apply read_ok, after_read_object).
    cbn [state client instanceId wuid Obj.set_state].
    destruct (String.eqb (state_as_read (date_now (env w)) i) "open"); [|reflexivity].
    cbn [andb].
    destruct ((match client i with Some _ => true | None => false end)
              && Js.truthy_str (instanceId i) && Js.truthy_str (wuid i)); [|reflexivity].
    change (SessionRestorationService.health_data n
              (Obj.set_state (state_as_read (date_now (env w)) i) i))
      with (SessionRestorationService.health_data n i).
    destruct (total_persist n (SessionRestorationService.health_data n i) (after_read r i w))
      as [[] Ht].
    destruct (SessionRestorationService.persistInstanceState n
                (SessionRestorationService.health_data n i) (after_read r i w))
      as [[[]|e] w'];
      [reflexivity | discriminate].
Qed.

Lemma validation_persists_only_healthy_sessions_witness :
  let w := Sample.one_instance Sample.env0
             (Sample.baileys "alpha" "id1" "open" (Some Sample.ready_client))
             [Sample.row "id1" "alpha" "close"] in
  SessionRestorationService.validateSessionHealth w = (Ok tt, w).
Proof.
  intro w.
  destruct validation_persists_only_healthy_sessions as (_ & _ & H & _).
  apply H. intros n r Hr.
  exists (Sample.baileys "alpha" "id1" "open" (Some Sample.ready_client)).
  change (({[ "alpha" := 0%nat ]} : gmap string nat) !! n = Some r) in Hr.
  apply lookup_singleton_Some in Hr as [<- <-]. repeat split; reflexivity.
Defined.

(** ** The monitor: the cache probe and the loader *)

(** X21. The cache probe answers true exactly when the server is
    reachable.  When it is, the throw-away key is written with a TTL of
    five seconds, read back and deleted: the key is absent afterwards
    and every other key is as before.  When it is not, the first write
    raises, the probe answers false and nothing is stored. *)
Theorem cache_probe_answers_reachability (n : string) (w : World) :
  let k := RedisCache.physical_key (env w) "instance"
             (WAMonitoringService.test_key n (date_now (env w))) in
  (redis_up (env w) = true ->
   WAMonitoringService.checkCacheAvailability n w
   = (Ok true,
      with_redis (delete k (redis w))
        (with_trace (trace w ++ [Redis (SETEX k 5 (JStr "test")); Redis (GET k);
                                 Redis (DEL k)]) w)))
  /\ (redis_up (env w) = false ->
      WAMonitoringService.checkCacheAvailability n w
      = (Ok false, with_trace (trace w ++ [Redis (SETEX k 5 (JStr "test"))]) w)).
Proof.
  intros k. subst k.
  unfold WAMonitoringService.checkCacheAvailability, cache.set, cache.get, cache.delete,
    cache.module.
  split; intros Hup; engine; crunch; rewrite <- ?app_assoc;
    rewrite ?delete_insert_eq; reflexivity.
Qed.

Lemma cache_probe_answers_reachability_witness :
  fst (WAMonitoringService.checkCacheAvailability "alpha"
         (Sample.empty_world Sample.env0)) = Ok true
  /\ fst (WAMonitoringService.checkCacheAvailability "alpha"
            (Sample.empty_world Sample.env_redis_down)) = Ok false.
Proof.
  split.
  - destruct (cache_probe_answers_reachability "alpha" (Sample.empty_world Sample.env0))
      as [H _]. now rewrite H.
  - destruct (cache_probe_answers_reachability "alpha"
                (Sample.empty_world Sample.env_redis_down)) as [_ H]. now rewrite H.
Defined.

Lemma loader_loop (rows : list DbInstance) : forall w,
  (forall row, row ∈ rows ->
     init_ok (env w) (WAMonitoringService.dto_of_base_row row) = true
     /\ connect_ok (env w) (row_name row) = true) ->
  exists w',
    for_each rows (fun instance =>
      try_catch (WAMonitoringService.setInstance (WAMonitoringService.dto_of_base_row instance))
                (fun _ => ret tt)) w = (Ok tt, w')
    /\ env w' = env w
    /\ (next_ref w <= next_ref w')%nat
    /\ (forall n, n ∉ map row_name rows -> waInstances w' !! n = waInstances w !! n)
    /\ (forall r, (r < next_ref w)%nat -> heap w' !! r = heap w !! r)
    /\ (forall row, row ∈ rows ->
          exists r i,
            waInstances w' !! row_name row = Some r
            /\ heap w' !! r = Some i
            /\ name i = row_name row /\ state i = "close"
            /\ (next_ref w <= r)%nat).
Proof.
  induction rows as [|x rows IH]; intros w Hok.
  - exists w. cbn. repeat split; try lia. intros row Hrow. inversion Hrow.
  - destruct (Hok x ltac:(left)) as [Hinit Hconn].
    destruct (setInstance_ok (WAMonitoringService.dto_of_base_row x) w Hinit Hconn)
      as (w1 & Hrun & Hreg & Hheap & Hnext & Henv & _).
    cbn [WAMonitoringService.dto_of_base_row dto_instanceName WAMonitoringService.key_of
         default from_option id] in Hreg.
    destruct (IH w1) as (w' & Hloop & Henv' & Hnext' & Hout & Hold & Hin).
    { intros row Hrow. rewrite Henv. apply Hok. now right. }
    exists w'. cbn [for_each]. unfold bind at 1, try_catch at 1. rewrite Hrun, Hloop.
    split; [reflexivity|]. split; [congruence|]. split; [lia|]. split; [|split].
    + intros n Hn. cbn [map] in Hn. rewrite not_elem_of_cons in Hn. destruct Hn as [Hne Hn].
      rewrite (Hout n Hn), Hreg. now rewrite lookup_insert_ne by congruence.
    + intros r Hr. rewrite Hold by lia. rewrite Hheap. apply lookup_insert_ne. lia.
    + intros row Hrow. apply elem_of_cons in Hrow as [->|Hrow].
      * destruct (decide (row_name x ∈ map row_name rows)) as [Hdup|Hfresh].
        -- apply list_elem_of_fmap in Hdup as (row' & Hname & Hrow').
           destruct (Hin row' Hrow') as (r & i & Hr & Hi & Hn & Hs & Hge).
           exists r, i. rewrite Hname. repeat split; try assumption. lia.
        -- exists (next_ref w), (WAMonitoringService.fresh_instance
                                   (WAMonitoringService.dto_of_base_row x)).
           rewrite (Hout _ Hfresh), Hreg, lookup_insert_eq.
           rewrite Hold by lia. rewrite Hheap, lookup_insert_eq.
           repeat split. lia.
      * destruct (Hin row Hrow) as (r & i & Hr & Hi & Hn & Hs & Hge).
        exists r, i. repeat split; try assumption. lia.
Qed.

(** X22. With the relational store reachable, the monitor's loader
    registers every row of the client, whatever its connection status:
    when the channel factory accepts each row and each connection
    succeeds, every such row's name ends up registered to an instance
    object created by this run (also when the name was registered
    before), carrying that name and declared state [close]; names that
    no row of the client bears keep their entries. *)
Theorem loader_registers_every_row (w : World) :
  db_up (env w) = true ->
  (forall row, In row (db w) ->
     row_clientName row = CLIENT_NAME (env w) ->
     init_ok (env w) (WAMonitoringService.dto_of_base_row row) = true
     /\ connect_ok (env w) (row_name row) = true) ->
  exists w',
    WAMonitoringService.loadInstancesFromDatabasePostgres w = (Ok tt, w')
    /\ (forall row, In row (db w) ->
          row_clientName row = CLIENT_NAME (env w) ->
          exists r i,
            waInstances w' !! row_name row = Some r
            /\ heap w' !! r = Some i
            /\ name i = row_name row /\ state i = "close"
            /\ (next_ref w <= r)%nat)
    /\ (forall n,
          (forall row, In row (db w) -> row_clientName row = CLIENT_NAME (env w) ->
                       row_name row <> n) ->
          waInstances w' !! n = waInstances w !! n).
Proof.
  intros Hdb Hok.
  unfold WAMonitoringService.loadInstancesFromDatabasePostgres,
    Prisma.findManyOfClient, Prisma.query.
  unfold bind at 1, get_env, bind at 1, bind at 1, emit, modify.
  cbn -[for_each try_catch]. rewrite Hdb.
  set (rows := List.filter _ (db w)).
  assert (Hrows : forall row, row ∈ rows <->
                    In row (db w) /\ row_clientName row = CLIENT_NAME (env w)).
  { intros row. subst rows. rewrite list_elem_of_In, filter_In, String.eqb_eq. tauto. }
  match goal with |- context [for_each rows _ ?w1] => set (w1' := w1) end.
  destruct (loader_loop rows w1') as (w' & Hloop & _ & _ & Hout & _ & Hin).
  { intros row Hrow. apply Hrows in Hrow as [Hrow Hc]. now apply Hok. }
  exists w'. rewrite Hloop. split; [reflexivity|]. split.
  - intros row Hrow Hc. apply Hin, Hrows. now split.
  - intros n Hn. apply Hout. intros Hmem.
    apply list_elem_of_fmap in Hmem as (row & -> & Hrow).
    apply Hrows in Hrow as [Hrow Hc]. now apply (Hn row).
Qed.

Lemma loader_registers_every_row_witness :
  let w := with_db [Sample.row "id1" "alpha" "close"] (Sample.empty_world Sample.env0) in
  exists w',
    WAMonitoringService.loadInstancesFromDatabasePostgres w = (Ok tt, w')
    /\ exists r i,
         waInstances w' !! "alpha" = Some r
         /\ heap w' !! r = Some i
         /\ name i = "alpha" /\ state i = "close".
Proof.
  intro w.
  destruct (loader_registers_every_row w) as (w' & Hrun & Hin & _).
  - reflexivity.
  - intros row _ _. split; reflexivity.
  - exists w'. split; [exact Hrun|].
    destruct (Hin (Sample.row "id1" "alpha" "close")) as (r & i & Hr & Hi & Hn & Hs & _).
    + left. reflexivity.
    + reflexivity.
    + now exists r, i.
Defined.

(** ** The shutdown drain: order and outcome of its steps *)

#[local] Instance same_persistent_preorder : PreOrder same_persistent.
Proof.
  split; [now intros w|].
  intros a b c (H1 & H2 & H3) (H4 & H5 & H6). unfold same_persistent.
  repeat split; congruence.
Qed.

Lemma closed_socket_quiet (j : Instance) (c : Client) (s : WebSocket) :
  client j = Some c -> ws c = Some s ->
  integration (Obj.close_socket (Obj.set_state "close" j)) = integration j
  /\ quiet (Obj.close_socket (Obj.set_state "close" j)).
Proof.
  intros Hc Hs. unfold quiet, Obj.has_ws, Obj.close_socket, Obj.set_state. cbn.
  rewrite Hc. cbn. rewrite Hs. cbn. split; [reflexivity|]. split; [reflexivity|]. reflexivity.
Qed.

Lemma unready_socket_quiet (j : Instance) (c : Client) (s : WebSocket) :
  client j = Some c -> ws c = Some s -> (readyState s =? 1) = false ->
  integration (Obj.set_state "close" j) = integration j
  /\ quiet (Obj.set_state "close" j).
Proof.
  intros Hc Hs Hr. unfold quiet, Obj.has_ws, Obj.set_state. cbn.
  rewrite Hc. cbn. rewrite Hs. split; [reflexivity|]. split; [exact Hr|]. reflexivity.
Qed.

Lemma alter_present {A} (f : A -> A) (r : nat) (x : A) (h : gmap nat A) :
  h !! r = Some x -> alter f r h = <[r := f x]> h.
Proof.
  intros Hx. apply map_eq. intros q. destruct (decide (q = r)) as [->|Hne].
  - now rewrite lookup_alter_eq, lookup_insert_eq, Hx.
  - now rewrite lookup_alter_ne, lookup_insert_ne by congruence.
Qed.

Lemma closeBaileysConnection_run (n : string) (r : nat) (j : Instance) (w : World) :
  heap w !! r = Some j ->
  exists w' j',
    GracefulShutdownService.closeBaileysConnection n r w = (Ok tt, w')
    /\ waInstances w' = waInstances w
    /\ heap w' = <[r := j']> (heap w)
    /\ integration j' = integration j
    /\ quiet j'.
Proof.
  intros Hobj. unfold GracefulShutdownService.closeBaileysConnection.
  unfold Obj.client_end. health. crunch.
  destruct (client j) as [c|] eqn:Hc; crunch.
  - destruct (ws c) as [s|] eqn:Hs; crunch.
    + destruct (readyState s =? 1) eqn:Hready; crunch.
      * destruct (closed_socket_quiet j c s Hc Hs) as [Hi Hq].
        destruct (has_end c); crunch;
          (eexists; exists (Obj.close_socket (Obj.set_state "close" j));
           split; [reflexivity|]); cbn; (split; [reflexivity|]);
          (split; [|now split]);
          rewrite (alter_present (Obj.set_state "close") r j _ Hobj);
          now rewrite alter_insert_eq.
      * destruct (unready_socket_quiet j c s Hc Hs Hready) as [Hi Hq].
        destruct (has_end c); crunch;
          (eexists; exists (Obj.set_state "close" j);
           split; [reflexivity|]); cbn; (split; [reflexivity|]);
          (split; [|now split]);
          now rewrite (alter_present (Obj.set_state "close") r j _ Hobj).
    + eexists; exists j. split; [reflexivity|]. cbn. split; [reflexivity|].
      split; [now rewrite (insert_id _ _ _ Hobj)|]. split; [reflexivity|].
      unfold quiet, Obj.has_ws. rewrite Hc. cbn. rewrite Hs.
      split; [reflexivity | discriminate].
  - eexists; exists j. split; [reflexivity|]. cbn. split; [reflexivity|].
    split; [now rewrite (insert_id _ _ _ Hobj)|]. split; [reflexivity|].
    unfold quiet, Obj.has_ws. rewrite Hc. cbn. split; [reflexivity | discriminate].
Qed.

(** One task of [closeAllConnections]. *)
Lemma close_task (n : string) (w : World) :
  exists w',
    try_catch
      (let! instance := WAMonitoringService.lookup n in
       match instance with
       | WAMonitoringService.Registered r =>
           let! i := Obj.read r in
           when (bool_decide (integration i = Some WHATSAPP_BAILEYS))
                (GracefulShutdownService.closeBaileysConnection n r)
       | _ => ret tt
       end)
      (fun _ => ret tt) w = (Ok tt, w')
    /\ waInstances w' = waInstances w
    /\ (heap w' = heap w
        \/ exists r j j',
             waInstances w !! n = Some r /\ heap w !! r = Some j
             /\ heap w' = <[r := j']> (heap w)
             /\ integration j' = integration j /\ quiet j')
    /\ (forall r j,
          waInstances w !! n = Some r -> heap w !! r = Some j ->
          integration j = Some WHATSAPP_BAILEYS ->
          exists j', heap w' !! r = Some j' /\ quiet j').
Proof.
  unfold try_catch at 1, bind at 1, WAMonitoringService.lookup, WAMonitoringService.entry.
  destruct (waInstances w !! n) as [r|] eqn:Hreg.
  - unfold bind at 1, Obj.read. destruct (heap w !! r) as [j|] eqn:Hobj.
    + destruct (bool_decide (integration j = Some WHATSAPP_BAILEYS)) eqn:Hkind.
      * destruct (closeBaileysConnection_run n r j w Hobj)
          as (w' & j' & Hrun & Hr & Hh & Hi & Hq).
        exists w'. cbn [when]. rewrite Hrun.
        split; [reflexivity|]. split; [exact Hr|]. split.
        -- right. now exists r, j, j'.
        -- intros r0 j0 Hr0 Hj0 _. inversion Hr0; subst r0.
           exists j'. now rewrite Hh, lookup_insert_eq.
      * exists w. split; [reflexivity|]. split; [reflexivity|]. split; [now left|].
        intros r0 j0 Hr0 Hj0 Hb. inversion Hr0; subst r0.
        rewrite Hobj in Hj0. inversion Hj0; subst j0.
        apply bool_decide_eq_false_1 in Hkind. contradiction.
    + exists w. split; [reflexivity|]. split; [reflexivity|]. split; [now left|].
      intros r0 j0 Hr0 Hj0 _. inversion Hr0; subst r0. congruence.
  - exists w. split; [now destruct (Js.inherited n)|].
    split; [reflexivity|]. split; [now left|].
    intros r j Hr. discriminate.
Qed.

Lemma close_loop (n : string) (r : nat) (l : list string) : forall w,
  waInstances w !! n = Some r ->
  (exists j, heap w !! r = Some j /\ integration j = Some WHATSAPP_BAILEYS) ->
  exists w',
    for_each l (fun instanceName =>
      try_catch
        (let! instance := WAMonitoringService.lookup instanceName in
         match instance with
         | WAMonitoringService.Registered r =>
             let! i := Obj.read r in
             when (bool_decide (integration i = Some WHATSAPP_BAILEYS))
                  (GracefulShutdownService.closeBaileysConnection instanceName r)
         | _ => ret tt
         end)
        (fun _ => ret tt)) w = (Ok tt, w')
    /\ waInstances w' = waInstances w
    /\ exists j, heap w' !! r = Some j
                 /\ integration j = Some WHATSAPP_BAILEYS
                 /\ (n ∈ l \/ (exists j0, heap w !! r = Some j0 /\ quiet j0) -> quiet j).
Proof.
  induction l as [|x l IH]; intros w Hreg (j & Hobj & Hkind).
  - exists w. split; [reflexivity|]. split; [reflexivity|].
    exists j. split; [exact Hobj|]. split; [exact Hkind|].
    intros [Hin|(j0 & Hj0 & Hq)]; [inversion Hin|]. congruence.
  - destruct (close_task x w) as (w1 & Hrun & Hr1 & Hheap & Hest).
    assert (Hinv : exists j1, heap w1 !! r = Some j1
                              /\ integration j1 = Some WHATSAPP_BAILEYS
                              /\ (x = n \/ quiet j -> quiet j1)).
    { destruct Hheap as [Hsame|(r' & j0 & j' & Hx & Hj0 & Hh & Hi & Hq)].
      - exists j. rewrite Hsame. split; [exact Hobj|]. split; [exact Hkind|].
        intros [->|Hq]; [|exact Hq].
        destruct (Hest r j Hreg Hobj Hkind) as (j' & Hj' & Hq').
        rewrite Hsame in Hj'. congruence.
      - destruct (decide (r' = r)) as [->|Hne].
        + exists j'. rewrite Hh, lookup_insert_eq. split; [reflexivity|].
          split; [rewrite Hi; congruence | now intros _].
        + exists j. rewrite Hh, lookup_insert_ne by congruence.
          split; [exact Hobj|]. split; [exact Hkind|].
          intros [->|Hq0]; [|exact Hq0]. congruence. }
    destruct Hinv as (j1 & Hobj1 & Hkind1 & Hq1).
    destruct (IH w1 ltac:(now rewrite Hr1) ltac:(now exists j1))
      as (w' & Hloop & Hr' & j2 & Hobj2 & Hkind2 & Hq2).
    exists w'. cbn [for_each]. unfold bind at 1. rewrite Hrun, Hloop.
    split; [reflexivity|]. split; [congruence|].
    exists j2. split; [exact Hobj2|]. split; [exact Hkind2|].
    intros [Hin|(j0 & Hj0 & Hq0)]; apply Hq2.
    + apply elem_of_cons in Hin as [->|Hin]; [|now left].
      right. exists j1. split; [exact Hobj1|]. apply Hq1. now left.
    + right. exists j1. split; [exact Hobj1|]. apply Hq1. right. congruence.
Qed.

(** X23. After [closeAllConnections], which never raises and leaves
    the registry and the two stores as they were, no registered
    instance of the socket-carrying integration has a ready socket, and
    each one that has a socket is in declared state [close]. *)
Theorem drain_leaves_no_ready_socket (w : World) (n : string) (r : nat) (i : Instance) :
  waInstances w !! n = Some r ->
  heap w !! r = Some i ->
  integration i = Some WHATSAPP_BAILEYS ->
  exists w' i',
    GracefulShutdownService.closeAllConnections w = (Ok tt, w')
    /\ waInstances w' = waInstances w
    /\ redis w' = redis w /\ db w' = db w
    /\ heap w' !! r = Some i'
    /\ ConnectionHealthService.isWebSocketHealthy (client i') = false
    /\ (Obj.has_ws i' = true -> state i' = "close").
Proof.
  intros Hreg Hobj Hkind.
  assert (Hstores : Sat same_persistent GracefulShutdownService.closeAllConnections).
  { sat_auto ltac:(idtac; repeat split; reflexivity). }
  specialize (Hstores w).
  destruct (close_loop n r (map fst (map_to_list (waInstances w))) w Hreg
              ltac:(now exists i)) as (w' & Hloop & Hr' & j & Hj & _ & Hq).
  assert (Hrun : GracefulShutdownService.closeAllConnections w = (Ok tt, w')).
  { unfold GracefulShutdownService.closeAllConnections.
    unfold try_catch at 1, bind at 1, WAMonitoringService.instance_names.
    now rewrite Hloop. }
  rewrite Hrun in Hstores. destruct Hstores as (_ & Hred & Hdb). cbn in Hred, Hdb.
  assert (Hin : n ∈ map fst (map_to_list (waInstances w))).
  { apply list_elem_of_fmap. exists (n, r). split; [reflexivity|].
    now apply elem_of_map_to_list. }
  destruct (Hq (or_introl Hin)) as [Hq1 Hq2].
  exists w', j. now repeat split.
Qed.

Lemma drain_leaves_no_ready_socket_witness :
  let i := Sample.baileys "alpha" "id1" "open" (Some Sample.ready_client) in
  let w := Sample.one_instance Sample.env0 i [Sample.row "id1" "alpha" "open"] in
  exists w' i',
    GracefulShutdownService.closeAllConnections w = (Ok tt, w')
    /\ waInstances w' = waInstances w
    /\ redis w' = redis w /\ db w' = db w
    /\ heap w' !! 0%nat = Some i'
    /\ ConnectionHealthService.isWebSocketHealthy (client i') = false
    /\ (Obj.has_ws i' = true -> state i' = "close").
Proof.
  intros i w. apply (drain_leaves_no_ready_socket w "alpha" 0%nat i); reflexivity.
Defined.

Lemma sat_save_registry : Sat same_registry GracefulShutdownService.saveAllInstanceStates.
Proof. sat_auto ltac:(idtac; reflexivity). Qed.

#[local] Instance states_only_preorder : PreOrder states_only.
Proof.
  split.
  - intros w r. destruct (heap w !! r) as [i|] eqn:Hi; [|reflexivity].
    exists (state i). now rewrite set_state_same.
  - intros a b c H1 H2 r. specialize (H1 r). specialize (H2 r).
    destruct (heap a !! r) as [i|].
    + destruct H1 as [s1 H1]. rewrite H1 in H2. destruct H2 as [s2 H2].
      exists s2. rewrite H2. reflexivity.
    + now rewrite H1 in H2.
Qed.

Ltac states_leaf :=
  let r0 := fresh "r0" in
  intros r0; cbn;
  match goal with
  | |- context [alter _ ?r _ !! r0] =>
      destruct (decide (r0 = r)) as [->|];
      [ rewrite lookup_alter_eq;
        match goal with
        | |- context [heap ?w !! r] => destruct (heap w !! r); cbn; eauto
        end
      | rewrite lookup_alter_ne by congruence;
        match goal with
        | |- context [heap ?w !! r0] =>
            let i := fresh "i" in
            destruct (heap w !! r0) as [i|]; [exists (state i); now rewrite set_state_same|reflexivity]
        end ]
  | |- context [heap ?w !! r0] =>
      let i := fresh "i" in
      destruct (heap w !! r0) as [i|]; [exists (state i); now rewrite set_state_same|reflexivity]
  end.

Lemma sat_save_states : Sat states_only GracefulShutdownService.saveAllInstanceStates.
Proof. sat_auto ltac:(idtac; states_leaf). Qed.

Lemma sat_persist_objects n d :
  Sat same_objects (SessionRestorationService.persistInstanceState n d).
Proof. sat_auto ltac:(idtac; split; reflexivity). Qed.

Lemma all_settled_single (n : string) (r : nat) (i : Instance) (w : World) :
  waInstances w = {[ n := r ]} -> heap w !! r = Some i -> settled i = true ->
  all_settled w.
Proof.
  intros Hreg Hobj Hs n' r' i' Hn' Hi'. rewrite Hreg in Hn'.
  apply lookup_singleton_Some in Hn' as [<- <-]. congruence.
Qed.

(** The save loop over instances the read has nothing to do for. *)
Lemma save_loop_settled (l : list string) : forall w,
  all_settled w ->
  same_objects w
    (snd (for_each l (fun instanceName =>
            try_catch
              (let! instance := WAMonitoringService.lookup instanceName in
               match instance with
               | WAMonitoringService.Undefined => ret tt
               | WAMonitoringService.Prototype =>
                   SessionRestorationService.persistInstanceState instanceName
                     (GracefulShutdownService.blank_snapshot instanceName)
               | WAMonitoringService.Registered r =>
                   Obj.verifyConnectionStatusConsistency r >>
                   let! i := Obj.read r in
                   SessionRestorationService.persistInstanceState instanceName
                     (GracefulShutdownService.snapshot instanceName i)
               end)
              (fun _ => ret tt)) w)).
Proof.
  induction l as [|x l IH]; intros w Hall; [split; reflexivity|].
  cbn [for_each].
  match goal with |- context [bind ?m _ w] => set (step := m) end.
  assert (Hstep : exists u w1, step w = (Ok u, w1) /\ same_objects w w1).
  { subst step. unfold try_catch, bind at 1, WAMonitoringService.lookup, WAMonitoringService.entry.
    destruct (waInstances w !! x) as [r|] eqn:Hr.
    - unfold bind at 1.
      destruct (heap w !! r) as [i|] eqn:Hobj.
      + rewrite (verify_settled r i w Hobj (Hall x r i Hr Hobj)).
        unfold bind at 1. rewrite (read_ok r i w Hobj).
        pose proof (sat_persist_objects x (GracefulShutdownService.snapshot x i) w) as Hp.
        destruct (SessionRestorationService.persistInstanceState x _ w) as [[u|e] w1];
          cbn in *; eauto.
      + unfold Obj.verifyConnectionStatusConsistency, bind at 1, Obj.read.
        rewrite Hobj. cbn. exists tt, w. split; [reflexivity | split; reflexivity].
    - destruct (Js.inherited x).
      + pose proof (sat_persist_objects x (GracefulShutdownService.blank_snapshot x) w) as Hp.
        destruct (SessionRestorationService.persistInstanceState x _ w) as [[u|e] w1];
          cbn in *; eauto.
      + cbn. exists tt, w. split; [reflexivity | split; reflexivity]. }
  destruct Hstep as (u & w1 & Hrun & Hreg & Hheap).
  unfold bind at 1. rewrite Hrun.
  assert (Hall1 : all_settled w1).
  { intros n r i Hn Hi. rewrite Hreg in Hn. rewrite Hheap in Hi. exact (Hall n r i Hn Hi). }
  destruct (IH w1 Hall1) as [Hreg2 Hheap2].
  split; congruence.
Qed.

Lemma save_settled (w : World) :
  all_settled w -> same_objects w (snd (GracefulShutdownService.saveAllInstanceStates w)).
Proof.
  intros Hall. unfold GracefulShutdownService.saveAllInstanceStates.
  unfold try_catch at 1, bind at 1, WAMonitoringService.instance_names.
  pose proof (save_loop_settled (map fst (map_to_list (waInstances w))) w Hall) as H.
  match goal with |- context [for_each ?l ?b w] =>
    change (same_objects w (snd (for_each l b w))) in H;
    destruct (for_each l b w) as [[u|e] w1]
  end; exact H.
Qed.

Lemma sat_close_persistent : Sat same_persistent GracefulShutdownService.closeAllConnections.
Proof. sat_auto ltac:(idtac; repeat split; reflexivity). Qed.

(** X24. The drain saves before it closes.  The save step never
    touches the registry; of the instance objects it changes nothing
    but the declared state, and not even that when the read of their
    state has nothing to correct; the close
    step and the clean-up never write to either store.  So when a drain
    runs to its end, the two stores are the ones its save step left,
    written from the states the instances answered before any
    connection was closed. *)
Theorem drain_saves_before_closing :
  Sat same_registry GracefulShutdownService.saveAllInstanceStates
  /\ Sat states_only GracefulShutdownService.saveAllInstanceStates
  /\ (forall w, all_settled w ->
        same_objects w (snd (GracefulShutdownService.saveAllInstanceStates w)))
  /\ Sat same_persistent GracefulShutdownService.closeAllConnections
  /\ Sat same_persistent GracefulShutdownService.cleanupResources
  /\ forall w,
       isShuttingDown w = false ->
       health_job_ok (env w) = true ->
       let w0 := with_trace (trace w ++ [SetTimeout "forceExit" EmptyString 30000;
                                         StopHealthJob])
                   (with_isShuttingDown true w) in
       let w1 := snd (GracefulShutdownService.saveAllInstanceStates w0) in
       exists w',
         GracefulShutdownService.initiateShutdown w = (Ok (Some 0), w')
         /\ db w' = db w1 /\ redis w' = redis w1
         /\ waInstances w' = waInstances w.
Proof.
  split; [exact sat_save_registry|]. split; [exact sat_save_states|].
  split; [exact save_settled|].
  split; [exact sat_close_persistent|].
  split; [sat_auto ltac:(idtac; repeat split; reflexivity)|].
  intros w Hflag Hjob w0 w1.
  unfold GracefulShutdownService.initiateShutdown.
  unfold bind at 1. cbn [get_world]. rewrite Hflag.
  unfold bind at 1. cbn [modify].
  unfold bind at 1. unfold emit at 1. cbn [modify].
  unfold GracefulShutdownService.performGracefulShutdown.
  unfold bind at 1. unfold try_catch at 1. unfold bind at 1. unfold try_catch at 1.
  unfold bind at 1.
  assert (Hstop : ConnectionHealthService.stopHealthMonitoring
                    (with_trace (trace (with_isShuttingDown true w)
                                 ++ [SetTimeout "forceExit" EmptyString 30000])
                       (with_isShuttingDown true w)) = (Ok tt, w0)).
  { unfold ConnectionHealthService.stopHealthMonitoring, bind, emit, modify, get_env.
    cbn. rewrite Hjob. subst w0. cbn. now rewrite <- app_assoc. }
  rewrite Hstop. unfold bind at 1.
  pose proof (sat_save_registry w0) as Hs. fold w1 in Hs.
  destruct (total_saveAllInstanceStates w0) as [[] H1].
  destruct (GracefulShutdownService.saveAllInstanceStates w0) as [[[]|e] w1'] eqn:E1;
    cbn in H1; [|discriminate].
  subst w1. cbn [snd] in *.
  pose proof (sat_close_persistent w1') as Hc.
  destruct (total_closeAllConnections w1') as [[] H2].
  unfold bind at 1.
  destruct (GracefulShutdownService.closeAllConnections w1') as [[[]|e] w2] eqn:E2;
    cbn in H2; [|discriminate].
  cbn [snd] in Hc. destruct Hc as (_ & Hred & Hdb). pose proof Hs as Hreg.
  unfold same_registry in Hreg.
  assert (Hkeep : Sat same_registry GracefulShutdownService.closeAllConnections).
  { sat_auto ltac:(idtac; reflexivity). }
  specialize (Hkeep w1'). rewrite E2 in Hkeep. unfold same_registry in Hkeep.
  cbn [snd] in Hkeep.
  unfold GracefulShutdownService.cleanupResources, GracefulShutdownService.exit,
    try_catch, bind, emit, modify, ret. cbn.
  eexists. split; [reflexivity|]. cbn. subst w0. cbn in Hreg.
  repeat split; congruence.
Qed.

Lemma drain_saves_before_closing_witness :
  let i := Sample.baileys "alpha" "id1" "open" (Some Sample.ready_client) in
  let w := Sample.one_instance Sample.env0 i [Sample.row "id1" "alpha" "open"] in
  exists w',
    GracefulShutdownService.initiateShutdown w = (Ok (Some 0), w')
    /\ db w' = [Sample.row "id1" "alpha" "open"]
    /\ waInstances w' = waInstances w.
Proof.
  intros i w.
  destruct drain_saves_before_closing as (_ & _ & _ & _ & _ & H).
  destruct (H w) as (w' & Hrun & Hdb & _ & Hreg); [reflexivity | reflexivity |].
  exists w'. split; [exact Hrun|]. split; [|exact Hreg].
  rewrite Hdb. vm_compute. reflexivity.
Defined.

Lemma sat_persist_grows n d :
  Sat trace_grows (SessionRestorationService.persistInstanceState n d).
Proof. sat_auto ltac:(idtac; grows_leaf). Qed.

(** The first write of a persist is issued whether or not the stores
    answer. *)
Lemma persist_first_write (n : string) (d : InstanceData) (w : World) (ev : Event) :
  first_write (env w) n d = Some ev ->
  exists t, trace (snd (SessionRestorationService.persistInstanceState n d w))
            = (trace w ++ ev :: t)%list.
Proof.
  unfold first_write, cache.module.
  destruct (REDIS_ENABLED (env w) && REDIS_SAVE_INSTANCES (env w)) eqn:Hon.
  - intros [= <-].
    destruct (redis_up (env w)) eqn:Hup.
    + destruct (persist_writes_plain_set n d w Hon Hup) as (_ & t & Ht & _). now exists t.
    + gateway. cbn. rewrite Hon. cbn. rewrite Hup. cbn. now exists [].
  - destruct (data_instanceId d) as [id|] eqn:Hid; [|discriminate].
    destruct (SAVE_DATA_INSTANCE (env w) && Js.nonempty id) eqn:Hdb; [|discriminate].
    intros [= <-]. gateway. cbn. rewrite Hon, Hid. cbn. rewrite Hdb. cbn.
    destruct (db_up (env w)); cbn; [|now exists []].
    destruct (existsb _ _); cbn; now exists [].
Qed.

Lemma save_task_settled (x : string) (w : World) :
  all_settled w ->
  exists w1,
    save_task x w = (Ok tt, w1)
    /\ same_objects w w1 /\ env w1 = env w /\ trace_grows w w1
    /\ forall r i ev,
         waInstances w !! x = Some r -> heap w !! r = Some i ->
         first_write (env w) x (GracefulShutdownService.snapshot x i) = Some ev ->
         exists t, trace w1 = (trace w ++ ev :: t)%list.
Proof.
  intros Hall.
  assert (Hpersist : forall d, exists w1,
             try_catch (SessionRestorationService.persistInstanceState x d) (fun _ => ret tt) w
             = (Ok tt, w1)
             /\ w1 = snd (SessionRestorationService.persistInstanceState x d w)).
  { intros d. unfold try_catch.
    destruct (total_persist x d w) as [[] Ht].
    destruct (SessionRestorationService.persistInstanceState x d w) as [[[]|e] w1];
      [eauto | discriminate]. }
  assert (Hidle : same_objects w w /\ env w = env w /\ trace_grows w w).
  { split; [split; reflexivity|]. split; [reflexivity|]. exists []. now rewrite app_nil_r. }
  unfold save_task, try_catch at 1, bind at 1, WAMonitoringService.lookup,
    WAMonitoringService.entry.
  destruct (waInstances w !! x) as [r|] eqn:Hr.
  - unfold bind at 1.
    destruct (heap w !! r) as [i|] eqn:Hobj.
    + rewrite (verify_settled r i w Hobj (Hall x r i Hr Hobj)).
      unfold bind at 1. rewrite (read_ok r i w Hobj).
      destruct (Hpersist (GracefulShutdownService.snapshot x i)) as (w1 & Hrun & Hw1).
      unfold try_catch in Hrun. rewrite Hrun. exists w1. split; [reflexivity|].
      rewrite Hw1.
      split; [apply sat_persist_objects|]. split; [apply sat_persist_env|].
      split; [apply sat_persist_grows|].
      intros r0 i0 ev [= <-] Hi0 Hev. rewrite Hobj in Hi0. injection Hi0 as <-.
      now apply persist_first_write.
    + unfold Obj.verifyConnectionStatusConsistency, bind at 1, Obj.read.
      rewrite Hobj. cbn. exists w. split; [reflexivity|].
      destruct Hidle as (H1 & H2 & H3). repeat split; try assumption; try reflexivity.
      intros r0 i0 ev [= <-] Hi0. congruence.
  - destruct (Js.inherited x).
    + destruct (Hpersist (GracefulShutdownService.blank_snapshot x)) as (w1 & Hrun & Hw1).
      unfold try_catch in Hrun. rewrite Hrun. exists w1. split; [reflexivity|].
      rewrite Hw1.
      split; [apply sat_persist_objects|]. split; [apply sat_persist_env|].
      split; [apply sat_persist_grows|].
      intros r0 i0 ev Hr0. discriminate.
    + cbn. exists w. split; [reflexivity|].
      destruct Hidle as (H1 & H2 & H3). repeat split; try assumption; try reflexivity.
      intros r0 i0 ev Hr0. discriminate.
Qed.

Lemma save_loop_attempts (l : list string) : forall w,
  all_settled w ->
  exists w',
    for_each l save_task w = (Ok tt, w')
    /\ same_objects w w' /\ env w' = env w /\ trace_grows w w'
    /\ forall n r i ev,
         n ∈ l -> waInstances w !! n = Some r -> heap w !! r = Some i ->
         first_write (env w) n (GracefulShutdownService.snapshot n i) = Some ev ->
         In ev (trace w').
Proof.
  induction l as [|x l IH]; intros w Hall.
  - exists w. split; [reflexivity|]. split; [split; reflexivity|]. split; [reflexivity|].
    split; [exists []; now rewrite app_nil_r|].
    intros n r i ev Hin. now apply elem_of_nil in Hin.
  - destruct (save_task_settled x w Hall) as (w1 & Hrun & [Hreg Hheap] & Henv & [t1 Ht1] & Hev).
    assert (Hall1 : all_settled w1).
    { intros n r i Hn Hi. rewrite Hreg in Hn. rewrite Hheap in Hi. exact (Hall n r i Hn Hi). }
    destruct (IH w1 Hall1) as (w' & Hloop & [Hreg' Hheap'] & Henv' & [t2 Ht2] & Hev').
    exists w'. cbn [for_each]. unfold bind at 1. rewrite Hrun.
    split; [exact Hloop|]. split; [split; congruence|]. split; [congruence|].
    split; [exists (t1 ++ t2)%list; now rewrite Ht2, Ht1, app_assoc|].
    intros n r i ev Hin Hn Hi Hfirst.
    apply elem_of_cons in Hin as [->|Hin].
    + destruct (Hev r i ev Hn Hi Hfirst) as [t Ht].
      rewrite Ht2, Ht. apply in_or_app. left. apply in_or_app. right. now left.
    + apply (Hev' n r i ev Hin); [now rewrite Hreg | now rewrite Hheap | now rewrite Henv].
Qed.

#[local] Instance kinds_kept_preorder : PreOrder kinds_kept.
Proof.
  split.
  - intros w r i H. eauto.
  - intros a b c H1 H2 r i H. destruct (H1 r i H) as (i1 & Hi1 & Hk1).
    destruct (H2 r i1 Hi1) as (i2 & Hi2 & Hk2). exists i2. split; [exact Hi2 | congruence].
Qed.

Ltac kinds_leaf :=
  let r0 := fresh "r0" in
  let i0 := fresh "i0" in
  let H := fresh "H" in
  intros r0 i0 H; cbn;
  first
    [ solve [eauto]
    | match goal with
      | |- context [alter _ ?r _ !! r0] =>
          destruct (decide (r0 = r)) as [->|];
          [ rewrite lookup_alter_eq, H; cbn; eauto
          | rewrite lookup_alter_ne by congruence; eauto ]
      end ].

Lemma sat_save_kinds : Sat kinds_kept GracefulShutdownService.saveAllInstanceStates.
Proof. sat_auto ltac:(idtac; kinds_leaf). Qed.

Lemma sat_save_grows : Sat trace_grows GracefulShutdownService.saveAllInstanceStates.
Proof. sat_auto ltac:(idtac; grows_leaf). Qed.

Lemma sat_save_env : Sat same_env GracefulShutdownService.saveAllInstanceStates.
Proof. sat_auto ltac:(idtac; reflexivity). Qed.

Lemma sat_close_grows : Sat trace_grows GracefulShutdownService.closeAllConnections.
Proof. sat_auto ltac:(idtac; grows_leaf). Qed.

(** The save step over instances the read has nothing to do for: the
    first write of every instance is issued. *)
Lemma save_step_attempts (w : World) :
  all_settled w ->
  forall n r i ev,
    waInstances w !! n = Some r -> heap w !! r = Some i ->
    first_write (env w) n (GracefulShutdownService.snapshot n i) = Some ev ->
    In ev (trace (snd (GracefulShutdownService.saveAllInstanceStates w))).
Proof.
  intros Hall n r i ev Hn Hi Hfirst.
  destruct (save_loop_attempts (map fst (map_to_list (waInstances w))) w Hall)
    as (w' & Hloop & _ & _ & _ & Hev).
  change (GracefulShutdownService.saveAllInstanceStates w)
    with (try_catch (let! instances := WAMonitoringService.instance_names in
                     for_each instances save_task) (fun error => throw error) w).
  unfold try_catch, bind at 1, WAMonitoringService.instance_names. rewrite Hloop. cbn [snd].
  apply (Hev n r i ev); try assumption.
  apply list_elem_of_fmap. exists (n, r). split; [reflexivity|].
  now apply elem_of_map_to_list.
Qed.

(** The close step leaves no instance of the socket-carrying
    integration with a ready socket. *)
Lemma close_step_quiets (w : World) (n : string) (r : nat) (i : Instance) :
  waInstances w !! n = Some r ->
  heap w !! r = Some i ->
  integration i = Some WHATSAPP_BAILEYS ->
  exists w' i',
    GracefulShutdownService.closeAllConnections w = (Ok tt, w')
    /\ heap w' !! r = Some i' /\ quiet i'.
Proof.
  intros Hreg Hobj Hkind.
  destruct (close_loop n r (map fst (map_to_list (waInstances w))) w Hreg
              ltac:(now exists i)) as (w' & Hloop & Hr' & j & Hj & _ & Hq).
  exists w', j. split.
  - unfold GracefulShutdownService.closeAllConnections.
    unfold try_catch at 1, bind at 1, WAMonitoringService.instance_names.
    now rewrite Hloop.
  - split; [exact Hj|]. apply Hq. left.
    apply list_elem_of_fmap. exists (n, r). split; [reflexivity|].
    now apply elem_of_map_to_list.
Qed.

(** C8. A drain that is not already in progress arms its deadline,
    tells the health job to stop and always ends in an exit.  When the
    job stops cleanly, the save step and the close step run to their
    ends whatever fails inside them, the settle delay follows and the
    drain exits with 0: the save step has left the registry alone and
    has issued, for every registered instance whose state the read has
    nothing to correct in, the first write of its persist; after the
    close step every registered instance of the socket-carrying
    integration is without a ready socket.  When the stop of the job
    raises, the error leaves the step: no later step is run, nothing is
    saved or closed, and the drain exits with 1. *)
Theorem shutdown_outcome (w : World) :
  isShuttingDown w = false ->
  (health_job_ok (env w) = true ->
   exists w1 w2,
     GracefulShutdownService.saveAllInstanceStates (draining w) = (Ok tt, w1)
     /\ GracefulShutdownService.closeAllConnections w1 = (Ok tt, w2)
     /\ GracefulShutdownService.initiateShutdown w
        = (Ok (Some 0),
           with_trace (trace w2 ++ [SetTimeout "settle" EmptyString 1000; ProcessExit 0]) w2)
     /\ waInstances w1 = waInstances w /\ waInstances w2 = waInstances w
     /\ (exists t1 t2, trace w1 = (trace (draining w) ++ t1)%list
                       /\ trace w2 = (trace w1 ++ t2)%list)
     /\ (all_settled w ->
         forall n r i ev,
           waInstances w !! n = Some r -> heap w !! r = Some i ->
           first_write (env w) n (GracefulShutdownService.snapshot n i) = Some ev ->
           In ev (trace w1))
     /\ (forall n r i,
           waInstances w !! n = Some r -> heap w !! r = Some i ->
           integration i = Some WHATSAPP_BAILEYS ->
           exists i', heap w2 !! r = Some i' /\ quiet i'))
  /\ (health_job_ok (env w) = false ->
      GracefulShutdownService.initiateShutdown w
      = (Ok (Some 1),
         with_trace (trace w ++ [SetTimeout "forceExit" EmptyString 30000;
                                 StopHealthJob; ProcessExit 1])
           (with_isShuttingDown true w))).
Proof.
  intros Hflag. split; intros Hjob.
  - pose proof (sat_save_registry (draining w)) as Hreg1.
    pose proof (sat_save_kinds (draining w)) as Hkinds.
    pose proof (sat_save_grows (draining w)) as [t1 Ht1].
    pose proof (save_step_attempts (draining w)) as Hattempts.
    destruct (total_saveAllInstanceStates (draining w)) as [[] H1].
    destruct (GracefulShutdownService.saveAllInstanceStates (draining w))
      as [[[]|e] w1] eqn:E1; cbn in H1; [|discriminate].
    cbn [snd] in Hreg1, Hkinds, Ht1, Hattempts. unfold same_registry in Hreg1.
    pose proof (sat_close_grows w1) as [t2 Ht2].
    assert (Hkeep : Sat same_registry GracefulShutdownService.closeAllConnections).
    { sat_auto ltac:(idtac; reflexivity). }
    specialize (Hkeep w1). unfold same_registry in Hkeep.
    destruct (total_closeAllConnections w1) as [[] H2].
    destruct (GracefulShutdownService.closeAllConnections w1) as [[[]|e] w2] eqn:E2;
      cbn in H2; [|discriminate].
    cbn [snd] in Ht2, Hkeep.
    exists w1, w2. split; [reflexivity|]. split; [exact E2|]. split.
    { unfold GracefulShutdownService.initiateShutdown.
      unfold bind at 1. cbn [get_world]. rewrite Hflag.
      unfold bind at 1. cbn [modify].
      unfold bind at 1. unfold emit at 1. cbn [modify].
      unfold GracefulShutdownService.performGracefulShutdown.
      unfold bind at 1. unfold try_catch at 1. unfold bind at 1. unfold try_catch at 1.
      unfold bind at 1.
      assert (Hstop : ConnectionHealthService.stopHealthMonitoring
                        (with_trace (trace (with_isShuttingDown true w)
                                     ++ [SetTimeout "forceExit" EmptyString 30000])
                           (with_isShuttingDown true w)) = (Ok tt, draining w)).
      { unfold ConnectionHealthService.stopHealthMonitoring, bind, emit, modify, get_env.
        cbn. rewrite Hjob. unfold draining. cbn. now rewrite <- app_assoc. }
      rewrite Hstop. unfold bind at 1. rewrite E1. unfold bind at 1. rewrite E2.
      unfold GracefulShutdownService.cleanupResources, GracefulShutdownService.exit,
        try_catch, bind, emit, modify, ret. cbn.
      now rewrite <- app_assoc. }
    split; [exact Hreg1|]. split; [now rewrite Hkeep|].
    split; [now exists t1, t2|]. split.
    { intros Hall n r i ev Hn Hi Hfirst.
      apply (Hattempts Hall n r i ev Hn Hi Hfirst). }
    intros n r i Hn Hi Hkind.
    destruct (Hkinds r i Hi) as (i1 & Hi1 & Hk1).
    destruct (close_step_quiets w1 n r i1) as (w2' & i' & Hrun & Hi' & Hq).
    + now rewrite Hreg1.
    + exact Hi1.
    + now rewrite Hk1.
    + rewrite E2 in Hrun. injection Hrun as <-. now exists i'.
  - unfold GracefulShutdownService.initiateShutdown,
      GracefulShutdownService.performGracefulShutdown,
      ConnectionHealthService.stopHealthMonitoring,
      GracefulShutdownService.exit, bind, try_catch, emit, modify, get_env, get_world, ret, throw.
    cbn. rewrite Hflag. cbn. rewrite Hjob. cbn.
    now rewrite <- !app_assoc.
Qed.

Lemma shutdown_outcome_witness :
  let i := Sample.baileys "alpha" "id1" "open" (Some Sample.ready_client) in
  let w := Sample.one_instance Sample.env_redis_down i [Sample.row "id1" "alpha" "close"] in
  exists w1 w2,
    GracefulShutdownService.initiateShutdown w
    = (Ok (Some 0),
       with_trace (trace w2 ++ [SetTimeout "settle" EmptyString 1000; ProcessExit 0]) w2)
    /\ In (Redis (SET "evolution_cache:instance:id1"
                     (SessionRestorationService.json_of_data
                        (GracefulShutdownService.snapshot "alpha" i))))
          (trace w1)
    /\ exists i', heap w2 !! 0%nat = Some i' /\ quiet i'.
Proof.
  intros i w.
  destruct (shutdown_outcome w) as [H _]; [reflexivity|].
  destruct (H eq_refl) as (w1 & w2 & _ & _ & Hrun & _ & _ & _ & Hsave & Hclose).
  exists w1, w2. split; [exact Hrun|]. split.
  - apply (Hsave (all_settled_single "alpha" 0%nat i w eq_refl eq_refl eq_refl)
             "alpha" 0%nat i); reflexivity.
  - apply (Hclose "alpha" 0%nat i); reflexivity.
Defined.

(** The scheduler's task has no [destroy] method, so the stop of the
    health job raises: the drain of a world with one open instance
    exits with 1 after the stop, with nothing saved and the socket of
    the instance still ready. *)
Lemma stop_failure_skips_the_drain :
  let i := Sample.baileys "alpha" "id1" "open" (Some Sample.ready_client) in
  let w := Sample.one_instance Sample.env_job_without_destroy i
             [Sample.row "id1" "alpha" "close"] in
  GracefulShutdownService.initiateShutdown w
  = (Ok (Some 1),
     with_trace [SetTimeout "forceExit" EmptyString 30000; StopHealthJob; ProcessExit 1]
       (with_isShuttingDown true w))
  /\ db (snd (GracefulShutdownService.initiateShutdown w)) = [Sample.row "id1" "alpha" "close"]
  /\ redis (snd (GracefulShutdownService.initiateShutdown w)) = ∅
  /\ heap (snd (GracefulShutdownService.initiateShutdown w)) !! 0%nat = Some i
  /\ ConnectionHealthService.isWebSocketHealthy (client i) = true.
Proof. cbv zeta. repeat apply conj; vm_compute; reflexivity. Qed.

(** When the job does stop, with the Redis server unreachable the save
    step of instance ["alpha"] fails in its cache write, and the drain
    still exits with 0. *)
Lemma failed_save_exits_zero :
  let i := Sample.baileys "alpha" "id1" "open" (Some Sample.ready_client) in
  let w := Sample.one_instance Sample.env_redis_down i [Sample.row "id1" "alpha" "close"] in
  fst (cache.set "id1"
         (SessionRestorationService.json_of_data (GracefulShutdownService.snapshot "alpha" i))
         (Some 0) w) = Throw RedisClient.CLOSED
  /\ fst (GracefulShutdownService.initiateShutdown w) = Ok (Some 0)
  /\ db (snd (GracefulShutdownService.initiateShutdown w)) = db w
  /\ redis (snd (GracefulShutdownService.initiateShutdown w)) = ∅.
Proof. cbv zeta. repeat apply conj; vm_compute; reflexivity. Qed.

(** ** Send operations past the readiness gate *)

(** X25. A send operation against a name the registry has no answer
    for is rejected with the not-found message, and one against a name
    that only [Object.prototype] answers for with the not-ready message
    and the state [unknown]; in both cases the world is as before.
    Against a registered instance whose state as read is [open], an
    operation is rejected with the missing-components message when the
    client or the id is missing.  With both in place, an operation
    whose payload passes its checks calls the instance's method for
    that operation exactly once, after which the instance carries the
    time of the send, and one whose payload fails them is rejected with
    that error before any call.  But for the send, the world is as the
    read of the state leaves it. *)
Theorem send_past_the_gate
    (op : SendMessageController.Operation) (n : string) (w : World) :
  (WAMonitoringService.entry (waInstances w) n = WAMonitoringService.Undefined ->
   forall pe, SendMessageController.send op n pe w
              = (Throw (SendMessageController.not_found n), w))
  /\ (WAMonitoringService.entry (waInstances w) n = WAMonitoringService.Prototype ->
      forall pe, SendMessageController.send op n pe w
                 = (Throw (SendMessageController.not_ready n EmptyString), w))
  /\ (forall r i,
        waInstances w !! n = Some r -> heap w !! r = Some i ->
        state_as_read (date_now (env w)) i = "open" ->
        (client i = None \/ Js.truthy_str (instanceId i) = false) ->
        forall pe, SendMessageController.send op n pe w
                   = (Throw (SendMessageController.missing_components n), after_read r i w))
  /\ (forall r i c,
        waInstances w !! n = Some r -> heap w !! r = Some i ->
        state_as_read (date_now (env w)) i = "open" ->
        client i = Some c -> Js.truthy_str (instanceId i) = true ->
        (exists w',
           SendMessageController.send op n None w = (Ok tt, w')
           /\ heap w' = <[r := Obj.set_lastMessageSentTime (Some (date_now (env w)))
                                 (Obj.set_state "open" i)]> (heap w)
           /\ trace w' = (trace w ++ read_events (date_now (env w)) r i
                          ++ [SendMessage r (SendMessageController.method op)])%list
           /\ db w' = db (after_read r i w) /\ redis w' = redis w
           /\ waInstances w' = waInstances w)
        /\ forall e, SendMessageController.send op n (Some e) w = (Throw e, after_read r i w)).
Proof.
  split; [|split; [|split]].
  - intros Hreg pe.
    unfold SendMessageController.send, SendMessageController.validateInstanceReady,
      WAMonitoringService.lookup, bind, throw. now rewrite Hreg.
  - intros Hreg pe.
    unfold SendMessageController.send, SendMessageController.validateInstanceReady,
      WAMonitoringService.lookup, bind, throw. now rewrite Hreg.
  - intros r i Hreg Hobj Hs Hmiss pe.
    unfold SendMessageController.send, SendMessageController.validateInstanceReady.
    erewrite bind_throw; [reflexivity|].
    erewrite bind_ok by (apply lookup_ok; exact Hreg). cbv iota.
    erewrite bind_ok by (apply verify_run; exact Hobj).
    erewrite bind_ok by (apply read_ok, after_read_object).
    cbn [state client instanceId Obj.set_state]. rewrite Hs.
    cbn [String.eqb Ascii.eqb Bool.eqb negb].
    destruct Hmiss as [Hc|Hid].
    + now rewrite Hc.
    + rewrite Hid. now destruct (client i).
  - intros r i c Hreg Hobj Hs Hc Hid.
    assert (Hgate : SendMessageController.validateInstanceReady n w
                    = (Ok tt, after_read r i w)).
    { unfold SendMessageController.validateInstanceReady.
      erewrite bind_ok by (apply lookup_ok; exact Hreg). cbv iota.
      erewrite bind_ok by (apply verify_run; exact Hobj).
      erewrite bind_ok by (apply read_ok, after_read_object).
      cbn [state client instanceId Obj.set_state]. rewrite Hs, Hc, Hid. reflexivity. }
    split.
    + unfold SendMessageController.send.
      erewrite bind_ok by exact Hgate.
      assert (Hreg' : waInstances (after_read r i w) !! n = Some r) by exact Hreg.
      erewrite bind_ok by (apply lookup_ok; exact Hreg'). cbv iota.
      unfold Obj.sendMessage, bind, emit, modify, get_env.
      cbn [fst snd]. unfold Obj.update, modify. cbn.
      eexists. split; [reflexivity|]. cbn.
      rewrite Hs, <- app_assoc. repeat split.
      apply map_eq. intros q. destruct (decide (q = r)) as [->|Hne].
      * now rewrite lookup_alter_eq, !lookup_insert_eq.
      * now rewrite lookup_alter_ne, !lookup_insert_ne by congruence.
    + intros e. unfold SendMessageController.send.
      erewrite bind_ok by exact Hgate. reflexivity.
Qed.

Lemma send_past_the_gate_witness :
  let i := Sample.baileys "alpha" "id1" "open" (Some Sample.ready_client) in
  let w := Sample.one_instance Sample.env0 i [] in
  (exists w',
     SendMessageController.send SendMessageController.sendText "alpha" None w = (Ok tt, w')
     /\ heap w' = <[0%nat := Obj.set_lastMessageSentTime (Some 1700000000000) i]> (heap w)
     /\ trace w' = [SendMessage 0%nat "textMessage"]
     /\ db w' = [] /\ redis w' = redis w /\ waInstances w' = waInstances w)
  /\ SendMessageController.send SendMessageController.sendText "beta" None w
     = (Throw (SendMessageController.not_found "beta"), w)
  /\ SendMessageController.send SendMessageController.sendText "constructor" None w
     = (Throw (SendMessageController.not_ready "constructor" EmptyString), w).
Proof.
  intros i w.
  destruct (send_past_the_gate SendMessageController.sendText "alpha" w) as (_ & _ & _ & H).
  destruct (send_past_the_gate SendMessageController.sendText "beta" w) as (Hnf & _).
  destruct (send_past_the_gate SendMessageController.sendText "constructor" w)
    as (_ & Hproto & _).
  split; [|split].
  - apply (H 0%nat i Sample.ready_client); reflexivity.
  - apply Hnf. reflexivity.
  - apply Hproto. reflexivity.
Defined.

(** X26. [sendReaction] accepts the empty reaction and a reaction of
    exactly one code point in U+2600..U+27BF, U+1F000..U+1F02F or
    U+1F0A0..U+1F9FF, and nothing else: a reaction of two or more code
    points (an emoji with a variation selector or a skin tone, a flag, a
    keycap) is rejected.  On an instance declared open with its client
    and id in place a rejected reaction calls nothing: it raises the
    error when the state as read is [open], as it is over a ready
    socket, where the world is as before; otherwise the gate has
    already rejected the request. *)
Theorem reaction_is_one_code_point_of_the_class :
  SendMessageController.isEmoji [] = true
  /\ (forall c,
        SendMessageController.isEmoji [c] = true
        <-> (0x2600 <= c <= 0x27BF) \/ (0x1F000 <= c <= 0x1F02F)
            \/ (0x1F0A0 <= c <= 0x1F9FF))
  /\ (forall a b rest, SendMessageController.isEmoji (a :: b :: rest) = false)
  /\ (forall n w r i c reaction,
        waInstances w !! n = Some r -> heap w !! r = Some i -> state i = "open" ->
        client i = Some c -> Js.truthy_str (instanceId i) = true ->
        SendMessageController.isEmoji reaction = false ->
        let s := state_as_read (date_now (env w)) i in
        SendMessageController.send SendMessageController.sendReaction n
          (SendMessageController.reaction_error reaction) w
        = (Throw (if String.eqb s "open" then SendMessageController.not_an_emoji
                  else SendMessageController.not_ready n s),
           after_read r i w)
        /\ (Obj.socket_ready i = true ->
            SendMessageController.send SendMessageController.sendReaction n
              (SendMessageController.reaction_error reaction) w
            = (Throw SendMessageController.not_an_emoji, w))).
Proof.
  split; [reflexivity|]. split; [|split; [reflexivity|]].
  - intros c. unfold SendMessageController.isEmoji, SendMessageController.emoji_ranges,
      SendMessageController.in_range. cbn [existsb fst snd].
    rewrite orb_false_r, !orb_true_iff, !andb_true_iff, !Z.leb_le. lia.
  - intros n w r i c reaction Hreg Hobj Hstate Hc Hid Hbad s.
    assert (Hrun : SendMessageController.send SendMessageController.sendReaction n
                     (SendMessageController.reaction_error reaction) w
                   = (Throw (if String.eqb s "open" then SendMessageController.not_an_emoji
                             else SendMessageController.not_ready n s),
                      after_read r i w)).
    { unfold SendMessageController.reaction_error. rewrite Hbad.
      unfold SendMessageController.send, SendMessageController.validateInstanceReady.
      unfold bind at 1.
      erewrite bind_ok by (apply lookup_ok; exact Hreg). cbv iota.
      erewrite bind_ok by (apply verify_run; exact Hobj).
      erewrite bind_ok by (apply read_ok, after_read_object).
      cbn [state client instanceId Obj.set_state]. fold s.
      destruct (String.eqb s "open"); [|reflexivity].
      cbn [negb]. rewrite Hc, Hid. reflexivity. }
    split; [exact Hrun|].
    intros Hready. rewrite Hrun.
    pose proof (settled_open i Hstate Hready) as Hset.
    rewrite (after_read_settled r i w Hobj Hset).
    subst s. rewrite (settled_state _ i Hset), Hstate. reflexivity.
Qed.

Lemma reaction_is_one_code_point_of_the_class_witness :
  let w := Sample.one_instance Sample.env0
             (Sample.baileys "alpha" "id1" "open" (Some Sample.ready_client)) [] in
  SendMessageController.isEmoji [0x2764] = true
  /\ SendMessageController.isEmoji [0x2764; 0xFE0F] = false
  /\ SendMessageController.send SendMessageController.sendReaction "alpha"
       (SendMessageController.reaction_error [0x2764; 0xFE0F]) w
     = (Throw SendMessageController.not_an_emoji, w).
Proof.
  intro w.
  destruct reaction_is_one_code_point_of_the_class as (_ & Hone & Htwo & Hsend).
  split; [apply Hone; lia|]. split; [apply Htwo|].
  apply (Hsend "alpha" w 0%nat
           (Sample.baileys "alpha" "id1" "open" (Some Sample.ready_client))
           Sample.ready_client); reflexivity.
Defined.

(** ** The cleanup utility *)

Lemma sat_scan_persistent p : Sat same_persistent (RedisClient.scan p).
Proof.
  intros w. unfold RedisClient.scan, RedisClient.command, bind, emit, modify. cbn.
  destruct (redis_up (env w)); repeat split.
Qed.

Lemma sat_type_persistent k : Sat same_persistent (RedisClient.type k).
Proof.
  intros w. unfold RedisClient.type, RedisClient.command, bind, emit, modify. cbn.
  destruct (redis_up (env w)); repeat split.
Qed.

Lemma sat_connect_persistent : Sat same_persistent RedisCleanup.connect.
Proof. intros w. unfold RedisCleanup.connect. destruct (redis_up (env w)); repeat split. Qed.

Lemma sat_quit_persistent : Sat same_persistent RedisCleanup.quit.
Proof. intros w. unfold RedisCleanup.quit. destruct (redis_up (env w)); repeat split. Qed.

Lemma sat_analyze_persistent keys : Sat same_persistent (RedisCleanup.analyze keys).
Proof.
  unfold RedisCleanup.analyze. apply sat_for_fold. intros s k.
  unfold RedisCleanup.analyze_key.
  apply sat_try_catch; [|intros e; apply sat_ret].
  apply sat_bind; [apply sat_type_persistent|]. intros t. cbv zeta.
  destruct (RedisCleanup.isCorrupted _ _); apply sat_ret.
Qed.

(** The verdict of the script on the key [k] of the store [s]. *)
Lemma analyze_loop (l : list string) (st : RedisCleanup.Stats) (w : World) :
  redis_up (env w) = true ->
  (forall k, k ∈ l -> is_Some (redis w !! k)) ->
  exists st' w',
    for_fold l st RedisCleanup.analyze_key w = (Ok st', w')
    /\ env w' = env w /\ redis w' = redis w
    /\ forall k, k ∈ map RedisCleanup.finding_key (RedisCleanup.corrupted st')
                 <-> k ∈ map RedisCleanup.finding_key (RedisCleanup.corrupted st)
                     \/ (k ∈ l /\ exists x, redis w !! k = Some x
                                   /\ RedisCleanup.isCorrupted (RedisCleanup.logical_key k)
                                        (RedisClient.type_name (rval x)) = true).
Proof.
  revert st w. induction l as [|k l IH]; intros st w Hup Hin.
  - exists st, w. repeat split; [tauto|].
    intros [H|[H _]]; [exact H | now apply elem_of_nil in H].
  - destruct (Hin k ltac:(left)) as [x Hx].
    set (t := RedisClient.type_name (rval x)).
    set (w1 := with_redis (redis w) (with_trace (trace w ++ [Redis (TYPE k)]) w)).
    assert (Htype : RedisClient.type k w = (Ok t, w1)).
    { unfold RedisClient.type, RedisClient.command, bind, emit, modify. cbn.
      now rewrite Hup, Hx. }
    assert (Hstep : exists st1,
               RedisCleanup.analyze_key st k w = (Ok st1, w1)
               /\ forall q, q ∈ map RedisCleanup.finding_key (RedisCleanup.corrupted st1)
                            <-> q ∈ map RedisCleanup.finding_key (RedisCleanup.corrupted st)
                                \/ (q = k /\ RedisCleanup.isCorrupted
                                               (RedisCleanup.logical_key k) t = true)).
    { unfold RedisCleanup.analyze_key, try_catch. erewrite bind_ok by exact Htype.
      cbv zeta. destruct (RedisCleanup.isCorrupted (RedisCleanup.logical_key k) t) eqn:Hc.
      - eexists. split; [reflexivity|]. intros q. cbn [RedisCleanup.corrupted].
        rewrite map_app, elem_of_app. cbn. rewrite list_elem_of_singleton. tauto.
      - eexists. split; [reflexivity|]. intros q. cbn [RedisCleanup.corrupted].
        split; [tauto | intros [H|[_ H]]; [exact H | discriminate]]. }
    destruct Hstep as (st1 & Hrun1 & Hcor1).
    destruct (IH st1 w1) as (st' & w' & Hrun & Henv & Hred & Hcor).
    { exact Hup. }
    { intros q Hq. apply Hin. now right. }
    exists st', w'. cbn [for_fold]. erewrite bind_ok by exact Hrun1.
    split; [exact Hrun|]. split; [exact Henv|]. split; [exact Hred|].
    intros q. rewrite Hcor, Hcor1. cbn [redis w1 with_redis]. rewrite elem_of_cons.
    split.
    + intros [[H|[-> H]]|[H1 H2]]; [now left | | right; split; [now right | exact H2]].
      right. split; [now left|]. now exists x.
    + intros [H|[[->|H1] (y & Hy & Hc)]]; [now left; left | | right; split; [exact H1|now exists y]].
      left; right. split; [reflexivity|]. subst t. congruence.
Qed.

Lemma delete_loop (items : list RedisCleanup.Finding) (c : Z) (w : World) :
  redis_up (env w) = true ->
  exists w',
    for_fold items c RedisCleanup.delete_finding w
    = (Ok (c + Z.of_nat (length items)), w')
    /\ env w' = env w
    /\ forall k, redis w' !! k
                 = if bool_decide (k ∈ map RedisCleanup.finding_key items) then None
                   else redis w !! k.
Proof.
  revert c w. induction items as [|it items IH]; intros c w Hup.
  - exists w. cbn. unfold ret. rewrite Z.add_0_r. repeat split.
  - set (k := RedisCleanup.finding_key it).
    assert (Hstep : exists w1,
               RedisCleanup.delete_finding c it w = (Ok (c + 1), w1)
               /\ env w1 = env w /\ redis w1 = delete k (redis w)).
    { unfold RedisCleanup.delete_finding, try_catch, bind, RedisClient.del,
        RedisClient.command, emit, modify, ret. cbn. rewrite Hup. fold k.
      destruct (redis w !! k) eqn:Hk; cbn; eexists; repeat split.
      cbn. symmetry. now apply delete_id. }
    destruct Hstep as (w1 & Hrun1 & Henv1 & Hred1).
    destruct (IH (c + 1) w1) as (w' & Hrun & Henv & Hlook); [congruence|].
    exists w'. cbn [for_fold]. erewrite bind_ok by exact Hrun1. rewrite Hrun.
    split; [do 2 f_equal; cbn [length]; lia|]. split; [congruence|].
    intros q. rewrite Hlook, Hred1. cbn [map]. fold k.
    destruct (decide (q = k)) as [->|Hne].
    + rewrite (bool_decide_eq_true_2 (k ∈ k :: _)) by left.
      rewrite lookup_delete_eq. now destruct (bool_decide _).
    + rewrite lookup_delete_ne by congruence.
      apply (f_equal (fun b : bool => if b then None else redis w !! q)).
      apply bool_decide_ext. rewrite elem_of_cons. tauto.
Qed.

(** X27. The cleanup script changes the store only when it is run with
    [--fix] and without [--dry-run]: in every other mode, whatever the
    pattern, the configuration and the state of the server, the store
    after the run is the store before it.  Run with [--fix] alone on a
    reachable server, it deletes exactly the keys that begin with
    [evolution_cache:] and that its own classifier flags. *)
Theorem cleanup_script_deletes_only_in_fix_mode (args : list string) (w : World) :
  (RedisCleanup.has_flag "--fix" args = false
   \/ RedisCleanup.has_flag "--dry-run" args = true ->
   same_persistent w (snd (RedisCleanup.main args w)))
  /\ (RedisCleanup.has_flag "--fix" args = true ->
      RedisCleanup.has_flag "--dry-run" args = false ->
      RedisCleanup.after_flag "--pattern" args = None ->
      REDIS_ENABLED (env w) = true ->
      redis_up (env w) = true ->
      exists r w',
        RedisCleanup.main args w = (Ok r, w')
        /\ (forall k,
              redis w' !! k
              = match redis w !! k with
                | Some x =>
                    if String.prefix "evolution_cache:" k
                       && RedisCleanup.isCorrupted (RedisCleanup.logical_key k)
                            (RedisClient.type_name (rval x))
                    then None else Some x
                | None => None
                end)).
Proof.
  split.
  - intros Hmode.
    assert (Hsat : Sat same_persistent (RedisCleanup.main args)); [|apply Hsat].
    unfold RedisCleanup.main. cbv zeta.
    apply sat_try_catch;
      [|intros e; apply sat_bind; [apply sat_emit; intros; repeat split | intros; apply sat_ret]].
    apply sat_bind; [apply sat_read|]. intros e.
    destruct (negb (REDIS_ENABLED e));
      [apply sat_bind; [apply sat_emit; intros; repeat split | intros; apply sat_ret]|].
    apply sat_bind; [apply sat_connect_persistent|]. intros _.
    apply sat_bind; [apply sat_scan_persistent|]. intros keys.
    destruct keys as [|k keys];
      [apply sat_bind; [apply sat_quit_persistent | intros; apply sat_ret]|].
    apply sat_bind; [apply sat_analyze_persistent|]. intros st.
    apply sat_bind;
      [|intros c; apply sat_bind; [apply sat_quit_persistent | intros; apply sat_ret]].
    destruct (RedisCleanup.corrupted st) as [|it items]; [apply sat_ret|].
    destruct Hmode as [-> | ->]; [apply sat_ret|].
    destruct (RedisCleanup.has_flag "--fix" args); apply sat_ret.
  - intros Hfix Hdry Hpat Hen Hup.
    unfold RedisCleanup.main, RedisCleanup.pattern_of. cbv zeta.
    rewrite Hfix, Hdry, Hpat.
    destruct (scan_spec "evolution_cache:" w Hup) as (l & Hscan & Hnd & Hl).
    change ("evolution_cache:" +:+ "*") with RedisCleanup.DEFAULT_PATTERN in Hscan.
    set (w1 := with_redis (redis w)
                 (with_trace (trace w ++ [Redis (SCAN RedisCleanup.DEFAULT_PATTERN)]) w))
      in Hscan.
    assert (Hup1 : redis_up (env w1) = true) by exact Hup.
    destruct (analyze_loop l
                {| RedisCleanup.total := Z.of_nat (length l); RedisCleanup.byType := ∅;
                   RedisCleanup.corrupted := []; RedisCleanup.healthy := [] |} w1 Hup1)
      as (st & w2 & Hrun2 & Henv2 & Hred2 & Hcor).
    { intros k Hk. now apply Hl. }
    assert (Hup2 : redis_up (env w2) = true) by congruence.
    destruct (delete_loop (RedisCleanup.corrupted st) 0 w2 Hup2)
      as (w3 & Hrun3 & Henv3 & Hlook3).
    assert (Hflag : forall k,
               k ∈ map RedisCleanup.finding_key (RedisCleanup.corrupted st)
               <-> exists x, redis w !! k = Some x
                   /\ String.prefix "evolution_cache:" k
                      && RedisCleanup.isCorrupted (RedisCleanup.logical_key k)
                           (RedisClient.type_name (rval x)) = true).
    { intros k. rewrite Hcor. cbn [RedisCleanup.corrupted map]. rewrite Hl.
      rewrite elem_of_nil. split.
      - intros [[]|[[_ Hp] (x & Hx & Hc)]]. exists x. now rewrite Hp, Hc.
      - intros (x & Hx & Hc). apply andb_true_iff in Hc as [Hp Hc]. right.
        split; [split; [now exists x | exact Hp] | now exists x]. }
    assert (Hfinal : forall w', redis w' = redis w ->
               RedisCleanup.corrupted st = [] ->
               forall k, redis w' !! k
                 = match redis w !! k with
                   | Some x =>
                       if String.prefix "evolution_cache:" k
                          && RedisCleanup.isCorrupted (RedisCleanup.logical_key k)
                               (RedisClient.type_name (rval x))
                       then None else Some x
                   | None => None
                   end).
    { intros w' Hw' Hnone k. rewrite Hw'.
      destruct (redis w !! k) as [x|] eqn:Hx; [|reflexivity].
      destruct (String.prefix "evolution_cache:" k
                && RedisCleanup.isCorrupted (RedisCleanup.logical_key k)
                     (RedisClient.type_name (rval x))) eqn:Hc; [|reflexivity].
      assert (Hk : k ∈ map RedisCleanup.finding_key (RedisCleanup.corrupted st))
        by (apply Hflag; now exists x).
      rewrite Hnone in Hk. now apply elem_of_nil in Hk. }
    unfold try_catch, get_env. unfold bind at 1. rewrite Hen. cbn [negb].
    unfold bind at 1, RedisCleanup.connect. rewrite Hup.
    erewrite bind_ok by exact Hscan.
    destruct l as [|k0 l0].
    + unfold bind, RedisCleanup.quit, ret. rewrite Hup1.
      eexists _, _. split; [reflexivity|].
      cbn in Hrun2. unfold ret in Hrun2. inversion Hrun2; subst st w2.
      apply Hfinal; reflexivity.
    + unfold RedisCleanup.analyze. erewrite bind_ok by exact Hrun2.
      destruct (RedisCleanup.corrupted st) as [|it items] eqn:Hitems.
      * unfold bind, RedisCleanup.quit, ret. rewrite Hup2.
        eexists _, _. split; [reflexivity|]. apply Hfinal; [exact Hred2 | reflexivity].
      * unfold RedisCleanup.delete_findings. cbv iota.
        erewrite (bind_ok (bind _ _)) by (erewrite bind_ok by exact Hrun3; reflexivity).
        unfold bind, RedisCleanup.quit, ret.
        replace (redis_up (env w3)) with true by congruence.
        eexists _, _. split; [reflexivity|].
        intros k. rewrite Hlook3, Hred2. cbn [redis w1 with_redis].
        destruct (redis w !! k) as [x|] eqn:Hx.
        -- destruct (String.prefix "evolution_cache:" k
                     && RedisCleanup.isCorrupted (RedisCleanup.logical_key k)
                          (RedisClient.type_name (rval x))) eqn:Hc.
           ++ rewrite bool_decide_eq_true_2; [reflexivity|].
              apply Hflag. now exists x.
           ++ rewrite bool_decide_eq_false_2; [reflexivity|].
              intros Hk. apply Hflag in Hk as (y & Hy & Hc'). congruence.
        -- now destruct (bool_decide _).
Qed.

Lemma cleanup_script_deletes_only_in_fix_mode_witness :
  let w := with_redis {[ "evolution_cache:instance:session1" :=
                           {| rval := RString (JStr "record"); rttl := None |};
                         "evolution_cache:instance:alpha" :=
                           {| rval := RString (JStr "record"); rttl := None |} ]}
             (Sample.empty_world Sample.env0) in
  same_persistent w (snd (RedisCleanup.main ["--fix"; "--dry-run"] w))
  /\ exists r w',
       RedisCleanup.main ["--fix"] w = (Ok r, w')
       /\ redis w' !! "evolution_cache:instance:session1" = None
       /\ redis w' !! "evolution_cache:instance:alpha"
          = Some {| rval := RString (JStr "record"); rttl := None |}.
Proof.
  intro w. split.
  - apply (cleanup_script_deletes_only_in_fix_mode ["--fix"; "--dry-run"] w).
    right. reflexivity.
  - destruct (cleanup_script_deletes_only_in_fix_mode ["--fix"] w) as [_ H].
    destruct H as (r & w' & Hrun & Hlook); try reflexivity.
    exists r, w'. split; [exact Hrun|].
    split; rewrite Hlook; vm_compute; reflexivity.
Defined.

Lemma prefix_append (p s : string) : String.prefix p (p +:+ s) = true.
Proof.
  induction p as [|c p IH]; [now destruct s|].
  change (String c p +:+ s) with (String c (p +:+ s)). cbn [String.prefix].
  now destruct (Ascii.ascii_dec c c).
Qed.

Lemma drop_chars_append (p s : string) : Js.drop_chars (String.length p) (p +:+ s) = s.
Proof. induction p as [|c p IH]; [reflexivity | exact IH]. Qed.

Lemma remove_first_append (p s : string) : Js.remove_first p (p +:+ s) = s.
Proof.
  destruct p as [|c p]; [now destruct s|].
  change (String c p +:+ s) with (String c (p +:+ s)).
  cbn [Js.remove_first].
  change (String c (p +:+ s)) with (String c p +:+ s).
  rewrite prefix_append. apply drop_chars_append.
Qed.

Lemma append_empty_r (s : string) : s +:+ EmptyString = s.
Proof.
  induction s as [|c s IH]; [reflexivity|].
  change (String c s +:+ EmptyString) with (String c (s +:+ EmptyString)). now rewrite IH.
Qed.

Lemma after_colon_append (m n : string) :
  Js.includes ":" m = false ->
  RedisCleanup.after_colon (m +:+ String ":" n) = Some n.
Proof.
  induction m as [|c m IH]; intros H; [reflexivity|].
  rewrite includes_char_cons in H.
  destruct (Ascii.eqb ":" c) eqn:E; [discriminate|].
  change (String c m +:+ String ":" n) with (String c (m +:+ String ":" n)).
  cbn [RedisCleanup.after_colon]. rewrite Ascii.eqb_sym, E. now apply IH.
Qed.

Lemma includes_tail (c : ascii) (p s : string) :
  Js.includes (String c p) s = true -> Js.includes p s = true.
Proof.
  induction s as [|d s IH]; [discriminate|].
  cbn [Js.includes]. intros H.
  destruct (String.prefix (String c p) (String d s)) eqn:Hp.
  - cbn [String.prefix] in Hp. destruct (Ascii.ascii_dec c d); [|discriminate].
    destruct (String.prefix p (String d s)); [reflexivity|].
    destruct s; cbn [Js.includes]; now rewrite Hp.
  - destruct (String.prefix p (String d s)); [reflexivity | now apply IH].
Qed.

(** X28. The cleanup script and the engine's sweep read the same
    logical key off a physical key of the [evolution_cache] prefix, and
    give the same verdict on it unless the logical key is one word (no
    colon, no hyphen) that contains [creds], [session] or [keys].  On
    such a key they contradict each other: stored as a string, the
    script flags it and the sweep keeps it; stored as a hash, the sweep
    deletes it and the script finds it healthy. *)
Theorem script_and_sweep_verdicts :
  (forall e m n,
     REDIS_PREFIX_KEY e = "evolution_cache" ->
     m <> EmptyString -> Js.includes ":" m = false ->
     RedisCleanup.logical_key (RedisCache.physical_key e m n) = n
     /\ Js.remove_first (RedisCache.physical_key e m EmptyString)
          (RedisCache.physical_key e m n) = n)
  /\ (forall n t,
        RedisCache.shouldBeHash n = true
        \/ Js.includes "creds" n || Js.includes "session" n || Js.includes "keys" n = false ->
        RedisCleanup.isCorrupted n t = RedisCache.isCorrupted n t)
  /\ (forall n,
        RedisCache.shouldBeHash n = false ->
        Js.includes "creds" n || Js.includes "session" n || Js.includes "keys" n = true ->
        RedisCleanup.isCorrupted n "string" = true
        /\ RedisCache.isCorrupted n "string" = false
        /\ RedisCleanup.isCorrupted n "hash" = false
        /\ RedisCache.isCorrupted n "hash" = true).
Proof.
  assert (Hauth : forall n, Js.includes ":" n = false -> Js.includes "auth:" n = false).
  { intros n Hn. destruct (Js.includes "auth:" n) eqn:Ha; [|reflexivity].
    do 4 apply includes_tail in Ha. congruence. }
  split; [|split].
  - intros e m n Hp Hm Hc. split.
    + unfold RedisCache.physical_key. rewrite Hp.
      change ("evolution_cache" +:+ ":" +:+ m +:+ ":" +:+ n)
        with ("evolution_cache:" +:+ (m +:+ String ":" n)).
      unfold RedisCleanup.logical_key. rewrite prefix_append.
      change 16%nat with (String.length "evolution_cache:"). rewrite drop_chars_append.
      destruct m as [|c m]; [congruence|].
      rewrite includes_char_cons in Hc. destruct (Ascii.eqb ":" c) eqn:E; [discriminate|].
      change (String c m +:+ String ":" n) with (String c (m +:+ String ":" n)).
      cbv iota. rewrite Ascii.eqb_sym in E. rewrite E. now rewrite after_colon_append.
    + unfold RedisCache.physical_key.
      rewrite <- !append_assoc, append_empty_r. apply remove_first_append.
  - intros n t H. unfold RedisCleanup.isCorrupted, RedisCache.isCorrupted.
    assert (Hsame : RedisCleanup.shouldBeHash n = RedisCache.shouldBeHash n);
      [|now rewrite Hsame].
    unfold RedisCleanup.shouldBeHash, RedisCache.shouldBeHash in *.
    destruct (Js.includes ":" n) eqn:Hcolon.
    + now rewrite !orb_true_r.
    + rewrite (Hauth n Hcolon). destruct (Js.includes "-" n); [reflexivity|].
      destruct H as [H|H]; [discriminate|].
      cbn [orb] in *. rewrite <- !orb_assoc in *. exact H.
  - intros n Hone Hmark.
    unfold RedisCleanup.isCorrupted, RedisCache.isCorrupted. rewrite Hone.
    assert (Hs : RedisCleanup.shouldBeHash n = true).
    { unfold RedisCleanup.shouldBeHash. rewrite <- !orb_assoc in *.
      rewrite Hmark. now rewrite !orb_true_r. }
    rewrite Hs. repeat split.
Qed.

Lemma script_and_sweep_verdicts_witness :
  RedisCleanup.logical_key (RedisCache.physical_key Sample.env0 "instance" "session1")
  = "session1"
  /\ RedisCleanup.isCorrupted "alpha" "list" = RedisCache.isCorrupted "alpha" "list"
  /\ RedisCleanup.isCorrupted "session1" "string" = true
  /\ RedisCache.isCorrupted "session1" "string" = false.
Proof.
  destruct script_and_sweep_verdicts as (Hkey & Hsame & Hdiff).
  split; [apply (Hkey Sample.env0 "instance" "session1"); [reflexivity | discriminate | reflexivity]|].
  split; [apply Hsame; right; reflexivity|].
  destruct (Hdiff "session1") as (H1 & H2 & _); [reflexivity | reflexivity |].
  now split.
Defined.

(** ** Testing and storing a proxy *)

Lemma compare_verdict (server proxy : string) :
  let r := ProxyController.compare server proxy in
  (ProxyController.code r = "ok1" \/ ProxyController.code r = "error1"
   \/ ProxyController.code r = "error5")
  /\ (ProxyController.success r = true <-> ProxyController.code r = "ok1")
  /\ (ProxyController.code r = "ok1" ->
      ProxyController.proxyIp r <> EmptyString
      /\ ProxyController.proxyIp r <> ProxyController.serverIp r).
Proof.
  unfold ProxyController.compare.
  destruct proxy as [|c proxy]; cbn [Js.nonempty negb].
  - cbn. repeat split; auto; discriminate.
  - destruct (String.eqb server (String c proxy)) eqn:E; cbn.
    + repeat split; auto; discriminate.
    + apply String.eqb_neq in E. repeat split; auto; congruence.
Qed.

Lemma failure_verdict (result : ProxyController.TestResult) (error : ProxyController.Failure) :
  let r := ProxyController.failure_result result error in
  In (ProxyController.code r) ["error2"; "error3"; "error5"; "error6"; "error7"]
  /\ ProxyController.success r = ProxyController.success result
  /\ ProxyController.serverIp r = ProxyController.serverIp result
  /\ ProxyController.proxyIp r = ProxyController.proxyIp result.
Proof.
  unfold ProxyController.failure_result.
  destruct error as [e|text]; [|cbn; tauto].
  repeat match goal with |- context [bool_decide ?P] => destruct (bool_decide P) end;
    cbn; tauto.
Qed.

(** X29. Whatever the three requests answer, [testProxy] returns a
    verdict and never raises: its code is one of [ok1], [ok2] and
    [error1] to [error8] without [error4], and it reports success
    exactly under [ok1], [ok2] and [error8].  Under [ok1] the address
    seen through the proxy is not empty and differs from the server's.
    When the request without a proxy is rejected the proxy is never
    consulted, and the failure is reported with no address at all.
    [createProxy], for a registered instance and an enabled proxy with a
    host, stores the proxy exactly when the verdict reports success and
    otherwise raises before the proxy service is called; a proxy that is
    not enabled is stored blank without any test. *)
Theorem proxy_verdict_decides_storage
    (trim toLowerCase : string -> string) (net : ProxyController.Network)
    (proxy : ProxyController.ProxyDto) :
  let r := ProxyController.testProxy trim toLowerCase net proxy in
  In (ProxyController.code r)
     ["ok1"; "ok2"; "error1"; "error2"; "error3"; "error5"; "error6"; "error7"; "error8"]
  /\ (ProxyController.success r = true
      <-> ProxyController.code r = "ok1" \/ ProxyController.code r = "ok2"
          \/ ProxyController.code r = "error8")
  /\ (ProxyController.code r = "ok1" ->
      ProxyController.proxyIp r <> EmptyString
      /\ ProxyController.proxyIp r <> ProxyController.serverIp r)
  /\ (forall f, ProxyController.direct net = ProxyController.Rejected f ->
        r = ProxyController.failure_result ProxyController.initial f
        /\ ProxyController.success r = false
        /\ ProxyController.serverIp r = EmptyString
        /\ ProxyController.proxyIp r = EmptyString)
  /\ (forall create n w ref,
        waInstances w !! n = Some ref ->
        (ProxyController.enabled proxy = true ->
         Js.nonempty (ProxyController.host proxy) = true ->
         ProxyController.createProxy trim toLowerCase net create n proxy w
         = if ProxyController.success r
           then (let! saved := create n proxy in ret (saved, r)) w
           else (Throw (ProxyController.rejected r), w))
        /\ (ProxyController.enabled proxy = false ->
            ProxyController.createProxy trim toLowerCase net create n proxy w
            = (let! saved := create n (ProxyController.stored proxy) in
               ret (saved, ProxyController.initial)) w)).
Proof.
  intros r.
  assert (Hcode : (In (ProxyController.code r)
                     ["ok1"; "ok2"; "error1"; "error2"; "error3"; "error5"; "error6";
                      "error7"; "error8"])
                  /\ (ProxyController.success r = true
                      <-> ProxyController.code r = "ok1" \/ ProxyController.code r = "ok2"
                          \/ ProxyController.code r = "error8")
                  /\ (ProxyController.code r = "ok1" ->
                      ProxyController.proxyIp r <> EmptyString
                      /\ ProxyController.proxyIp r <> ProxyController.serverIp r)).
  { assert (Hcmp : forall s p,
               let c := ProxyController.compare s p in
               In (ProxyController.code c)
                  ["ok1"; "ok2"; "error1"; "error2"; "error3"; "error5"; "error6";
                   "error7"; "error8"]
               /\ (ProxyController.success c = true
                   <-> ProxyController.code c = "ok1" \/ ProxyController.code c = "ok2"
                       \/ ProxyController.code c = "error8")
               /\ (ProxyController.code c = "ok1" ->
                   ProxyController.proxyIp c <> EmptyString
                   /\ ProxyController.proxyIp c <> ProxyController.serverIp c)).
    { intros s p c. destruct (compare_verdict s p) as (Hc & Hs & Hok). fold c in Hc, Hs, Hok.
      split; [|split; [|exact Hok]].
      - destruct Hc as [-> | [-> | ->]]; cbn; tauto.
      - rewrite Hs. destruct Hc as [Hc|[Hc|Hc]]; rewrite Hc;
          split; auto; intros [H|[H|H]]; auto; discriminate. }
    assert (Hfail : forall res f,
               ProxyController.success res = false ->
               let c := ProxyController.failure_result res f in
               In (ProxyController.code c)
                  ["ok1"; "ok2"; "error1"; "error2"; "error3"; "error5"; "error6";
                   "error7"; "error8"]
               /\ (ProxyController.success c = true
                   <-> ProxyController.code c = "ok1" \/ ProxyController.code c = "ok2"
                       \/ ProxyController.code c = "error8")
               /\ (ProxyController.code c = "ok1" ->
                   ProxyController.proxyIp c <> EmptyString
                   /\ ProxyController.proxyIp c <> ProxyController.serverIp c)).
    { intros res f Hres c. destruct (failure_verdict res f) as (Hc & Hs & _).
      fold c in Hc, Hs. rewrite Hs, Hres.
      cbn in Hc.
      repeat (destruct Hc as [Hc|Hc]); try contradiction; rewrite <- Hc; cbn;
        (split; [tauto|]); (split; [|discriminate]);
        (split; [discriminate|]); intros [H|[H|H]]; discriminate. }
    subst r. unfold ProxyController.testProxy.
    destruct (ProxyController.direct net) as [body|f]; [|now apply Hfail].
    destruct (ProxyController.through_http net proxy) as [viaHttp|_]; [apply Hcmp|].
    destruct (ProxyController.through_https net proxy) as [viaHttps|[e|text]];
      [apply Hcmp | | now apply Hfail].
    destruct (Js.includes "self signed" (toLowerCase (ProxyController.error_message e))).
    { cbn. split; [tauto|]. split; [|discriminate]. split; auto. }
    destruct (bool_decide _ && _); [|now apply Hfail].
    cbn. split; [tauto|]. split; [|discriminate]. split; auto. }
  destruct Hcode as (Hin & Hsucc & Hok).
  split; [exact Hin|]. split; [exact Hsucc|]. split; [exact Hok|]. split.
  - intros f Hf. subst r. unfold ProxyController.testProxy. rewrite Hf.
    destruct (failure_verdict ProxyController.initial f) as (_ & Hs & Hsrv & Hpx).
    now rewrite Hs, Hsrv, Hpx.
  - intros create n w ref Hreg. split.
    + intros Hen Hhost.
      unfold ProxyController.createProxy.
      erewrite bind_ok by (apply lookup_ok; exact Hreg). cbv iota zeta. unfold ProxyController.stored. rewrite Hen, Hhost.
      fold r. destruct (ProxyController.success r) eqn:Hs; cbn [negb andb].
      * reflexivity.
      * assert (H8 : String.eqb (ProxyController.code r) "error8" = false).
        { apply String.eqb_neq. intros H.
          assert (false = true) by (apply Hsucc; auto). discriminate. }
        assert (H2 : String.eqb (ProxyController.code r) "ok2" = false).
        { apply String.eqb_neq. intros H.
          assert (false = true) by (apply Hsucc; auto). discriminate. }
        rewrite H8, H2. reflexivity.
    + intros Hen.
      unfold ProxyController.createProxy.
      erewrite bind_ok by (apply lookup_ok; exact Hreg). cbv iota zeta. unfold ProxyController.stored. rewrite Hen. reflexivity.
Qed.

Lemma proxy_verdict_decides_storage_witness :
  let same := fun s : string => s in
  let refused := {| ProxyController.error_code := Some "ECONNREFUSED";
                    ProxyController.error_message := "connect ECONNREFUSED";
                    ProxyController.response_status := None;
                    ProxyController.x_brd_error := None |} in
  let untrusted := {| ProxyController.error_code := None;
                      ProxyController.error_message := "self signed certificate in chain";
                      ProxyController.response_status := None;
                      ProxyController.x_brd_error := None |} in
  let net := fun last =>
               {| ProxyController.direct := ProxyController.Data "203.0.113.7";
                  ProxyController.through_http :=
                    fun _ => ProxyController.Rejected (ProxyController.Axios refused);
                  ProxyController.through_https :=
                    fun _ => ProxyController.Rejected (ProxyController.Axios last) |} in
  let proxy := {| ProxyController.enabled := true; ProxyController.host := "198.51.100.4";
                  ProxyController.port := "8080"; ProxyController.protocol := "http";
                  ProxyController.username := EmptyString;
                  ProxyController.password := EmptyString |} in
  let create := fun (_ : string) (_ : ProxyController.ProxyDto) => ret JNull in
  let w := Sample.one_instance Sample.env0
             (Sample.baileys "alpha" "id1" "open" (Some Sample.ready_client)) [] in
  ProxyController.createProxy same same (net untrusted) create "alpha" proxy w
  = (Ok (JNull, ProxyController.testProxy same same (net untrusted) proxy), w)
  /\ ProxyController.createProxy same same (net refused) create "alpha" proxy w
     = (Throw (ProxyController.rejected
                 (ProxyController.testProxy same same (net refused) proxy)), w).
Proof.
  intros same refused untrusted net proxy create w.
  destruct (proxy_verdict_decides_storage same same (net untrusted) proxy)
    as (_ & _ & _ & _ & Hok).
  destruct (proxy_verdict_decides_storage same same (net refused) proxy)
    as (_ & _ & _ & _ & Hbad).
  destruct (Hok create "alpha" w 0%nat eq_refl) as [Hok' _].
  destruct (Hbad create "alpha" w 0%nat eq_refl) as [Hbad' _].
  split.
  - rewrite Hok'; reflexivity.
  - rewrite Hbad'; reflexivity.
Defined.

(** ** Validation of the configuration *)

Lemma push_if_nil (cond : bool) (issue : string) (issues : list string) :
  ConfigValidationService.push_if cond issue issues = [] <-> cond = false /\ issues = [].
Proof.
  unfold ConfigValidationService.push_if. destruct cond.
  - split; [intros H; now apply app_eq_nil in H as [_ H] | intros [H _]; discriminate].
  - tauto.
Qed.

Lemma push_if_keeps (cond : bool) (issue : string) (issues : list string) (x : string) :
  In x issues -> In x (ConfigValidationService.push_if cond issue issues).
Proof.
  unfold ConfigValidationService.push_if. destruct cond; [|tauto].
  intros H. apply in_or_app. now left.
Qed.

(** X30. [validateConnectionConfig] reports no issue exactly when
    [isOptimalConfig] answers [true] and, beyond what [isOptimalConfig]
    looks at, both connection addresses are set, the key prefix is set
    and is not [evolution-cache], the client name has a [length] of
    three or more, counted in UTF-16 units, and a numeric [DEL_INSTANCE]
    is five minutes or more.  An
    empty client name is reported twice, as the default value and as
    not set, and for it [isOptimalConfig] answers the empty text, not a
    boolean. *)
Theorem validation_passes_only_on_optimal (config : ConfigValidationService.Config) :
  (ConfigValidationService.validateConnectionConfig config = []
   <-> ConfigValidationService.isOptimalConfig config = JBool true
       /\ Js.nonempty (ConfigValidationService.DATABASE_CONNECTION_URI config) = true
       /\ Js.nonempty (ConfigValidationService.CACHE_REDIS_URI config) = true
       /\ Js.nonempty (REDIS_PREFIX_KEY (ConfigValidationService.settings config)) = true
       /\ REDIS_PREFIX_KEY (ConfigValidationService.settings config) <> "evolution-cache"
       /\ (3 <= Js.length (CLIENT_NAME (ConfigValidationService.settings config)))%nat
       /\ (forall minutes,
             ConfigValidationService.DEL_INSTANCE config
             = ConfigValidationService.DelNumber minutes -> 5 <= minutes))
  /\ (CLIENT_NAME (ConfigValidationService.settings config) = EmptyString ->
      In ConfigValidationService.client_name_default
         (ConfigValidationService.validateConnectionConfig config)
      /\ In ConfigValidationService.client_name_unset
            (ConfigValidationService.validateConnectionConfig config)
      /\ ConfigValidationService.isOptimalConfig config
         = (if SAVE_DATA_INSTANCE (ConfigValidationService.settings config)
               && REDIS_ENABLED (ConfigValidationService.settings config)
               && REDIS_SAVE_INSTANCES (ConfigValidationService.settings config)
            then JStr EmptyString else JBool false)).
Proof.
  split.
  - unfold ConfigValidationService.validateConnectionConfig,
      ConfigValidationService.validateClientNameConfig,
      ConfigValidationService.validateDelInstanceConfig,
      ConfigValidationService.validateCacheConfig,
      ConfigValidationService.validateDatabaseConfig,
      ConfigValidationService.isOptimalConfig.
    cbv zeta.
    set (e := ConfigValidationService.settings config).
    set (db := ConfigValidationService.push_if _ _
                 (ConfigValidationService.push_if _ _
                    (ConfigValidationService.push_if _ _ []))).
    assert (Hdb : db = [] <-> SAVE_DATA_INSTANCE e = true
                        /\ Js.nonempty (ConfigValidationService.DATABASE_CONNECTION_URI config) = true
                        /\ Js.nonempty (CLIENT_NAME e) = true
                        /\ CLIENT_NAME e <> "evolution").
    { subst db. rewrite !push_if_nil, orb_false_iff, !negb_false_iff, String.eqb_neq. tauto. }
    clearbody db.
    set (ca := if REDIS_ENABLED e then _ else _).
    assert (Hca : ca = [] <-> db = [] /\ REDIS_ENABLED e = true
                        /\ Js.nonempty (ConfigValidationService.CACHE_REDIS_URI config) = true
                        /\ REDIS_SAVE_INSTANCES e = true
                        /\ Js.nonempty (REDIS_PREFIX_KEY e) = true
                        /\ REDIS_PREFIX_KEY e <> "evolution-cache").
    { subst ca. destruct (REDIS_ENABLED e).
      - rewrite !push_if_nil, orb_false_iff, !negb_false_iff, String.eqb_neq. tauto.
      - split; [intros H; now apply app_eq_nil in H as [_ H] | intros (_ & H & _); discriminate]. }
    clearbody ca.
    set (de := match ConfigValidationService.DEL_INSTANCE config with
               | ConfigValidationService.DelBoolean _ => ca
               | ConfigValidationService.DelNumber m => _
               end).
    assert (Hde : de = [] <-> ca = []
                        /\ forall minutes,
                             ConfigValidationService.DEL_INSTANCE config
                             = ConfigValidationService.DelNumber minutes -> 5 <= minutes).
    { subst de. destruct (ConfigValidationService.DEL_INSTANCE config) as [b|m].
      - split; [intros H; split; [exact H | discriminate] | tauto].
      - rewrite push_if_nil, Z.ltb_ge. split.
        + intros [H1 H2]. split; [exact H2|]. intros m' Hm'. inversion Hm'. now subst.
        + intros [H1 H2]. split; [now apply H2 | exact H1]. }
    clearbody de.
    destruct (Js.nonempty (CLIENT_NAME e)) eqn:Hname; cbn [negb].
    + rewrite push_if_nil, Nat.ltb_ge, Hde, Hca, Hdb.
      destruct (SAVE_DATA_INSTANCE e), (REDIS_ENABLED e), (REDIS_SAVE_INSTANCES e);
        cbn [negb]; try (split; [intros H; decompose [and] H; discriminate
                                | intros [H _]; discriminate]).
      split.
      * intros H. decompose [and] H. repeat split; auto.
        f_equal. apply negb_true_iff. now apply String.eqb_neq.
      * intros (H & H1 & H2 & H3 & H4 & H5 & H6). injection H as H'.
        apply negb_true_iff, String.eqb_neq in H'. repeat split; auto.
    + split.
      * intros H. now apply app_eq_nil in H as [_ H].
      * intros [H _].
        destruct (SAVE_DATA_INSTANCE e), (REDIS_ENABLED e), (REDIS_SAVE_INSTANCES e);
          discriminate.
  - intros Hname.
    unfold ConfigValidationService.validateConnectionConfig,
      ConfigValidationService.validateClientNameConfig,
      ConfigValidationService.isOptimalConfig.
    cbv zeta. rewrite Hname. cbn [Js.nonempty negb]. split; [|split].
    + apply in_or_app. left.
      unfold ConfigValidationService.validateDelInstanceConfig.
      assert (Hc : In ConfigValidationService.client_name_default
                     (ConfigValidationService.validateCacheConfig config
                        (ConfigValidationService.validateDatabaseConfig config []))).
      { assert (Hd : In ConfigValidationService.client_name_default
                       (ConfigValidationService.validateDatabaseConfig config [])).
        { unfold ConfigValidationService.validateDatabaseConfig. cbv zeta.
          rewrite Hname. cbn [Js.nonempty negb orb].
          unfold ConfigValidationService.push_if at 1. apply in_or_app. right. now left. }
        unfold ConfigValidationService.validateCacheConfig. cbv zeta.
        destruct (REDIS_ENABLED _); [now do 3 apply push_if_keeps|].
        apply in_or_app. now left. }
      destruct (ConfigValidationService.DEL_INSTANCE config); [exact Hc|].
      now apply push_if_keeps.
    + apply in_or_app. right. now left.
    + now destruct (SAVE_DATA_INSTANCE _), (REDIS_ENABLED _), (REDIS_SAVE_INSTANCES _).
Qed.

Lemma validation_passes_only_on_optimal_witness :
  let config := {| ConfigValidationService.settings := Sample.env0;
                   ConfigValidationService.DATABASE_CONNECTION_URI :=
                     "postgresql://localhost:5432/evolution";
                   ConfigValidationService.CACHE_REDIS_URI := "redis://localhost:6379";
                   ConfigValidationService.DEL_INSTANCE :=
                     ConfigValidationService.DelNumber 15 |} in
  ConfigValidationService.validateConnectionConfig config = []
  /\ ConfigValidationService.isOptimalConfig config = JBool true.
Proof.
  intro config.
  destruct (validation_passes_only_on_optimal config) as [[Hto Hfrom] _].
  assert (Hnone : ConfigValidationService.validateConnectionConfig config = []).
  { apply Hfrom. repeat split; try reflexivity; try discriminate.
    - vm_compute. lia.
    - intros minutes H. inversion H. lia. }
  split; [exact Hnone | now apply Hto].
Defined.

(** ** The cache stage over a persisted record *)

#[local] Instance same_process_preorder : PreOrder same_process.
Proof.
  split; [now intros w|].
  intros a b c (H1 & H2 & H3) (H4 & H5 & H6). unfold same_process.
  repeat split; congruence.
Qed.


Lemma sat_keys_process c : Sat same_process (cache.keys c).
Proof. sat_auto ltac:(idtac; repeat split; reflexivity). Qed.






